(** * transformer-srl: the [SrlTransformers] model of [srl_transformers/models.py]

    A shallow embedding of the module: the lemma-to-frames resource reader
    [read_dictionary], the model's constructor, [forward], [decode_frames],
    [make_output_human_readable] and [get_metrics], followed by the
    properties of the specification that were checked against it.

    Python exceptions are values of [exn] carried by [result]; methods that
    touch the model object or the file system thread a [Heap] explicitly.
    Tensor scalars are kept behind the [Scalar] interface; the pretrained
    encoder, the loss functions and the metric objects, which belong to the
    host framework, are the operations of the [Framework] interface. *)

From Stdlib Require Import String Ascii List ZArith QArith Qround Lia.
From stdpp Require Import base option list gmap strings fin_maps.
Import ListNotations.
Local Open Scope string_scope.
Local Open Scope list_scope.

(** ** Exceptions and results *)

Inductive exn : Type :=
| FileNotFoundError
| ValueError
| KeyError
| TypeError
| IndexError
| RuntimeError
| AttributeError
| LibraryError (name : string).

Inductive result (A : Type) : Type :=
| Ok (a : A)
| Raise (e : exn).
Arguments Ok {A} a.
Arguments Raise {A} e.

#[export] Instance result_ret : MRet result := fun A a => Ok a.
#[export] Instance result_bind : MBind result := fun A B k r =>
  match r with
  | Ok a => k a
  | Raise e => Raise e
  end.

(** Computations that may raise and that update a state [S] on the way (the
    state reached when the exception was raised is kept). *)
Definition SE (S A : Type) : Type := S -> result A * S.

#[export] Instance SE_ret {S} : MRet (SE S) := fun A a s => (Ok a, s).
#[export] Instance SE_bind {S} : MBind (SE S) := fun A B k m s =>
  match m s with
  | (Ok a, s') => k a s'
  | (Raise e, s') => (Raise e, s')
  end.

Definition lift {S A} (r : result A) : SE S A := fun s => (r, s).

(** Whether a run returned (rather than raised). *)
Definition returns {S A} (run : result A * S) : bool :=
  match fst run with
  | Ok _ => true
  | Raise _ => false
  end.

(** [for x in xs: acc = f(acc, x)], stopping at the first exception. *)
Fixpoint for_fold {A B} (f : B -> A -> result B) (xs : list A) (acc : B) : result B :=
  match xs with
  | [] => Ok acc
  | x :: xs' => acc' ← f acc x; for_fold f xs' acc'
  end.

(** [[f(x) for x in xs]], stopping at the first exception. *)
Fixpoint for_each {A B} (f : A -> result B) (xs : list A) : result (list B) :=
  match xs with
  | [] => Ok []
  | x :: xs' => y ← f x; ys ← for_each f xs'; Ok (y :: ys)
  end.

(** ** Python strings *)

Module PyStr.

(** [str.isspace] on one character, for code points below 256: the ASCII
    whitespace table of CPython (TAB..CR, FS..US, SPACE) and the two
    Latin-1 ones (NEL, NBSP). *)
Definition is_space (c : ascii) : bool :=
  let n := nat_of_ascii c in
  (Nat.leb 9 n && Nat.leb n 13) || (Nat.leb 28 n && Nat.leb n 32)
  || Nat.eqb n 133 || Nat.eqb n 160.

Definition starts_token (s : string) : bool :=
  match s with
  | EmptyString => false
  | String c _ => negb (is_space c)
  end.

(** [s.split()]: the maximal runs of non-whitespace characters, in order. *)
Fixpoint split (s : string) : list string :=
  match s with
  | EmptyString => []
  | String c rest =>
      if is_space c then split rest
      else if starts_token rest then
        match split rest with
        | t :: ts => String c t :: ts
        | [] => [String c EmptyString]
        end
      else String c EmptyString :: split rest
  end.

Definition LF : ascii := ascii_of_nat 10.
Definition CR : ascii := ascii_of_nat 13.

(** Iterating a file opened in text mode with the default [newline=None]:
    a line ends at LF, CR or CR LF, each handed over as LF; the last line
    may lack its terminator, and nothing follows the last terminator. *)
Fixpoint file_lines (s : string) : list string :=
  match s with
  | EmptyString => []
  | String c rest =>
      if Ascii.eqb c LF then String LF EmptyString :: file_lines rest
      else if Ascii.eqb c CR then
        match rest with
        | String d rest' =>
            if Ascii.eqb d LF then String LF EmptyString :: file_lines rest'
            else String LF EmptyString :: file_lines rest
        | EmptyString => [String LF EmptyString]
        end
      else
        match rest with
        | EmptyString => [String c EmptyString]
        | String _ _ =>
            match file_lines rest with
            | l :: ls => String c l :: ls
            | [] => [String c EmptyString]
            end
        end
  end.

(** [sub in s] *)
Fixpoint contains (sub s : string) : bool :=
  if String.prefix sub s then true
  else match s with
       | EmptyString => false
       | String _ rest => contains sub rest
       end.

(** [s.split(sep)[0]] for a one-character separator: the text before the
    first occurrence of [sep], or all of [s] when there is none. *)
Fixpoint before_first (sep : ascii) (s : string) : string :=
  match s with
  | EmptyString => EmptyString
  | String c rest =>
      if Ascii.eqb c sep then EmptyString else String c (before_first sep rest)
  end.

End PyStr.

(** ** The lemma-to-frames resource *)

(** The file system as the module sees it: what [open(path)] followed by
    reading the whole text gives, or the exception [open] raises. The world
    also keeps the log of the paths the module itself opened, that is, the
    arguments of the [open] calls of [models.py]; what the libraries it
    calls read on their own (the files of a pretrained encoder, loaded by
    [AutoModel.from_pretrained]) is not in this log. *)
Definition FileSystem := string -> result string.

Record World := { files : FileSystem; opened : list string }.

Definition open_file (path : string) : SE World string := fun w =>
  (files w path, {| files := files w; opened := opened w ++ [path] |}).

(** [defaultdict(list)] keyed by lemma. [dict_get d k] is [d.get(k, [])]. *)
Definition dict_get (d : gmap string (list string)) (k : string) : list string :=
  default [] (d !! k).

(** One iteration of the loop of [read_dictionary]:
    [k, *v = l.split(); dictionary[k] += v]. *)
Definition read_line (d : gmap string (list string)) (l : string)
  : result (gmap string (list string)) :=
  match PyStr.split l with
  | [] => Raise ValueError
  | k :: v => Ok (<[k := dict_get d k ++ v]> d)
  end.

Definition read_dictionary (filename : string)
  : SE World (gmap string (list string)) :=
  text ← open_file filename;
  lift (for_fold read_line (PyStr.file_lines text) ∅).

(** The specification's reading of the resource format: the frames listed
    for lemma [k] are the tokens after the first one on every line whose
    first token is [k], in file order. *)
Definition frames_listed (k : string) (ls : list string) : list string :=
  flat_map (fun l => match PyStr.split l with
                     | k' :: v => if String.eqb k' k then v else []
                     | [] => []
                     end) ls.

(** A blank or whitespace-only line: every character, the line terminator
    included, is whitespace. *)
Fixpoint whitespace_only (l : string) : bool :=
  match l with
  | EmptyString => true
  | String c rest => PyStr.is_space c && whitespace_only rest
  end.

(** A token of [split] is never empty and holds no whitespace. *)
Fixpoint token_like (s : string) : bool :=
  match s with
  | EmptyString => false
  | String c EmptyString => negb (PyStr.is_space c)
  | String c rest => negb (PyStr.is_space c) && token_like rest
  end.

(** ** Tensors *)

(** The scalars of tensors (floating-point numbers in the program), behind
    the operations the module relies on. *)
Class Scalar (R : Type) := {
  s_add : R -> R -> R;
  s_mul : R -> R -> R;
  s_div : R -> R -> R;
  s_exp : R -> R;
  s_of_Z : Z -> R;
  s_ltb : R -> R -> bool
}.

Module Tensor.
Section Ops.
Context {R : Type} {SR : Scalar R}.

Definition sum (v : list R) : R := fold_left s_add v (s_of_Z 0).

(** [F.softmax(v, dim=-1)] on one vector. *)
Definition softmax (v : list R) : list R :=
  let es := map s_exp v in
  map (fun e => s_div e (sum es)) es.

Definition dot (u v : list R) : R := sum (zip_with s_mul u v).

(** [x.size()] of a 3-d tensor held as nested lists (tensors are
    rectangular, so the first row and its first vector give the sizes). *)
Definition size1 {A} (l : list (list A)) : nat :=
  match l with
  | [] => 0
  | row :: _ => length row
  end.

Definition shape2 {A} (n c : nat) (t : list (list A)) : Prop :=
  length t = n /\ Forall (fun v => length v = c) t.

Definition shape3 {A} (b s c : nat) (t : list (list (list A))) : Prop :=
  length t = b /\ Forall (shape2 s c) t.

(** Splitting a flat buffer into [n] consecutive pieces of [c] elements. *)
Fixpoint chunks {A} (n c : nat) (l : list A) : list (list A) :=
  match n with
  | O => []
  | S n' => take c l :: chunks n' c (drop c l)
  end.

(** [t.view(-1, c)] of a 3-d tensor: the rows of all batch entries, one
    after the other. The number of elements must be a multiple of [c]. *)
Definition view_rows (c : nat) (t : list (list (list R))) : result (list (list R)) :=
  let flat := concat (concat t) in
  if Nat.eqb c 0 then Raise RuntimeError
  else if Nat.eqb (length flat mod c) 0
       then Ok (chunks (length flat / c) c flat)
       else Raise RuntimeError.

(** [t.view([b, s, c])] of a 2-d tensor: the number of elements must be
    [b * s * c]. *)
Definition view3 (b s c : nat) (t : list (list R)) : result (list (list (list R))) :=
  let flat := concat t in
  if Nat.eqb (length flat) (b * s * c)
  then Ok (map (chunks s c) (chunks b (s * c) flat))
  else Raise RuntimeError.

(** [rows[indicator == 1]]: the entries at the positions where the
    indicator is 1, in row-major order; the indicator must have the shape
    of the two leading dimensions. *)
Fixpoint select_row {A} (row : list A) (ind : list Z) : result (list A) :=
  match row, ind with
  | [], [] => Ok []
  | x :: row', i :: ind' =>
      rest ← select_row row' ind';
      Ok (if Z.eqb i 1 then x :: rest else rest)
  | _, _ => Raise IndexError
  end.

Fixpoint mask_select {A} (rows : list (list A)) (ind : list (list Z)) : result (list A) :=
  match rows, ind with
  | [], [] => Ok []
  | row :: rows', i :: ind' =>
      here ← select_row row i;
      rest ← mask_select rows' ind';
      Ok (here ++ rest)
  | _, _ => Raise IndexError
  end.

(** [torch.nn.Linear]: [y = x W^T + b] on the last dimension. *)
Record Linear := {
  in_features : nat;
  out_features : nat;
  weight : list (list R);
  bias : list R
}.

Definition tabulate {A} (n : nat) (f : nat -> A) : list A := map f (seq 0 n).

(** [Linear(n_in, n_out)] with its parameters drawn by [w] and [b]. *)
Definition new_Linear (n_in n_out : nat) (w : nat -> nat -> R) (b : nat -> R) : Linear :=
  {| in_features := n_in;
     out_features := n_out;
     weight := tabulate n_out (fun j => tabulate n_in (w j));
     bias := tabulate n_out b |}.

Definition Linear_wf (L : Linear) : Prop :=
  length (weight L) = out_features L /\ length (bias L) = out_features L.

Definition linear_vec (L : Linear) (x : list R) : result (list R) :=
  if Nat.eqb (length x) (in_features L)
  then Ok (zip_with (fun w b => s_add (dot x w) b) (weight L) (bias L))
  else Raise RuntimeError.

Definition linear2 (L : Linear) (t : list (list R)) : result (list (list R)) :=
  for_each (linear_vec L) t.

Definition linear3 (L : Linear) (t : list (list (list R))) : result (list (list (list R))) :=
  for_each (linear2 L) t.

(** An initializer fills a parameter in place: the entry at [(j, i)]
    gets a new value, the shape stays. *)
Definition fill2 (f : nat -> nat -> R -> R) (t : list (list R)) : list (list R) :=
  imap (fun j row => imap (f j) row) t.

(** [torch.nn.Dropout] on a 3-d tensor: in training each entry is
    multiplied by its drawn factor ([0], or [1 / (1 - p)]); in evaluation
    the input is returned as it is. *)
Definition dropout3 (training : bool) (factor : nat -> nat -> nat -> R)
    (t : list (list (list R))) : list (list (list R)) :=
  if training
  then imap (fun b row => imap (fun s v => imap (fun h x => s_mul x (factor b s h)) v) row) t
  else t.

End Ops.
Arguments Linear R : clear implicits.
End Tensor.

(** [ndarray] operations used by the decoder. *)
Module Np.
Section Ops.
Context {R : Type} {SR : Scalar R}.

(** [np.take(a, i)] on a 1-d array with an integer index: a 0-d array
    holding [a[i]] (held here as a one-element buffer, its [size] is 1);
    negative indices count from the end, out-of-range ones raise. *)
Definition take (a : list R) (i : Z) : result (list R) :=
  let n := Z.of_nat (length a) in
  let j := if Z.ltb i 0 then (i + n)%Z else i in
  if Z.ltb j 0 then Raise IndexError
  else match a !! Z.to_nat j with
       | Some x => Ok [x]
       | None => Raise IndexError
       end.

Fixpoint argmax_from (best_i : nat) (best : R) (i : nat) (l : list R) : nat :=
  match l with
  | [] => best_i
  | x :: l' =>
      if s_ltb best x then argmax_from i x (S i) l'
      else argmax_from best_i best (S i) l'
  end.

(** The position of the first maximum of the flattened array. *)
Definition first_max (a : list R) : result nat :=
  match a with
  | [] => Raise ValueError
  | x :: a' => Ok (argmax_from 0 x 1 a')
  end.

(** [a.argmax(kw=-1)]: [ndarray.argmax] takes [axis] (and [out],
    [keepdims]); any other keyword is a [TypeError]. *)
Definition argmax (kw : string) (a : list R) : result nat :=
  if String.eqb kw "axis" then first_max a else Raise TypeError.

End Ops.
End Np.

(** ** The host framework *)

(** [allennlp.data.Vocabulary]: for each namespace, the tokens by index.
    The namespaces of this model ("labels", "frames_labels") are label
    namespaces, which have no padding and no out-of-vocabulary entry. *)
Record Vocabulary := { index_to_token : string -> list string }.

Fixpoint index_of (tok : string) (l : list string) : option nat :=
  match l with
  | [] => None
  | t :: l' => if String.eqb t tok then Some 0 else S <$> index_of tok l'
  end.

Definition get_vocab_size (v : Vocabulary) (namespace : string) : nat :=
  length (index_to_token v namespace).

Definition get_token_index (v : Vocabulary) (tok namespace : string) : result Z :=
  match index_of tok (index_to_token v namespace) with
  | Some i => Ok (Z.of_nat i)
  | None => Raise KeyError
  end.

Definition get_token_from_index (v : Vocabulary) (i : Z) (namespace : string)
  : result string :=
  if Z.ltb i 0 then Raise KeyError
  else match index_to_token v namespace !! Z.to_nat i with
       | Some t => Ok t
       | None => Raise KeyError
       end.

(** The values held by an output dictionary. *)
Inductive value (R : Type) : Type :=
| VTensor3 (t : list (list (list R)))
| VTensor2 (t : list (list R))
| VScalar (x : R)
| VMask (m : list (list bool))
| VLists (l : list (list string))
| VStrings (l : list string)
| VOffsets (l : list (list nat)).
Arguments VTensor3 {R} t.
Arguments VTensor2 {R} t.
Arguments VScalar {R} x.
Arguments VMask {R} m.
Arguments VLists {R} l.
Arguments VStrings {R} l.
Arguments VOffsets {R} l.

(** One entry of the [metadata] list of a batch. *)
Record Metadata := {
  words : list string;
  verb : string;
  offsets : list nat;
  lemmas : list string;
  verb_index : option nat;
  gold_tags : list string
}.

(** What the module takes from PyTorch, transformers, AllenNLP and
    allennlp-models. Each operation returns its result or the exception it
    raises. *)
Class Framework (R : Type) := {
  (** [allennlp.models.Model.__init__(vocab, **kwargs)] *)
  ModelKwargs : Type;
  Model_init : Vocabulary -> ModelKwargs -> result unit;
  (** [transformers.AutoModel] *)
  Encoder : Type;
  hidden_size : Encoder -> nat;
  encoder_forward :
    Encoder -> list (list Z) -> list (list Z) -> list (list bool) ->
    result (list (list (list R)) * list (list R));
  (** [AutoModel.from_pretrained(name)]: the encoder, or the exception of
      the loading (the library reads the model's files itself) *)
  from_pretrained : string -> result Encoder;
  (** an initializer run over the named parameters of the encoder: each is
      refilled in place, by its name; the configuration, and so the hidden
      size, is no parameter *)
  initialize_encoder : (string -> nat -> nat -> R -> R) -> Encoder -> Encoder;
  initialize_encoder_hidden_size :
    ∀ init e, hidden_size (initialize_encoder init e) = hidden_size e;
  (** [TextFieldTensors] and its two accessors *)
  TextFieldTensors : Type;
  get_text_field_mask : TextFieldTensors -> result (list (list bool));
  get_token_ids_from_text_field_tensors : TextFieldTensors -> result (list (list Z));
  (** [Dropout(p)]: the constructor checks the probability; in training
      the module draws a factor for every entry *)
  Dropout : R -> result R;
  dropout_factor : R -> nat -> nat -> nat -> R;
  (** the default parameters of a fresh [Linear(n_in, n_out)] *)
  linear_weight : nat -> nat -> nat -> nat -> R;
  linear_bias : nat -> nat -> nat -> R;
  (** losses *)
  sequence_cross_entropy_with_logits :
    list (list (list R)) -> list (list Z) -> list (list bool) -> option R -> result R;
  CrossEntropyLoss : list (list R) -> list Z -> result R;
  (** [SrlEvalScorer] *)
  SpanMetric : Type;
  SrlEvalScorer : string -> list string -> SpanMetric;
  span_call :
    list (option nat) -> list (list string) -> list (list string) ->
    list (list string) -> SpanMetric -> result SpanMetric;
  span_get_metric : bool -> SpanMetric -> result (list (string * R) * SpanMetric);
  (** [FBetaMeasure] *)
  FBeta : Type;
  FBetaMeasure : string -> FBeta;
  fbeta_call : list (list R) -> list Z -> FBeta -> result FBeta;
  fbeta_get_metric : bool -> FBeta -> result (list (string * R) * FBeta);
  (** [convert_bio_tags_to_conll_format] *)
  convert_bio_tags_to_conll_format : list string -> result (list string);
  (** the Viterbi decoding of [SrlBert.make_output_human_readable]: the
      wordpiece tags and the word tags of every batch entry *)
  srl_bert_decode :
    Vocabulary -> gmap string (value R) ->
    result (list (list string) * list (list string))
}.

(** ** The model *)

Module SrlTransformers.
Section Model.
Context {R : Type} {SR : Scalar R} {FW : Framework R}.

(** The directory above the one holding the module: [LEMMA_FRAME_PATH] is
    [<there>/resources/lemma2frame.csv]. *)
Variable package_root : string.

Definition LEMMA_FRAME_PATH : string :=
  package_root +:+ "/resources/lemma2frame.csv".

(** The attributes of a [SrlTransformers] object. ([frame_criterion] has
    no state: it is [CrossEntropyLoss] itself.) *)
Record Model := {
  vocab : Vocabulary;
  lemm_frame_dict : gmap string (list string);
  bert_model : Encoder;
  num_classes : nat;
  frame_num_classes : nat;
  span_metric : option SpanMetric;
  f1_frame_metric : FBeta;
  tag_projection_layer : Tensor.Linear R;
  frame_projection_layer : Tensor.Linear R;
  embedding_dropout : R;
  _label_smoothing : option R;
  ignore_span_metric : bool;
  training : bool
}.

Definition set_span_metric (sm : option SpanMetric) (m : Model) : Model :=
  {| vocab := vocab m; lemm_frame_dict := lemm_frame_dict m;
     bert_model := bert_model m; num_classes := num_classes m;
     frame_num_classes := frame_num_classes m; span_metric := sm;
     f1_frame_metric := f1_frame_metric m;
     tag_projection_layer := tag_projection_layer m;
     frame_projection_layer := frame_projection_layer m;
     embedding_dropout := embedding_dropout m;
     _label_smoothing := _label_smoothing m;
     ignore_span_metric := ignore_span_metric m; training := training m |}.

Definition set_f1_frame_metric (f : FBeta) (m : Model) : Model :=
  {| vocab := vocab m; lemm_frame_dict := lemm_frame_dict m;
     bert_model := bert_model m; num_classes := num_classes m;
     frame_num_classes := frame_num_classes m; span_metric := span_metric m;
     f1_frame_metric := f;
     tag_projection_layer := tag_projection_layer m;
     frame_projection_layer := frame_projection_layer m;
     embedding_dropout := embedding_dropout m;
     _label_smoothing := _label_smoothing m;
     ignore_span_metric := ignore_span_metric m; training := training m |}.

(** What a method sees: its object and the world around it. *)
Record Heap := { self : Model; world : World }.

Definition get_self : SE Heap Model := fun h => (Ok (self h), h).

Definition set_self (f : Model -> Model) : SE Heap unit := fun h =>
  (Ok tt, {| self := f (self h); world := world h |}).

(** [bert_model: Union[str, AutoModel]] *)
Inductive BertArg := BertName (name : string) | BertObject (e : Encoder).

(** An initializer on the two parameters of a [Linear] registered under
    [name]: the weight and the bias are refilled in place. *)
Definition initialize_linear (init : string -> nat -> nat -> R -> R)
    (name : string) (L : Tensor.Linear R) : Tensor.Linear R :=
  {| Tensor.in_features := Tensor.in_features L;
     Tensor.out_features := Tensor.out_features L;
     Tensor.weight := Tensor.fill2 (init (name +:+ ".weight")) (Tensor.weight L);
     Tensor.bias := imap (init (name +:+ ".bias") 0) (Tensor.bias L) |}.

(** [initializer(self)]: the applicator visits every named parameter of
    the module and refills it in place: the parameters of the encoder
    (their names start with "bert_model.") and the weight and bias of the
    two projection layers. The dropout, the loss and the metrics have no
    parameter. *)
Definition apply_initializer (init : string -> nat -> nat -> R -> R)
    (m : Model) : Model :=
  {| vocab := vocab m; lemm_frame_dict := lemm_frame_dict m;
     bert_model :=
       initialize_encoder (fun name => init ("bert_model." +:+ name)) (bert_model m);
     num_classes := num_classes m;
     frame_num_classes := frame_num_classes m; span_metric := span_metric m;
     f1_frame_metric := f1_frame_metric m;
     tag_projection_layer :=
       initialize_linear init "tag_projection_layer" (tag_projection_layer m);
     frame_projection_layer :=
       initialize_linear init "frame_projection_layer" (frame_projection_layer m);
     embedding_dropout := embedding_dropout m;
     _label_smoothing := _label_smoothing m;
     ignore_span_metric := ignore_span_metric m; training := training m |}.

Definition Linear (n_in n_out : nat) : Tensor.Linear R :=
  Tensor.new_Linear n_in n_out (linear_weight n_in n_out) (linear_bias n_in n_out).

Definition __init__
    (vocab : Vocabulary)
    (bert_model : BertArg)
    (embedding_dropout : R)
    (initializer : string -> nat -> nat -> R -> R)
    (label_smoothing : option R)
    (ignore_span_metric : bool)
    (srl_eval_path : option string)
    (kwargs : ModelKwargs)
  : SE World Model :=
  lift (Model_init vocab kwargs);;
  lemm_frame_dict ← read_dictionary LEMMA_FRAME_PATH;
  bert ← lift (match bert_model with
               | BertName name => from_pretrained name
               | BertObject e => Ok e
               end);
  let num_classes := get_vocab_size vocab "labels" in
  let frame_num_classes := get_vocab_size vocab "frames_labels" in
  let span_metric :=
    match srl_eval_path with
    | Some path => Some (SrlEvalScorer path ["V"])
    | None => None
    end in
  embedding_dropout ← lift (Dropout embedding_dropout);
  let self :=
    {| vocab := vocab;
       lemm_frame_dict := lemm_frame_dict;
       bert_model := bert;
       num_classes := num_classes;
       frame_num_classes := frame_num_classes;
       span_metric := span_metric;
       f1_frame_metric := FBetaMeasure "micro";
       tag_projection_layer := Linear (hidden_size bert) num_classes;
       frame_projection_layer := Linear (hidden_size bert) frame_num_classes;
       embedding_dropout := embedding_dropout;
       _label_smoothing := label_smoothing;
       ignore_span_metric := ignore_span_metric;
       training := true |} in
  mret (apply_initializer initializer self).

(** *** forward *)

(** The words, verbs and offsets of the batch entries, transposed by
    [zip] and unpacked into three names: an empty batch yields nothing to
    unpack. *)
Definition metadata_columns (metadata : list Metadata)
  : result (list (list string) * list string * list (list nat)) :=
  match metadata with
  | [] => Raise ValueError
  | _ => Ok (map words metadata, map verb metadata, map offsets metadata)
  end.

Definition get_tensor2 (k : string) (d : gmap string (value R))
  : result (list (list R)) :=
  match d !! k with
  | Some (VTensor2 t) => Ok t
  | Some _ => Raise AttributeError
  | None => Raise KeyError
  end.

Definition get_strings (k : string) (d : gmap string (value R))
  : result (list string) :=
  match d !! k with
  | Some (VStrings l) => Ok l
  | Some _ => Raise TypeError
  | None => Raise KeyError
  end.

(** [d.pop(k)] for an entry holding lists of tags. *)
Definition pop_lists (k : string) (d : gmap string (value R))
  : result (list (list string) * gmap string (value R)) :=
  match d !! k with
  | Some (VLists l) => Ok (l, delete k d)
  | Some _ => Raise TypeError
  | None => Raise KeyError
  end.

(** *** decode_frames

    [array_argmax] is what [a.argmax(dim=-1)] does on the arrays at hand
    (see [decode_frames] below for the NumPy arrays of the source). *)
Definition decode_frames_with (array_argmax : list R -> result nat)
    (output_dict : gmap string (value R))
  : SE Heap (gmap string (value R)) :=
  self ← get_self;
  frame_probabilities ← lift (get_tensor2 "frame_probabilities" output_dict);
  lemmas ← lift (get_strings "lemmas" output_dict);
  let candidate_labels := map (dict_get (lemm_frame_dict self)) lemmas in
  candidate_labels_ids ←
    lift (for_each (fun l => get_token_index (vocab self) l "frames_labels")
                   (concat candidate_labels));
  frame_predictions ←
    lift (for_each
            (fun '(cl, fp) =>
               fp_candidates ← Np.take fp cl;
               if Nat.ltb 0 (length fp_candidates)
               then array_argmax fp_candidates
               else array_argmax fp)
            (zip candidate_labels_ids frame_probabilities));
  frame_tags ←
    lift (for_each
            (fun f => get_token_from_index (vocab self) (Z.of_nat f) "frames_labels")
            frame_predictions);
  mret (<["frame_tags" := VStrings frame_tags]> output_dict).

(** The arrays are NumPy arrays ([.cpu().data.numpy()]) and the keyword
    passed to [argmax] is [dim]. *)
Definition decode_frames := decode_frames_with (Np.argmax "dim").

(** [SrlBert.make_output_human_readable]: stores the decoded tags under
    "wordpiece_tags" and "tags" and hands the dictionary back. *)
Definition super_make_output_human_readable (output_dict : gmap string (value R))
  : SE Heap (gmap string (value R)) :=
  self ← get_self;
  '(wordpiece_tags, word_tags) ← lift (srl_bert_decode (vocab self) output_dict);
  mret (<["tags" := VLists word_tags]>
          (<["wordpiece_tags" := VLists wordpiece_tags]> output_dict)).

Definition make_output_human_readable (output_dict : gmap string (value R))
  : SE Heap (gmap string (value R)) :=
  output_dict ← super_make_output_human_readable output_dict;
  decode_frames output_dict.

(** The span-metric branch of [forward]; returns the dictionary as
    [make_output_human_readable] and [pop] left it. *)
Definition update_span_metric (metadata : list Metadata)
    (output_dict : gmap string (value R))
  : SE Heap (gmap string (value R)) :=
  let batch_verb_indices := map verb_index metadata in
  let batch_sentences := map words metadata in
  output_dict ← make_output_human_readable output_dict;
  '(batch_bio_predicted_tags, output_dict) ← lift (pop_lists "tags" output_dict);
  batch_conll_predicted_tags ←
    lift (for_each convert_bio_tags_to_conll_format batch_bio_predicted_tags);
  let batch_bio_gold_tags := map gold_tags metadata in
  batch_conll_gold_tags ←
    lift (for_each convert_bio_tags_to_conll_format batch_bio_gold_tags);
  self ← get_self;
  scorer ← lift (match span_metric self with
                 | Some scorer => Ok scorer
                 | None => Raise AttributeError
                 end);
  scorer ← lift (span_call batch_verb_indices batch_sentences
                   batch_conll_predicted_tags batch_conll_gold_tags scorer);
  set_self (set_span_metric (Some scorer));;
  mret output_dict.

Definition forward
    (tokens : TextFieldTensors)
    (verb_indicator : list (list Z))
    (frame_indicator : list (list Z))
    (metadata : list Metadata)
    (tags : option (list (list Z)))
    (frame_tags : option (list (list Z)))
  : SE Heap (gmap string (value R)) :=
  self ← get_self;
  mask ← lift (get_text_field_mask tokens);
  input_ids ← lift (get_token_ids_from_text_field_tensors tokens);
  '(bert_embeddings, _) ←
    lift (encoder_forward (bert_model self) input_ids verb_indicator mask);
  let embedded_text_input :=
    Tensor.dropout3 (training self) (dropout_factor (embedding_dropout self))
      bert_embeddings in
  frame_embeddings ← lift (Tensor.mask_select embedded_text_input frame_indicator);
  let batch_size := length embedded_text_input in
  let sequence_length := Tensor.size1 embedded_text_input in
  logits ← lift (Tensor.linear3 (tag_projection_layer self) embedded_text_input);
  frame_logits ← lift (Tensor.linear2 (frame_projection_layer self) frame_embeddings);
  reshaped_log_probs ← lift (Tensor.view_rows (num_classes self) logits);
  class_probabilities ←
    lift (Tensor.view3 batch_size sequence_length (num_classes self)
            (map Tensor.softmax reshaped_log_probs));
  let frame_probabilities := map Tensor.softmax frame_logits in
  let output_dict : gmap string (value R) :=
    <["mask" := VMask mask]>
      (<["frame_probabilities" := VTensor2 frame_probabilities]>
         (<["class_probabilities" := VTensor3 class_probabilities]>
            (<["frame_logits" := VTensor2 frame_logits]>
               (<["logits" := VTensor3 logits]> ∅)))) in
  '(words, verbs, offsets) ← lift (metadata_columns metadata);
  let lemmas := concat (map lemmas metadata) in
  let output_dict :=
    <["wordpiece_offsets" := VOffsets offsets]>
      (<["verb" := VStrings verbs]>
         (<["lemmas" := VStrings lemmas]>
            (<["words" := VLists words]> output_dict))) in
  match tags with
  | None => mret output_dict
  | Some tags =>
      role_loss ←
        lift (sequence_cross_entropy_with_logits logits tags mask
                (_label_smoothing self));
      frame_tags_filtered ←
        lift (match frame_tags with
              | Some frame_tags => Tensor.mask_select frame_tags frame_indicator
              | None => Raise TypeError
              end);
      frame_loss ← lift (CrossEntropyLoss frame_logits frame_tags_filtered);
      output_dict ←
        (if negb (ignore_span_metric self)
            && bool_decide (is_Some (span_metric self))
            && negb (training self)
         then update_span_metric metadata output_dict
         else mret output_dict);
      self ← get_self;
      f1 ← lift (fbeta_call frame_logits frame_tags_filtered (f1_frame_metric self));
      set_self (set_f1_frame_metric f1);;
      mret (<["loss" := VScalar (s_div (s_add role_loss frame_loss) (s_of_Z 2))]>
              (<["role_loss" := VScalar role_loss]>
                 (<["frame_loss" := VScalar frame_loss]> output_dict)))
  end.

(** *** get_metrics *)

(** A dictionary built entry by entry: a later entry with the same key
    replaces the earlier one. *)
Definition dict_of_items (items : list (string * R)) : gmap string R :=
  fold_left (fun d '(k, v) => <[k := v]> d) items ∅.

Definition role_entry (e : string * R) : string * R :=
  (PyStr.before_first "-" (fst e) +:+ "_role", snd e).

Definition frame_entry (e : string * R) : string * R :=
  (fst e +:+ "_frame", snd e).

Definition is_overall (e : string * R) : bool := PyStr.contains "overall" (fst e).

Definition get_metrics (reset : bool) : SE Heap (gmap string R) :=
  self ← get_self;
  if ignore_span_metric self then mret ∅
  else
    scorer ← lift (match span_metric self with
                   | Some scorer => Ok scorer
                   | None => Raise AttributeError
                   end);
    '(metric_dict, scorer) ← lift (span_get_metric reset scorer);
    set_self (set_span_metric (Some scorer));;
    self ← get_self;
    '(frame_metric_dict, f1) ← lift (fbeta_get_metric reset (f1_frame_metric self));
    set_self (set_f1_frame_metric f1);;
    let metric_dict_filtered :=
      dict_of_items (map role_entry (List.filter is_overall metric_dict)) in
    let frame_metric_dict := dict_of_items (map frame_entry frame_metric_dict) in
    mret (frame_metric_dict ∪ metric_dict_filtered).

(** *** A process using the model *)

(** The operations a process performs on a constructed model. *)
Inductive call :=
  | CallForward (tokens : TextFieldTensors)
    (verb_indicator frame_indicator : list (list Z))
    (metadata : list Metadata) (tags frame_tags : option (list (list Z)))
  | CallDecodeFrames (output_dict : gmap string (value R))
  | CallMakeOutputHumanReadable (output_dict : gmap string (value R))
  | CallGetMetrics (reset : bool).

(** The heap after one operation, whether it returned or raised. *)
Definition run_call (c : call) (h : Heap) : Heap :=
  match c with
  | CallForward tokens verb_indicator frame_indicator metadata tags frame_tags =>
      snd (forward tokens verb_indicator frame_indicator metadata tags frame_tags h)
  | CallDecodeFrames output_dict => snd (decode_frames output_dict h)
  | CallMakeOutputHumanReadable output_dict =>
      snd (make_output_human_readable output_dict h)
  | CallGetMetrics reset => snd (get_metrics reset h)
  end.

Definition run_calls (cs : list call) (h : Heap) : Heap :=
  fold_left (fun h c => run_call c h) cs h.

(** *** Vocabulary of the statements *)

(** [m] never leaves a heap that is not [P]-related to the one it got. *)
Definition keeps {A} (P : Heap -> Heap -> Prop) (m : SE Heap A) : Prop :=
  ∀ h, P h (snd (m h)).

(** The world and the lemma-to-frames dictionary are as they were. *)
Definition same_resource (h h' : Heap) : Prop :=
  world h' = world h ∧ lemm_frame_dict (self h') = lemm_frame_dict (self h).

(** The dictionary [forward] builds before it looks at the gold tags. *)
Definition base_output (mask : list (list bool))
    (logits class_probabilities : list (list (list R)))
    (frame_logits : list (list R)) (metadata : list Metadata)
  : gmap string (value R) :=
  <["wordpiece_offsets" := VOffsets (map offsets metadata)]>
    (<["verb" := VStrings (map verb metadata)]>
       (<["lemmas" := VStrings (concat (map lemmas metadata))]>
          (<["words" := VLists (map words metadata)]>
             (<["mask" := VMask mask]>
                (<["frame_probabilities" := VTensor2 (map Tensor.softmax frame_logits)]>
                   (<["class_probabilities" := VTensor3 class_probabilities]>
                      (<["frame_logits" := VTensor2 frame_logits]>
                         (<["logits" := VTensor3 logits]> ∅)))))))).

(** The keys added or removed by [make_output_human_readable] and the
    [pop] of the span-metric branch. *)
Definition decoding_key (k : string) : Prop :=
  k = "tags" ∨ k = "wordpiece_tags" ∨ k = "frame_tags".

(** What the constructor establishes about the projection layers. *)
Definition Model_wf (m : Model) : Prop :=
  Tensor.Linear_wf (tag_projection_layer m) ∧
  Tensor.Linear_wf (frame_projection_layer m) ∧
  Tensor.out_features (tag_projection_layer m) = num_classes m ∧
  Tensor.out_features (frame_projection_layer m) = frame_num_classes m ∧
  num_classes m = get_vocab_size (vocab m) "labels" ∧
  frame_num_classes m = get_vocab_size (vocab m) "frames_labels" ∧
  Tensor.in_features (tag_projection_layer m) = hidden_size (bert_model m) ∧
  Tensor.in_features (frame_projection_layer m) = hidden_size (bert_model m).

(** An indicator with one entry per token of every batch entry. *)
Definition indicator_for {A} (input_ids : list (list A)) (ind : list (list Z)) : Prop :=
  Forall2 (fun row i => length i = length row) input_ids ind.

(** A 2-d tensor has rows of one length. *)
Definition rectangular {A} (t : list (list A)) : Prop :=
  Forall (fun row => length row = Tensor.size1 t) t.

(** The token ids handed to the encoder are a tensor. *)
Definition Tokens_contract (tokens : TextFieldTensors) : Prop :=
  ∀ input_ids,
    get_token_ids_from_text_field_tensors tokens = Ok input_ids ->
    rectangular input_ids.

(** The encoder's contract: one vector of [hidden_size] entries for
    every token of every batch entry. *)
Definition Encoder_contract (e : Encoder) : Prop :=
  ∀ input_ids token_type_ids mask embeddings pooled,
    rectangular input_ids ->
    encoder_forward e input_ids token_type_ids mask = Ok (embeddings, pooled) ->
    Tensor.shape3 (length input_ids) (Tensor.size1 input_ids) (hidden_size e)
      embeddings.

(** What a decoder run left under "frame_tags". *)
Definition frame_tags_of (run : result (gmap string (value R)) * Heap)
  : result (option (value R)) :=
  od ← fst run; Ok (od !! "frame_tags").

(** The metrics contract as the specification words it: whenever the two
    metric objects have entries to give, [get_metrics] returns a
    dictionary with an entry for every overall span-metric entry and one
    for every frame-metric entry. *)
Definition returns_both_metrics (reset : bool) (h : Heap) : Prop :=
  ∀ scorer span_items scorer' frame_items f1',
    span_metric (self h) = Some scorer ->
    span_get_metric reset scorer = Ok (span_items, scorer') ->
    fbeta_get_metric reset (f1_frame_metric (self h)) = Ok (frame_items, f1') ->
    ∃ d, fst (get_metrics reset h) = Ok d ∧
      (∀ e, e ∈ span_items -> is_overall e = true ->
            is_Some (d !! fst (role_entry e))) ∧
      (∀ e, e ∈ frame_items -> is_Some (d !! fst (frame_entry e))).

End Model.
End SrlTransformers.

(** ** The specification's frame decoder *)

Section DecodeSpec.
Context {R : Type} {SR : Scalar R}.

(** For one example: the candidate frames are those listed for its lemma;
    the prediction is the candidate of highest probability, and the
    argmax over all frame labels when there is no candidate. The result
    is the vocabulary token of the chosen label. *)
Definition predict_frame_spec (dict : gmap string (list string))
    (v : Vocabulary) (lemma : string) (fp : list R) : result string :=
  candidates ← for_each (fun l => get_token_index v l "frames_labels")
                        (dict_get dict lemma);
  match candidates with
  | [] =>
      best ← Np.first_max fp;
      get_token_from_index v (Z.of_nat best) "frames_labels"
  | _ =>
      probabilities ← for_each (fun c => x ← Np.take fp c;
                                         match x with
                                         | [p] => Ok p
                                         | _ => Raise IndexError
                                         end) candidates;
      best ← Np.first_max probabilities;
      match candidates !! best with
      | Some c => get_token_from_index v c "frames_labels"
      | None => Raise IndexError
      end
  end.

Definition decode_frames_spec (dict : gmap string (list string))
    (v : Vocabulary) (lemmas : list string) (frame_probabilities : list (list R))
  : result (list string) :=
  for_each (fun '(l, fp) => predict_frame_spec dict v l fp)
           (zip lemmas frame_probabilities).
End DecodeSpec.

(** ** A small instance to run the definitions on

    Rational scalars (with a rational stand-in for the exponential) and a
    framework whose encoder embeds a token id as a constant vector. *)

Module Toy.

#[export] Instance Q_Scalar : Scalar Q := {|
  s_add := Qplus;
  s_mul := Qmult;
  s_div := Qdiv;
  s_exp := fun q => Qpower 2 (Qfloor q);
  s_of_Z := inject_Z;
  s_ltb := fun x y => negb (Qle_bool y x)
|}.

Definition span_items : list (string * Q) :=
  [("precision-overall", 1 # 2); ("recall-overall", 1 # 4);
   ("f1-measure-overall", 1 # 3); ("precision-ARG0", 1 # 5)].

Definition frame_items : list (string * Q) :=
  [("precision", 3 # 4); ("recall", 3 # 4); ("fscore", 3 # 4)].

#[export] Instance framework : Framework Q := {|
  ModelKwargs := unit;
  Model_init := fun _ _ => Ok tt;
  Encoder := nat;
  hidden_size := fun e => e;
  encoder_forward := fun e ids _ _ =>
    Ok (map (map (fun i => repeat (inject_Z i) e)) ids, []);
  from_pretrained := fun _ => Ok 2%nat;
  initialize_encoder := fun _ e => e;
  initialize_encoder_hidden_size := fun _ _ => eq_refl;
  TextFieldTensors := list (list Z);
  get_text_field_mask := fun t => Ok (map (map (fun i => negb (Z.eqb i 0))) t);
  get_token_ids_from_text_field_tensors := fun t => Ok t;
  Dropout := fun p =>
    if Qle_bool 0 p && Qle_bool p 1 then Ok p else Raise ValueError;
  dropout_factor := fun _ _ _ _ => 1%Q;
  linear_weight := fun _ _ j i => inject_Z (Z.of_nat (j + i));
  linear_bias := fun _ _ _ => 0%Q;
  sequence_cross_entropy_with_logits := fun _ _ _ _ => Ok (3 # 4);
  CrossEntropyLoss := fun _ _ => Ok (1 # 4);
  SpanMetric := nat;
  SrlEvalScorer := fun _ _ => 0%nat;
  span_call := fun _ _ _ _ n => Ok (S n);
  span_get_metric := fun reset n => Ok (span_items, if reset then 0%nat else n);
  FBeta := nat;
  FBetaMeasure := fun _ => 0%nat;
  fbeta_call := fun _ _ n => Ok (S n);
  fbeta_get_metric := fun reset n =>
    match n with
    | O => Raise RuntimeError
    | S _ => Ok (frame_items, if reset then 0%nat else n)
    end;
  convert_bio_tags_to_conll_format := fun tags => Ok tags;
  srl_bert_decode := fun _ d =>
    match d !! "words" with
    | Some (VLists ws) =>
        Ok (map (map (fun _ => "O")) ws, map (map (fun _ => "O")) ws)
    | _ => Raise KeyError
    end
|}.

Definition vocabulary : Vocabulary :=
  {| index_to_token := fun namespace =>
       if String.eqb namespace "labels" then ["O"; "B-ARG0"; "B-V"]
       else if String.eqb namespace "frames_labels" then ["F0"; "F1"; "F2"; "F3"]
       else [] |}.

Definition root : string := "/srv/transformer_srl".

Definition resource_text : string := "run F1 F2
eat F3
".

Definition disk : FileSystem := fun path =>
  if String.eqb path (SrlTransformers.LEMMA_FRAME_PATH root)
  then Ok resource_text else Raise FileNotFoundError.

Definition empty_disk : FileSystem := fun _ => Raise FileNotFoundError.

Definition fresh (fs : FileSystem) : World := {| files := fs; opened := [] |}.

Definition construct (ignore_span_metric : bool) (w : World)
  : result (SrlTransformers.Model) * World :=
  SrlTransformers.__init__ root vocabulary (SrlTransformers.BertName "bert-base-cased")
    0%Q (fun _ _ _ x => x) None ignore_span_metric (Some "srl-eval.pl") tt w.

(** The object [construct] builds on [disk]. *)
Definition model (ignore_span_metric training : bool) : SrlTransformers.Model :=
  {| SrlTransformers.vocab := vocabulary;
     SrlTransformers.lemm_frame_dict := <["eat" := ["F3"]]> (<["run" := ["F1"; "F2"]]> ∅);
     SrlTransformers.bert_model := 2%nat;
     SrlTransformers.num_classes := 3;
     SrlTransformers.frame_num_classes := 4;
     SrlTransformers.span_metric := Some 0%nat;
     SrlTransformers.f1_frame_metric := 0%nat;
     SrlTransformers.tag_projection_layer := SrlTransformers.Linear 2 3;
     SrlTransformers.frame_projection_layer := SrlTransformers.Linear 2 4;
     SrlTransformers.embedding_dropout := 0%Q;
     SrlTransformers._label_smoothing := None;
     SrlTransformers.ignore_span_metric := ignore_span_metric;
     SrlTransformers.training := training |}.

Definition heap (ignore_span_metric training : bool) : SrlTransformers.Heap :=
  {| SrlTransformers.self := model ignore_span_metric training;
     SrlTransformers.world :=
       {| files := disk; opened := [SrlTransformers.LEMMA_FRAME_PATH root] |} |}.

(** The heap after an evaluation pass: both metrics were called once. *)
Definition evaluated (ignore_span_metric : bool) : SrlTransformers.Heap :=
  {| SrlTransformers.self :=
       SrlTransformers.set_f1_frame_metric 1%nat
         (SrlTransformers.set_span_metric (Some 1%nat)
            (model ignore_span_metric false));
     SrlTransformers.world :=
       {| files := disk; opened := [SrlTransformers.LEMMA_FRAME_PATH root] |} |}.

(** A batch of one sentence, "dogs run", with the predicate at position 1. *)
Definition tokens : @TextFieldTensors Q framework := [[5; 7]%Z].
Definition verb_indicator : list (list Z) := [[0; 1]%Z].
Definition frame_indicator : list (list Z) := [[0; 1]%Z].
Definition metadata : list Metadata :=
  [{| words := ["dogs"; "run"]; verb := "run"; offsets := [0; 1];
      lemmas := ["run"]; verb_index := Some 1; gold_tags := ["B-ARG0"; "B-V"] |}].
Definition tags : list (list Z) := [[1; 2]%Z].
Definition frame_tags : list (list Z) := [[0; 2]%Z].

(** A batch of two sentences; the second has two predicates, so the
    batch holds three lemmas. *)
Definition pair_tokens : @TextFieldTensors Q framework := [[5; 7]%Z; [9; 3]%Z].
Definition pair_indicator : list (list Z) := [[0; 1]%Z; [1; 0]%Z].
Definition pair_metadata : list Metadata :=
  [{| words := ["dogs"; "run"]; verb := "run"; offsets := [0; 1];
      lemmas := ["run"]; verb_index := Some 1; gold_tags := ["B-ARG0"; "B-V"] |};
   {| words := ["eat"; "up"]; verb := "eat"; offsets := [0; 1];
      lemmas := ["eat"; "go"]; verb_index := Some 0; gold_tags := ["B-V"; "O"] |}].

(** An output dictionary for the decoder: one example, lemma "run", whose
    candidates are F1 (0.1) and F2 (0.2); F0 has probability 0.7. *)
Definition decoder_input : gmap string (value Q) :=
  <["lemmas" := VStrings ["run"]]>
    (<["frame_probabilities" := VTensor2 [[7 # 10; 1 # 10; 2 # 10; 0 # 1]]]> ∅).

End Toy.

(** ** Vocabulary of the further properties *)

(** A resource written in the format [read_dictionary] reads: one line per
    entry, the lemma and its frames separated by single spaces. *)
Fixpoint render_tokens (ts : list string) : string :=
  match ts with
  | [] => String PyStr.LF EmptyString
  | t :: ts' =>
      match ts' with
      | [] => t +:+ String PyStr.LF EmptyString
      | _ :: _ => t +:+ String " " (render_tokens ts')
      end
  end.

Definition render_entry (e : string * list string) : string :=
  render_tokens (fst e :: snd e).

Definition render_resource (entries : list (string * list string)) : string :=
  fold_right (fun e text => render_entry e +:+ text) EmptyString entries.

(** The lemma and the frames of an entry are tokens. *)
Definition entry_tokens (e : string * list string) : bool :=
  token_like (fst e) && forallb token_like (snd e).

(** The frames of the entries for lemma [k], in order. *)
Definition entry_frames (k : string) (entries : list (string * list string))
  : list string :=
  flat_map (fun e => if String.eqb (fst e) k then snd e else []) entries.

(** The number of positions at which an indicator is 1. *)
Definition frame_positions (ind : list (list Z)) : nat :=
  length (List.filter (fun i => Z.eqb i 1) (concat ind)).

(** A sentence whose predicate has no entry in the resource of [Toy]. *)
Definition quiet_metadata : list Metadata :=
  [{| words := ["dogs"; "go"]; verb := "go"; offsets := [0; 1];
      lemmas := ["go"]; verb_index := Some 1; gold_tags := ["B-ARG0"; "B-V"] |}].

Definition quiet_decoder_input : gmap string (value Q) :=
  <["lemmas" := VStrings ["go"]]>
    (<["frame_probabilities" := VTensor2 [[7 # 10; 1 # 10; 2 # 10; 0 # 1]]]> ∅).

(** ** Running the definitions *)

Example split_ex :
  PyStr.split "  run  RUN.01	RUN.02
" = ["run"; "RUN.01"; "RUN.02"].
Proof. reflexivity. Qed.

Example file_lines_ex :
  PyStr.file_lines "a b
c
" = ["a b
"; "c
"].
Proof. reflexivity. Qed.

Example construct_ex :
  Toy.construct false (Toy.fresh Toy.disk) =
  (Ok (Toy.model false true), SrlTransformers.world (Toy.heap false true)).
Proof. vm_compute. reflexivity. Qed.

(** ** Properties of the result and state monads *)

Lemma rbind_Ok {A B} (r : result A) (k : A -> result B) (b : B) :
  r ≫= k = Ok b -> ∃ a, r = Ok a ∧ k a = Ok b.
Proof. destruct r as [a|e]; simpl; [eauto | discriminate]. Qed.

Lemma rbind_Raise {A B} (r : result A) (k : A -> result B) (e : exn) :
  r = Raise e -> r ≫= k = Raise e.
Proof. intros ->. reflexivity. Qed.

Lemma SE_bind_Ok {S A B} (m : SE S A) (k : A -> SE S B) (s s' : S) (b : B) :
  (m ≫= k) s = (Ok b, s') -> ∃ a s1, m s = (Ok a, s1) ∧ k a s1 = (Ok b, s').
Proof.
  unfold mbind, SE_bind. destruct (m s) as [[a|e] s1]; [eauto | discriminate].
Qed.

Lemma SE_bind_step {S A B} (m : SE S A) (k : A -> SE S B) (s s1 : S) (a : A) :
  m s = (Ok a, s1) -> (m ≫= k) s = k a s1.
Proof. unfold mbind, SE_bind. intros ->. reflexivity. Qed.

Lemma SE_bind_raise {S A B} (m : SE S A) (k : A -> SE S B) (s s1 : S) (e : exn) :
  m s = (Raise e, s1) -> (m ≫= k) s = (Raise e, s1).
Proof. unfold mbind, SE_bind. intros ->. reflexivity. Qed.

Lemma lift_Ok {S A} (r : result A) (s s' : S) (a : A) :
  lift r s = (Ok a, s') -> r = Ok a ∧ s' = s.
Proof. unfold lift. intros [= -> ->]. auto. Qed.

Lemma lift_step {S A B} (r : result A) (k : A -> SE S B) (s : S) (a : A) :
  r = Ok a -> (lift r ≫= k) s = k a s.
Proof. intros ->. reflexivity. Qed.

Lemma lift_raise {S A B} (r : result A) (k : A -> SE S B) (s : S) (e : exn) :
  r = Raise e -> (lift r ≫= k) s = (Raise e, s).
Proof. intros ->. reflexivity. Qed.

Lemma for_each_length {A B} (f : A -> result B) (xs : list A) (ys : list B) :
  for_each f xs = Ok ys -> length ys = length xs.
Proof.
  revert ys. induction xs as [|x xs IH]; simpl; intros ys Hys.
  - injection Hys as <-. reflexivity.
  - apply rbind_Ok in Hys as (y & _ & Hys).
    apply rbind_Ok in Hys as (ys' & Hys' & [= <-]).
    simpl. f_equal. auto.
Qed.

Lemma for_each_Forall2 {A B} (f : A -> result B) (xs : list A) (ys : list B) :
  for_each f xs = Ok ys -> Forall2 (fun x y => f x = Ok y) xs ys.
Proof.
  revert ys. induction xs as [|x xs IH]; simpl; intros ys Hys.
  - injection Hys as <-. constructor.
  - apply rbind_Ok in Hys as (y & Hy & Hys).
    apply rbind_Ok in Hys as (ys' & Hys' & [= <-]).
    constructor; auto.
Qed.

(** ** The resource reader *)

Lemma split_nil_iff (l : string) :
  PyStr.split l = [] ↔ whitespace_only l = true.
Proof.
  induction l as [|c rest IH]; simpl; [tauto|].
  destruct (PyStr.is_space c); simpl; [exact IH|].
  split; [|discriminate].
  destruct (PyStr.starts_token rest); [|discriminate].
  destruct (PyStr.split rest); discriminate.
Qed.

Lemma split_cons_not_blank (l k : string) (v : list string) :
  PyStr.split l = k :: v -> whitespace_only l = false.
Proof.
  intros Hl. destruct (whitespace_only l) eqn:Hw; [|reflexivity].
  apply split_nil_iff in Hw. congruence.
Qed.

Lemma split_tokens (s : string) : Forall (fun t => token_like t = true) (PyStr.split s).
Proof.
  induction s as [|c rest IH]; simpl; [constructor|].
  destruct (PyStr.is_space c) eqn:Hc; [exact IH|].
  destruct (PyStr.starts_token rest) eqn:Hs.
  - destruct (PyStr.split rest) as [|t ts] eqn:Hsplit.
    + repeat constructor. simpl. rewrite Hc. reflexivity.
    + inversion IH as [|? ? Ht Hts]; subst. constructor; [|exact Hts].
      simpl. rewrite Hc. destruct t; [discriminate Ht | exact Ht].
  - constructor; [|exact IH]. simpl. rewrite Hc. reflexivity.
Qed.

Lemma read_line_get (d d' : gmap string (list string)) (l k : string) :
  read_line d l = Ok d' ->
  dict_get d' k = dict_get d k ++ frames_listed k [l].
Proof.
  unfold read_line, frames_listed. simpl.
  destruct (PyStr.split l) as [|k' v]; [discriminate|].
  intros [= <-]. unfold dict_get at 1.
  destruct (String.eqb_spec k' k) as [->|Hne].
  - rewrite lookup_insert_eq. simpl. rewrite app_nil_r. reflexivity.
  - rewrite lookup_insert_ne by exact Hne. rewrite !app_nil_r. reflexivity.
Qed.

Lemma read_line_dom (d d' : gmap string (list string)) (l k : string) :
  read_line d l = Ok d' ->
  is_Some (d' !! k) ↔ is_Some (d !! k) ∨ ∃ v, PyStr.split l = k :: v.
Proof.
  unfold read_line.
  destruct (PyStr.split l) as [|k' v]; [discriminate|].
  intros [= <-]. destruct (decide (k' = k)) as [->|Hne].
  - rewrite lookup_insert_eq. split; [eauto|]. intros _. eauto.
  - rewrite lookup_insert_ne by exact Hne. split; [auto|].
    intros [Hs|[v' [= ? ?]]]; [exact Hs | contradiction].
Qed.

Lemma frames_listed_cons (k l : string) (ls : list string) :
  frames_listed k (l :: ls) = frames_listed k [l] ++ frames_listed k ls.
Proof. unfold frames_listed. simpl. rewrite app_nil_r. reflexivity. Qed.

Lemma read_lines_get (ls : list string) (d0 d : gmap string (list string)) (k : string) :
  for_fold read_line ls d0 = Ok d ->
  dict_get d k = dict_get d0 k ++ frames_listed k ls.
Proof.
  revert d0. induction ls as [|l ls IH]; cbn [for_fold]; intros d0 Hd.
  - injection Hd as <-. unfold frames_listed. simpl. rewrite app_nil_r. reflexivity.
  - apply rbind_Ok in Hd as (d1 & H1 & Hd).
    rewrite (IH _ Hd), (read_line_get _ _ _ _ H1), (frames_listed_cons k l ls).
    rewrite app_assoc. reflexivity.
Qed.

Lemma read_lines_dom (ls : list string) (d0 d : gmap string (list string)) (k : string) :
  for_fold read_line ls d0 = Ok d ->
  is_Some (d !! k) ↔
  is_Some (d0 !! k) ∨ ∃ l v, l ∈ ls ∧ PyStr.split l = k :: v.
Proof.
  revert d0. induction ls as [|l ls IH]; simpl; intros d0 Hd.
  - injection Hd as <-. split; [auto|].
    intros [Hs|(l & v & Hl & _)]; [exact Hs|]. inversion Hl.
  - apply rbind_Ok in Hd as (d1 & H1 & Hd).
    rewrite (IH _ Hd), (read_line_dom _ _ _ k H1). split.
    + intros [[Hs|[v Hv]]|(l' & v & Hl' & Hv)]; [auto| |].
      * right. exists l, v. split; [constructor | exact Hv].
      * right. exists l', v. split; [constructor; exact Hl' | exact Hv].
    + intros [Hs|(l' & v & Hl' & Hv)]; [auto|].
      apply elem_of_cons in Hl' as [->|Hl']; [left; right; eauto|].
      right. eauto.
Qed.

Lemma read_line_not_blank (d : gmap string (list string)) (l : string) :
  whitespace_only l = false -> ∃ d', read_line d l = Ok d'.
Proof.
  intros Hl. unfold read_line. destruct (PyStr.split l) as [|k v] eqn:Hs; [|eauto].
  apply split_nil_iff in Hs. congruence.
Qed.

Lemma read_line_blank (d : gmap string (list string)) (l : string) :
  whitespace_only l = true -> read_line d l = Raise ValueError.
Proof.
  intros Hl. apply split_nil_iff in Hl. unfold read_line. rewrite Hl. reflexivity.
Qed.

Lemma read_line_raises (d : gmap string (list string)) (l : string) (e : exn) :
  read_line d l = Raise e -> e = ValueError.
Proof.
  unfold read_line. destruct (PyStr.split l); [|discriminate]. congruence.
Qed.

Lemma read_lines_total (ls : list string) (d0 : gmap string (list string)) :
  Forall (fun l => whitespace_only l = false) ls ->
  ∃ d, for_fold read_line ls d0 = Ok d.
Proof.
  intros Hls. revert d0.
  induction Hls as [|l ls Hl _ IH]; cbn [for_fold]; intros d0; [eauto|].
  destruct (read_line_not_blank d0 l Hl) as [d1 ->]. apply IH.
Qed.

Lemma read_lines_blank (ls : list string) (d0 : gmap string (list string)) (l : string) :
  l ∈ ls -> whitespace_only l = true ->
  for_fold read_line ls d0 = Raise ValueError.
Proof.
  intros Hin Hw. revert d0.
  induction ls as [|l' ls IH]; intros d0; [inversion Hin|]. cbn [for_fold].
  destruct (read_line d0 l') as [d1|e] eqn:H1.
  - apply elem_of_cons in Hin as [->|Hin]; [|exact (IH Hin d1)].
    rewrite (read_line_blank d0 l' Hw) in H1. discriminate.
  - apply read_line_raises in H1 as ->. reflexivity.
Qed.

Lemma read_dictionary_unfold (filename : string) (w : World) :
  read_dictionary filename w =
  (text ← files w filename; for_fold read_line (PyStr.file_lines text) ∅,
   {| files := files w; opened := opened w ++ [filename] |}).
Proof.
  unfold read_dictionary, mbind at 1, SE_bind, open_file, lift.
  destruct (files w filename); reflexivity.
Qed.

(** C3: [read_dictionary] parses the resource by whitespace. On a file
    whose lines all hold a token it returns a dictionary in which looking up
    a lemma yields exactly the frames listed for it: the tokens after the
    first one of every line that starts with the lemma, in file order; and
    the keys are exactly the first tokens of the lines. *)
Theorem read_dictionary_frames (w : World) (filename text : string) :
  files w filename = Ok text ->
  Forall (fun l => whitespace_only l = false) (PyStr.file_lines text) ->
  ∃ d, fst (read_dictionary filename w) = Ok d ∧
    ∀ k, dict_get d k = frames_listed k (PyStr.file_lines text) ∧
         (is_Some (d !! k) ↔
          ∃ l v, l ∈ PyStr.file_lines text ∧ PyStr.split l = k :: v).
Proof.
  intros Hfile Hlines. rewrite read_dictionary_unfold, Hfile. simpl.
  destruct (read_lines_total _ ∅ Hlines) as [d Hd].
  exists d. split; [exact Hd|]. intros k. split.
  - rewrite (read_lines_get _ _ _ k Hd). reflexivity.
  - rewrite (read_lines_dom _ _ _ k Hd), lookup_empty. split.
    + intros [[? [=]]|Hl]; exact Hl.
    + auto.
Qed.

Lemma read_dictionary_frames_witness :
  ∃ d, fst (read_dictionary (SrlTransformers.LEMMA_FRAME_PATH Toy.root)
              (Toy.fresh Toy.disk)) = Ok d ∧
    ∀ k, dict_get d k = frames_listed k (PyStr.file_lines Toy.resource_text) ∧
         (is_Some (d !! k) ↔
          ∃ l v, l ∈ PyStr.file_lines Toy.resource_text ∧ PyStr.split l = k :: v).
Proof.
  apply (read_dictionary_frames (Toy.fresh Toy.disk) _ Toy.resource_text).
  - reflexivity.
  - vm_compute. repeat constructor.
Defined.

(** C8: on a file that holds a blank or whitespace-only line,
    [read_dictionary] raises the unpacking error. *)
Theorem read_dictionary_blank_line (w : World) (filename text l : string) :
  files w filename = Ok text ->
  l ∈ PyStr.file_lines text ->
  whitespace_only l = true ->
  fst (read_dictionary filename w) = Raise ValueError.
Proof.
  intros Hfile Hl Hw. rewrite read_dictionary_unfold, Hfile. simpl.
  exact (read_lines_blank _ _ l Hl Hw).
Qed.

Lemma read_dictionary_blank_line_witness :
  fst (read_dictionary "lemma2frame.csv"
         (Toy.fresh (fun _ => Ok "run F1

eat F3
"))) = Raise ValueError.
Proof.
  apply (read_dictionary_blank_line _ _ "run F1

eat F3
" (String PyStr.LF EmptyString)).
  - reflexivity.
  - vm_compute. apply list_elem_of_In. simpl. auto.
  - reflexivity.
Defined.

(** ** What the methods leave untouched *)

Import SrlTransformers.

Section Frame.
Context {R : Type} {SR : Scalar R} {FW : Framework R}.

Lemma get_self_step {B} (k : Model -> SE Heap B) (h : Heap) :
  (get_self ≫= k) h = k (self h) h.
Proof. reflexivity. Qed.

Lemma set_self_step {B} (f : Model -> Model) (k : unit -> SE Heap B) (h : Heap) :
  (set_self f ≫= k) h = k tt {| self := f (self h); world := world h |}.
Proof. reflexivity. Qed.

Lemma keeps_ret {A} (P : Heap -> Heap -> Prop) `{!Reflexive P} (a : A) :
  keeps P (mret a).
Proof. intros h. simpl. reflexivity. Qed.

Lemma keeps_lift {A} (P : Heap -> Heap -> Prop) `{!Reflexive P} (r : result A) :
  keeps P (lift r).
Proof. intros h. simpl. reflexivity. Qed.

Lemma keeps_get_self (P : Heap -> Heap -> Prop) `{!Reflexive P} :
  keeps P get_self.
Proof. intros h. simpl. reflexivity. Qed.

Lemma keeps_bind {A B} (P : Heap -> Heap -> Prop) `{!Transitive P}
    (m : SE Heap A) (k : A -> SE Heap B) :
  keeps P m -> (∀ a, keeps P (k a)) -> keeps P (m ≫= k).
Proof.
  intros Hm Hk h. unfold mbind, SE_bind.
  specialize (Hm h). destruct (m h) as [[a|e] h1]; simpl in *; [|exact Hm].
  etransitivity; [exact Hm | apply Hk].
Qed.

#[local] Instance same_resource_refl : Reflexive same_resource.
Proof. intros h. split; reflexivity. Qed.

#[local] Instance same_resource_trans : Transitive same_resource.
Proof. intros a b c [H1 H2] [H3 H4]. split; congruence. Qed.

Lemma keeps_set_span_metric (sm : option SpanMetric) :
  keeps same_resource (set_self (set_span_metric sm)).
Proof. intros h. split; reflexivity. Qed.

Lemma keeps_set_f1_frame_metric (f : FBeta) :
  keeps same_resource (set_self (set_f1_frame_metric f)).
Proof. intros h. split; reflexivity. Qed.

(** One step of a frame proof: split a bind, or close a leaf. *)
Ltac keeps_step :=
  lazymatch goal with
  | |- keeps _ (mret _) => apply keeps_ret; try typeclasses eauto
  | |- keeps _ (lift _) => apply keeps_lift; try typeclasses eauto
  | |- keeps _ get_self => apply keeps_get_self; try typeclasses eauto
  | |- keeps _ (set_self (set_span_metric _)) => apply keeps_set_span_metric
  | |- keeps _ (set_self (set_f1_frame_metric _)) => apply keeps_set_f1_frame_metric
  | |- keeps _ (_ ≫= _) => apply keeps_bind; [try typeclasses eauto | | intros ?]
  | |- keeps _ (match ?x with (_, _) => _ end) => destruct x
  | |- keeps _ (if ?b then _ else _) => destruct b
  end.

Lemma decode_frames_with_keeps (P : Heap -> Heap -> Prop)
    `{!Reflexive P} `{!Transitive P}
    (array_argmax : list R -> result nat) (od : gmap string (value R)) :
  keeps P (decode_frames_with array_argmax od).
Proof. unfold decode_frames_with. repeat keeps_step. Qed.

Lemma make_output_human_readable_keeps (P : Heap -> Heap -> Prop)
    `{!Reflexive P} `{!Transitive P} (od : gmap string (value R)) :
  keeps P (make_output_human_readable od).
Proof.
  unfold make_output_human_readable, super_make_output_human_readable.
  repeat keeps_step. apply decode_frames_with_keeps; assumption.
Qed.

Lemma update_span_metric_keeps (metadata : list Metadata)
    (od : gmap string (value R)) :
  keeps same_resource (update_span_metric metadata od).
Proof.
  unfold update_span_metric.
  repeat (first [apply make_output_human_readable_keeps; try typeclasses eauto
                | keeps_step]).
Qed.

Lemma forward_keeps (tokens : TextFieldTensors)
    (verb_indicator frame_indicator : list (list Z)) (metadata : list Metadata)
    (tags frame_tags : option (list (list Z))) :
  keeps same_resource
    (forward tokens verb_indicator frame_indicator metadata tags frame_tags).
Proof.
  unfold forward.
  repeat (first [apply update_span_metric_keeps | keeps_step]).
  destruct tags; repeat (first [apply update_span_metric_keeps | keeps_step]).
Qed.

Lemma forward_without_tags_keeps (tokens : TextFieldTensors)
    (verb_indicator frame_indicator : list (list Z)) (metadata : list Metadata)
    (frame_tags : option (list (list Z))) :
  keeps eq (forward tokens verb_indicator frame_indicator metadata None frame_tags).
Proof. unfold forward. repeat keeps_step. Qed.

Lemma get_metrics_keeps (reset : bool) : keeps same_resource (get_metrics reset).
Proof. unfold get_metrics. repeat keeps_step. Qed.

Lemma run_call_same_resource (c : call) (h : Heap) :
  same_resource h (run_call c h).
Proof.
  destruct c; cbn [run_call].
  - apply forward_keeps.
  - apply (decode_frames_with_keeps same_resource).
  - apply (make_output_human_readable_keeps same_resource).
  - apply get_metrics_keeps.
Qed.

Lemma run_calls_same_resource (cs : list call) (h : Heap) :
  same_resource h (run_calls cs h).
Proof.
  unfold run_calls. revert h. induction cs as [|c cs IH]; intros h; cbn [fold_left].
  - reflexivity.
  - etransitivity; [apply run_call_same_resource | apply IH].
Qed.

Lemma init_opens_once (package_root : string) (vocab : Vocabulary)
    (bert : BertArg) (p : R) (initializer : string -> nat -> nat -> R -> R)
    (label_smoothing : option R) (ignore : bool) (srl_eval_path : option string)
    (kwargs : ModelKwargs) (w w' : World) (m : Model) :
  __init__ package_root vocab bert p initializer label_smoothing
    ignore srl_eval_path kwargs w = (Ok m, w') ->
  files w' = files w ∧
  opened w' = opened w ++ [LEMMA_FRAME_PATH package_root] ∧
  fst (read_dictionary (LEMMA_FRAME_PATH package_root) w) = Ok (lemm_frame_dict m).
Proof.
  unfold __init__. intros Hrun.
  apply SE_bind_Ok in Hrun as (u & w0 & Hbase & Hrun).
  apply lift_Ok in Hbase as [_ ->].
  apply SE_bind_Ok in Hrun as (d & w1 & Hread & Hrun).
  apply SE_bind_Ok in Hrun as (e & w2 & Hbert & Hrun).
  apply lift_Ok in Hbert as [_ ->].
  apply SE_bind_Ok in Hrun as (p' & w3 & Hdropout & Hrun).
  apply lift_Ok in Hdropout as [_ ->].
  injection Hrun as <- <-.
  rewrite Hread. rewrite read_dictionary_unfold in Hread.
  injection Hread as _ <-. auto.
Qed.

End Frame.

(** ** What [forward] returns *)

Section Forward.
Context {R : Type} {SR : Scalar R} {FW : Framework R}.

(** Inverting one bind of a computation that returned: [a] names the
    value of the first computation, [Ha] what is known of it. *)
Tactic Notation "bind_inv" hyp(Hrun) "as" simple_intropattern(a) ident(Ha) :=
  let s := fresh "s" in
  apply SE_bind_Ok in Hrun as (a & s & Ha & Hrun);
  lazymatch type of Ha with
  | get_self _ = _ => unfold get_self in Ha; injection Ha as <- <-
  | set_self _ _ = _ => unfold set_self in Ha; injection Ha as <- <-
  | lift _ _ = _ => apply lift_Ok in Ha as [Ha ->]
  | _ => idtac
  end.

Lemma decode_frames_with_Ok (array_argmax : list R -> result nat)
    (od od' : gmap string (value R)) (h h' : Heap) :
  decode_frames_with array_argmax od h = (Ok od', h') ->
  ∃ frame_tags, od' = <["frame_tags" := VStrings frame_tags]> od.
Proof.
  unfold decode_frames_with. intros Hrun.
  bind_inv Hrun as self0 Hself.
  bind_inv Hrun as fp Hfp.
  bind_inv Hrun as lemmas Hlemmas.
  bind_inv Hrun as ids Hids.
  bind_inv Hrun as predictions Hpredictions.
  bind_inv Hrun as frame_tags Hframe_tags.
  injection Hrun as <- <-. eauto.
Qed.

Lemma make_output_human_readable_Ok (od od' : gmap string (value R)) (h h' : Heap) :
  make_output_human_readable od h = (Ok od', h') ->
  ∃ wordpiece_tags word_tags frame_tags,
    od' = <["frame_tags" := VStrings frame_tags]>
            (<["tags" := VLists word_tags]>
               (<["wordpiece_tags" := VLists wordpiece_tags]> od)).
Proof.
  unfold make_output_human_readable, super_make_output_human_readable.
  intros Hrun.
  bind_inv Hrun as od1 Hsuper.
  bind_inv Hsuper as self0 Hself.
  bind_inv Hsuper as [wordpiece_tags word_tags] Hdecode.
  injection Hsuper as <- <-.
  apply decode_frames_with_Ok in Hrun as [frame_tags ->]. eauto.
Qed.

Lemma update_span_metric_Ok (metadata : list Metadata)
    (od od' : gmap string (value R)) (h h' : Heap) :
  update_span_metric metadata od h = (Ok od', h') ->
  ∀ k, ¬ decoding_key k -> od' !! k = od !! k.
Proof.
  unfold update_span_metric.
  intros Hrun k Hk. unfold decoding_key in Hk.
  bind_inv Hrun as od1 Hreadable.
  apply make_output_human_readable_Ok in Hreadable
    as (wordpiece_tags & word_tags & frame_tags & ->).
  bind_inv Hrun as [popped od2] Hpop.
  unfold pop_lists in Hpop.
  destruct (_ !! "tags") as [[]|] in Hpop; try discriminate Hpop.
  injection Hpop as <- <-.
  bind_inv Hrun as predicted Hpredicted.
  bind_inv Hrun as gold Hgold.
  bind_inv Hrun as self0 Hself.
  bind_inv Hrun as scorer Hscorer.
  bind_inv Hrun as scorer' Hcall.
  bind_inv Hrun as u Hset.
  injection Hrun as <- <-.
  assert ("tags" ≠ k) by (intros <-; apply Hk; auto).
  assert ("wordpiece_tags" ≠ k) by (intros <-; apply Hk; auto).
  assert ("frame_tags" ≠ k) by (intros <-; apply Hk; auto).
  rewrite lookup_delete_ne by assumption.
  rewrite !lookup_insert_ne by assumption. reflexivity.
Qed.

Lemma metadata_columns_Ok (metadata : list Metadata) cols :
  metadata_columns metadata = Ok cols ->
  metadata ≠ [] ∧
  cols = (map words metadata, map verb metadata, map offsets metadata).
Proof.
  unfold metadata_columns. destruct metadata; [discriminate|].
  intros [= <-]. split; [discriminate | reflexivity].
Qed.

(** Everything a returning [forward] went through. *)
Lemma forward_Ok (tokens : TextFieldTensors)
    (verb_indicator frame_indicator : list (list Z)) (metadata : list Metadata)
    (tags frame_tags : option (list (list Z)))
    (h h' : Heap) (od : gmap string (value R)) :
  forward tokens verb_indicator frame_indicator metadata tags frame_tags h
  = (Ok od, h') ->
  ∃ mask input_ids embeddings pooled frame_embeddings logits frame_logits
    rows class_probabilities,
    get_text_field_mask tokens = Ok mask ∧
    get_token_ids_from_text_field_tensors tokens = Ok input_ids ∧
    encoder_forward (bert_model (self h)) input_ids verb_indicator mask
    = Ok (embeddings, pooled) ∧
    let x := Tensor.dropout3 (training (self h))
               (dropout_factor (embedding_dropout (self h))) embeddings in
    Tensor.mask_select x frame_indicator = Ok frame_embeddings ∧
    Tensor.linear3 (tag_projection_layer (self h)) x = Ok logits ∧
    Tensor.linear2 (frame_projection_layer (self h)) frame_embeddings
    = Ok frame_logits ∧
    Tensor.view_rows (num_classes (self h)) logits = Ok rows ∧
    Tensor.view3 (length x) (Tensor.size1 x) (num_classes (self h))
      (map Tensor.softmax rows) = Ok class_probabilities ∧
    metadata ≠ [] ∧
    let base := base_output mask logits class_probabilities frame_logits metadata in
    match tags with
    | None => od = base
    | Some gold =>
        ∃ role_loss frame_loss gold_frames filtered od1,
          sequence_cross_entropy_with_logits logits gold mask
            (_label_smoothing (self h)) = Ok role_loss ∧
          frame_tags = Some gold_frames ∧
          Tensor.mask_select gold_frames frame_indicator = Ok filtered ∧
          CrossEntropyLoss frame_logits filtered = Ok frame_loss ∧
          (∀ k, ¬ decoding_key k -> od1 !! k = base !! k) ∧
          od = <["loss" := VScalar (s_div (s_add role_loss frame_loss) (s_of_Z 2))]>
                 (<["role_loss" := VScalar role_loss]>
                    (<["frame_loss" := VScalar frame_loss]> od1))
    end.
Proof.
  unfold forward. intros Hrun.
  bind_inv Hrun as self0 Hself.
  bind_inv Hrun as mask Hmask.
  bind_inv Hrun as input_ids Hids.
  bind_inv Hrun as [embeddings pooled] Hencoder.
  bind_inv Hrun as frame_embeddings Hselect.
  bind_inv Hrun as logits Hlogits.
  bind_inv Hrun as frame_logits Hframe_logits.
  bind_inv Hrun as rows Hrows.
  bind_inv Hrun as class_probabilities Hprobabilities.
  bind_inv Hrun as [[ws vs] os] Hcolumns.
  apply metadata_columns_Ok in Hcolumns as [Hmetadata [= -> -> ->]].
  exists mask, input_ids, embeddings, pooled, frame_embeddings, logits,
    frame_logits, rows, class_probabilities.
  do 9 (split; [assumption|]). cbn zeta.
  destruct tags as [gold|]; [|injection Hrun as <- <-; reflexivity].
  bind_inv Hrun as role_loss Hrole.
  bind_inv Hrun as filtered Hfiltered.
  destruct frame_tags as [gold_frames|]; [|discriminate Hfiltered].
  bind_inv Hrun as frame_loss Hframe.
  bind_inv Hrun as od1 Hspan.
  bind_inv Hrun as self1 Hself1.
  bind_inv Hrun as f1 Hf1.
  bind_inv Hrun as u Hset.
  injection Hrun as <- <-.
  exists role_loss, frame_loss, gold_frames, filtered, od1.
  do 4 (split; [first [assumption | reflexivity]|]).
  split; [|reflexivity].
  destruct (_ && _) in Hspan.
  - intros k Hk. exact (update_span_metric_Ok _ _ _ _ _ Hspan k Hk).
  - injection Hspan as <- <-. reflexivity.
Qed.

(** A call with gold tags goes on from the dictionary the call without
    gold tags returns: what is left to run are the two losses, the
    span-metric branch and the frame metric. *)
Lemma forward_with_tags_run (tokens : TextFieldTensors)
    (verb_indicator frame_indicator : list (list Z)) (metadata : list Metadata)
    (frame_tags0 : option (list (list Z)))
    (h h0 : Heap) (od0 : gmap string (value R)) :
  forward tokens verb_indicator frame_indicator metadata None frame_tags0 h
  = (Ok od0, h0) ->
  ∃ mask logits class_probabilities frame_logits,
    h0 = h ∧
    od0 = base_output mask logits class_probabilities frame_logits metadata ∧
    ∀ gold frame_tags,
      forward tokens verb_indicator frame_indicator metadata (Some gold) frame_tags h =
      (role_loss ←
         lift (sequence_cross_entropy_with_logits logits gold mask
                 (_label_smoothing (self h)));
       frame_tags_filtered ←
         lift (match frame_tags with
               | Some frame_tags => Tensor.mask_select frame_tags frame_indicator
               | None => Raise TypeError
               end);
       frame_loss ← lift (CrossEntropyLoss frame_logits frame_tags_filtered);
       output_dict ←
         (if negb (ignore_span_metric (self h))
             && bool_decide (is_Some (span_metric (self h)))
             && negb (training (self h))
          then update_span_metric metadata od0
          else mret od0);
       self ← get_self;
       f1 ← lift (fbeta_call frame_logits frame_tags_filtered (f1_frame_metric self));
       set_self (set_f1_frame_metric f1);;
       mret (<["loss" := VScalar (s_div (s_add role_loss frame_loss) (s_of_Z 2))]>
               (<["role_loss" := VScalar role_loss]>
                  (<["frame_loss" := VScalar frame_loss]> output_dict)))) h.
Proof.
  intros Hrun.
  assert (h0 = h) as ->.
  { pose proof (forward_without_tags_keeps tokens verb_indicator frame_indicator
                  metadata frame_tags0 h) as Hkeep.
    rewrite Hrun in Hkeep. symmetry. exact Hkeep. }
  apply forward_Ok in Hrun
    as (mask & ids & emb & pooled & fe & logits & fl & rows & cp
        & Hmask & Hids & Hemb & Hrest).
  cbn zeta in Hrest.
  destruct Hrest as (Hfe & Hlogits & Hfl & Hrows & Hcp & Hmetadata & ->).
  exists mask, logits, cp, fl. split; [reflexivity|]. split; [reflexivity|].
  intros gold frame_tags.
  unfold forward. rewrite get_self_step.
  rewrite (lift_step _ _ _ _ Hmask), (lift_step _ _ _ _ Hids).
  rewrite (lift_step _ _ _ _ Hemb). cbn zeta.
  rewrite (lift_step _ _ _ _ Hfe), (lift_step _ _ _ _ Hlogits).
  rewrite (lift_step _ _ _ _ Hfl), (lift_step _ _ _ _ Hrows).
  rewrite (lift_step _ _ _ _ Hcp).
  assert (Hcols : metadata_columns metadata
                  = Ok (map words metadata, map verb metadata, map offsets metadata)).
  { unfold metadata_columns. destruct metadata; [contradiction | reflexivity]. }
  rewrite (lift_step _ _ _ _ Hcols). reflexivity.
Qed.

Lemma base_output_lookup mask logits class_probabilities frame_logits metadata :
  let base := base_output mask logits class_probabilities frame_logits metadata in
  base !! "logits" = Some (VTensor3 logits) ∧
  base !! "frame_logits" = Some (VTensor2 frame_logits) ∧
  base !! "class_probabilities" = Some (VTensor3 class_probabilities) ∧
  base !! "frame_probabilities" = Some (VTensor2 (map Tensor.softmax frame_logits)) ∧
  base !! "mask" = Some (VMask mask) ∧
  base !! "words" = Some (VLists (map words metadata)) ∧
  base !! "lemmas" = Some (VStrings (concat (map lemmas metadata))) ∧
  base !! "verb" = Some (VStrings (map verb metadata)) ∧
  base !! "wordpiece_offsets" = Some (VOffsets (map offsets metadata)) ∧
  base !! "loss" = None ∧ base !! "role_loss" = None ∧ base !! "frame_loss" = None.
Proof.
  cbn zeta. unfold base_output.
  repeat split;
    repeat first [ rewrite lookup_insert_eq; reflexivity
                 | rewrite lookup_insert_ne by discriminate
                 | apply lookup_empty ].
Qed.

Lemma not_decoding_key (k : string) :
  k ≠ "tags" -> k ≠ "wordpiece_tags" -> k ≠ "frame_tags" -> ¬ decoding_key k.
Proof. unfold decoding_key. tauto. Qed.

(** The entries of the dictionary built before the gold tags are looked
    at are in every dictionary [forward] returns. *)
Lemma forward_keeps_base (tokens : TextFieldTensors)
    (verb_indicator frame_indicator : list (list Z)) (metadata : list Metadata)
    (tags frame_tags : option (list (list Z)))
    (h h' : Heap) (od : gmap string (value R)) :
  forward tokens verb_indicator frame_indicator metadata tags frame_tags h
  = (Ok od, h') ->
  ∃ mask logits class_probabilities frame_logits,
    ∀ k, ¬ decoding_key k -> k ≠ "loss" -> k ≠ "role_loss" -> k ≠ "frame_loss" ->
         od !! k =
         base_output mask logits class_probabilities frame_logits metadata !! k.
Proof.
  intros Hrun.
  apply forward_Ok in Hrun
    as (mask & ids & emb & pooled & fe & logits & fl & rows & cp & _ & _ & _ & Hrest).
  cbn zeta in Hrest. destruct Hrest as (_ & _ & _ & _ & _ & _ & Hod).
  exists mask, logits, cp, fl. intros k Hk Hloss Hrole Hframe.
  destruct tags as [gold|]; [|subst od; reflexivity].
  destruct Hod as (rl & fl' & gf & ftf & od1 & _ & _ & _ & _ & Hod1 & ->).
  rewrite !lookup_insert_ne by congruence. auto.
Qed.

(** C2: when gold tags are given, the dictionary [forward] returns holds
    "role_loss" (the sequence cross-entropy of the stored logits against
    the gold tags), "frame_loss" (the cross-entropy of the stored frame
    logits against the gold frames at the frame positions) and "loss",
    which is [(role_loss + frame_loss) / 2]. *)
Theorem forward_joint_loss (tokens : TextFieldTensors)
    (verb_indicator frame_indicator : list (list Z)) (metadata : list Metadata)
    (gold : list (list Z)) (frame_tags : option (list (list Z)))
    (h h' : Heap) (od : gmap string (value R)) :
  forward tokens verb_indicator frame_indicator metadata (Some gold) frame_tags h
  = (Ok od, h') ->
  ∃ role_loss frame_loss logits mask frame_logits gold_frames filtered,
    od !! "role_loss" = Some (VScalar role_loss) ∧
    od !! "frame_loss" = Some (VScalar frame_loss) ∧
    od !! "loss" = Some (VScalar (s_div (s_add role_loss frame_loss) (s_of_Z 2))) ∧
    od !! "logits" = Some (VTensor3 logits) ∧
    od !! "mask" = Some (VMask mask) ∧
    od !! "frame_logits" = Some (VTensor2 frame_logits) ∧
    sequence_cross_entropy_with_logits logits gold mask (_label_smoothing (self h))
    = Ok role_loss ∧
    frame_tags = Some gold_frames ∧
    Tensor.mask_select gold_frames frame_indicator = Ok filtered ∧
    CrossEntropyLoss frame_logits filtered = Ok frame_loss.
Proof.
  intros Hrun.
  apply forward_Ok in Hrun
    as (mask & ids & emb & pooled & fe & logits & fl & rows & cp & _ & _ & _ & Hrest).
  cbn zeta in Hrest. destruct Hrest as (_ & _ & _ & _ & _ & _ & Hod).
  destruct Hod as (role_loss & frame_loss & gold_frames & filtered & od1
                   & Hrole & -> & Hfiltered & Hframe & Hod1 & ->).
  pose proof (base_output_lookup mask logits cp fl metadata) as Hbase.
  cbn zeta in Hbase.
  destruct Hbase as (Hlogits & Hfl & _ & _ & Hmask & _).
  exists role_loss, frame_loss, logits, mask, fl, gold_frames, filtered.
  split; [rewrite lookup_insert_ne by discriminate; apply lookup_insert_eq|].
  split; [rewrite !lookup_insert_ne by discriminate; apply lookup_insert_eq|].
  split; [apply lookup_insert_eq|].
  repeat split; try assumption;
    rewrite !lookup_insert_ne by discriminate;
    rewrite Hod1 by (apply not_decoding_key; discriminate); assumption.
Qed.

(** C9: when no gold tags are given, [forward] leaves the model as it was
    whether it returns or raises (in particular the accumulators of the
    span metric and of the frame F1 metric), and the dictionary it returns
    has none of the keys "loss", "role_loss" and "frame_loss". *)
Theorem forward_without_tags (tokens : TextFieldTensors)
    (verb_indicator frame_indicator : list (list Z)) (metadata : list Metadata)
    (frame_tags : option (list (list Z)))
    (h h' : Heap) (r : result (gmap string (value R))) :
  forward tokens verb_indicator frame_indicator metadata None frame_tags h
  = (r, h') ->
  h' = h ∧
  span_metric (self h') = span_metric (self h) ∧
  f1_frame_metric (self h') = f1_frame_metric (self h) ∧
  ∀ od, r = Ok od ->
        od !! "loss" = None ∧ od !! "role_loss" = None ∧ od !! "frame_loss" = None.
Proof.
  intros Hrun.
  assert (h' = h) as ->.
  { pose proof (forward_without_tags_keeps tokens verb_indicator frame_indicator
                  metadata frame_tags h) as Hkeep.
    rewrite Hrun in Hkeep. symmetry. exact Hkeep. }
  repeat split; intros; subst r.
  all: apply forward_Ok in Hrun
    as (mask & ids & emb & pooled & fe & logits & fl & rows & cp & _ & _ & _ & Hrest);
    cbn zeta in Hrest; destruct Hrest as (_ & _ & _ & _ & _ & _ & ->);
    apply base_output_lookup.
Qed.

(** C10: in the dictionary [forward] returns, "words", "verb" and
    "wordpiece_offsets" hold one entry per batch example, in batch order,
    and "lemmas" holds the concatenation of the examples' lemma lists, so
    its length is the total number of lemmas in the batch. *)
Theorem forward_metadata_entries (tokens : TextFieldTensors)
    (verb_indicator frame_indicator : list (list Z)) (metadata : list Metadata)
    (tags frame_tags : option (list (list Z)))
    (h h' : Heap) (od : gmap string (value R)) :
  forward tokens verb_indicator frame_indicator metadata tags frame_tags h
  = (Ok od, h') ->
  ∃ ws vs os ls,
    od !! "words" = Some (VLists ws) ∧ ws = map words metadata ∧
    od !! "verb" = Some (VStrings vs) ∧ vs = map verb metadata ∧
    od !! "wordpiece_offsets" = Some (VOffsets os) ∧ os = map offsets metadata ∧
    od !! "lemmas" = Some (VStrings ls) ∧ ls = concat (map lemmas metadata) ∧
    length ws = length metadata ∧ length vs = length metadata ∧
    length os = length metadata ∧
    length ls = sum_list (map (fun x => length (lemmas x)) metadata).
Proof.
  intros Hrun.
  apply forward_keeps_base in Hrun as (mask & logits & cp & fl & Hod).
  pose proof (base_output_lookup mask logits cp fl metadata) as Hbase.
  cbn zeta in Hbase.
  destruct Hbase as (_ & _ & _ & _ & _ & Hwords & Hlemmas & Hverb & Hoffsets & _).
  exists (map words metadata), (map verb metadata), (map offsets metadata),
    (concat (map lemmas metadata)).
  repeat split;
    try (rewrite Hod by (try apply not_decoding_key; discriminate); assumption).
  - apply length_map.
  - apply length_map.
  - apply length_map.
  - clear. induction metadata as [|x xs IH]; simpl; [reflexivity|].
    rewrite length_app, IH. reflexivity.
Qed.

End Forward.

(** ** Shapes *)

Section Shapes.
Context {R : Type} {SR : Scalar R}.

Lemma chunks_concat {A} (c : nat) (ls : list (list A)) :
  Forall (fun v => length v = c) ls ->
  Tensor.chunks (length ls) c (concat ls) = ls.
Proof.
  induction 1 as [|v ls Hv _ IH]; simpl; [reflexivity|].
  rewrite (take_app_length' v _ c), (drop_app_length' v _ c) by auto.
  rewrite IH. reflexivity.
Qed.

Lemma length_concat_uniform {A} (c : nat) (ls : list (list A)) :
  Forall (fun v => length v = c) ls -> length (concat ls) = length ls * c.
Proof.
  induction 1 as [|v ls Hv _ IH]; simpl; [reflexivity|].
  rewrite length_app, IH, Hv. reflexivity.
Qed.

Lemma concat_concat_map {A} (t : list (list (list A))) :
  concat (concat t) = concat (map (@concat _) t).
Proof.
  induction t as [|row t IH]; simpl; [reflexivity|].
  rewrite concat_app, IH. reflexivity.
Qed.

Lemma shape3_rows {A} (b s c : nat) (t : list (list (list A))) :
  Tensor.shape3 b s c t ->
  length (concat t) = b * s ∧ Forall (fun v => length v = c) (concat t).
Proof.
  intros [<- Hrows]. induction Hrows as [|row t [Hlen Hrow] _ [IH1 IH2]]; simpl.
  - split; [reflexivity | constructor].
  - split; [rewrite length_app, IH1, Hlen; reflexivity|].
    apply Forall_app. split; assumption.
Qed.

Lemma shape3_size1 {A} (b s c : nat) (t : list (list (list A))) :
  Tensor.shape3 b s c t -> t ≠ [] -> Tensor.size1 t = s.
Proof.
  intros [_ Hrows] Hne. destruct Hrows as [|row t [Hlen _] _]; [contradiction|].
  exact Hlen.
Qed.

Lemma softmax_length (v : list R) : length (Tensor.softmax v) = length v.
Proof. unfold Tensor.softmax. rewrite !length_map. reflexivity. Qed.

Lemma shape3_map {A B} (f : list A -> list B) (b s c c' : nat)
    (t : list (list (list A))) :
  (∀ v, length v = c -> length (f v) = c') ->
  Tensor.shape3 b s c t -> Tensor.shape3 b s c' (map (map f) t).
Proof.
  intros Hf [Hb Hrows]. split; [rewrite length_map; exact Hb|].
  apply Forall_map. eapply Forall_impl; [exact Hrows|].
  intros row [Hs Hrow]. split; [rewrite length_map; exact Hs|].
  apply Forall_map. eapply Forall_impl; [exact Hrow|]. exact Hf.
Qed.

(** [view(-1, c)] of a [(b, s, c)] tensor lists its rows. *)
Lemma view_rows_shape3 (b s c : nat) (t : list (list (list R))) (rows : list (list R)) :
  Tensor.shape3 b s c t ->
  Tensor.view_rows c t = Ok rows -> rows = concat t.
Proof.
  intros Ht. destruct (shape3_rows _ _ _ _ Ht) as [Hlen Hrows].
  unfold Tensor.view_rows.
  destruct (Nat.eqb_spec c 0) as [->|Hc]; [discriminate|].
  rewrite (length_concat_uniform c _ Hrows).
  rewrite Nat.Div0.mod_mul, Nat.div_mul by exact Hc. simpl.
  intros [= <-]. apply chunks_concat. exact Hrows.
Qed.

(** [view([b, s, c])] puts the rows of a [(b, s, c)] tensor back. *)
Lemma view3_concat (b s c : nat) (t : list (list (list R))) cp :
  Tensor.shape3 b s c t ->
  Tensor.view3 b s c (concat t) = Ok cp -> cp = t.
Proof.
  intros Ht. unfold Tensor.view3.
  destruct (Nat.eqb _ _); [|discriminate]. intros [= <-].
  destruct Ht as [<- Hrows].
  rewrite concat_concat_map.
  replace (length t) with (length (map (@concat _) t)) by apply length_map.
  rewrite chunks_concat.
  - rewrite map_map. rewrite <- (map_id t) at 2.
    apply map_ext_Forall. eapply Forall_impl; [exact Hrows|].
    intros row [<- Hrow]. apply chunks_concat. exact Hrow.
  - apply Forall_map. eapply Forall_impl; [exact Hrows|].
    intros row [<- Hrow]. simpl. apply length_concat_uniform. exact Hrow.
Qed.

Lemma linear_vec_length (L : Tensor.Linear R) (x y : list R) :
  Tensor.Linear_wf L ->
  Tensor.linear_vec L x = Ok y -> length y = Tensor.out_features L.
Proof.
  intros [Hw Hb]. unfold Tensor.linear_vec.
  destruct (Nat.eqb _ _); [|discriminate]. intros [= <-].
  rewrite length_zip_with, Hw, Hb. apply Nat.min_id.
Qed.

Lemma linear2_shape (L : Tensor.Linear R) (t t' : list (list R)) :
  Tensor.Linear_wf L ->
  Tensor.linear2 L t = Ok t' ->
  Tensor.shape2 (length t) (Tensor.out_features L) t'.
Proof.
  intros HL Ht. split; [exact (for_each_length _ _ _ Ht)|].
  apply for_each_Forall2 in Ht.
  induction Ht as [|x y t t' Hxy _ IH]; constructor; [|exact IH].
  exact (linear_vec_length L x y HL Hxy).
Qed.

Lemma linear3_shape (L : Tensor.Linear R) (b s c : nat)
    (t t' : list (list (list R))) :
  Tensor.Linear_wf L ->
  Tensor.shape3 b s c t ->
  Tensor.linear3 L t = Ok t' ->
  Tensor.shape3 b s (Tensor.out_features L) t'.
Proof.
  intros HL [<- Hrows] Ht. split; [exact (for_each_length _ _ _ Ht)|].
  apply for_each_Forall2 in Ht.
  induction Ht as [|x y t t' Hxy _ IH]; [constructor|].
  inversion Hrows as [|? ? [Hs _] Hrows']; subst.
  constructor; [|exact (IH Hrows')].
  pose proof (linear2_shape L x y HL Hxy) as [Hlen Hy].
  split; [exact Hlen | exact Hy].
Qed.

Lemma imap_Forall {A B} (P : A -> Prop) (Q : B -> Prop) (f : nat -> A -> B)
    (l : list A) :
  (∀ i x, P x -> Q (f i x)) -> Forall P l -> Forall Q (imap f l).
Proof.
  intros Hf Hl. revert f Hf. induction Hl as [|x l Hx _ IH]; intros f Hf; simpl.
  - constructor.
  - constructor; [apply Hf; exact Hx|]. apply IH. intros i y. apply Hf.
Qed.

Lemma dropout3_shape (training : bool) (factor : nat -> nat -> nat -> R)
    (b s c : nat) (t : list (list (list R))) :
  Tensor.shape3 b s c t -> Tensor.shape3 b s c (Tensor.dropout3 training factor t).
Proof.
  unfold Tensor.dropout3. destruct training; [|auto].
  intros [Hb Hrows]. split; [rewrite length_imap; exact Hb|].
  eapply imap_Forall; [|exact Hrows].
  intros i row [Hs Hrow]. split; [rewrite length_imap; exact Hs|].
  eapply imap_Forall; [|exact Hrow].
  intros j v Hv. rewrite length_imap. exact Hv.
Qed.

Lemma tabulate_length {A} (n : nat) (f : nat -> A) :
  length (Tensor.tabulate n f) = n.
Proof. unfold Tensor.tabulate. rewrite length_map, length_seq. reflexivity. Qed.

Lemma new_Linear_wf (n_in n_out : nat) (w : nat -> nat -> R) (b : nat -> R) :
  Tensor.Linear_wf (Tensor.new_Linear n_in n_out w b).
Proof. split; simpl; apply tabulate_length. Qed.

End Shapes.

(** ** The two prediction heads *)

Section Heads.
Context {R : Type} {SR : Scalar R} {FW : Framework R}.

Lemma initialize_linear_wf (init : string -> nat -> nat -> R -> R)
    (name : string) (L : Tensor.Linear R) :
  Tensor.Linear_wf L -> Tensor.Linear_wf (initialize_linear init name L).
Proof.
  intros [Hw Hb]. split; simpl.
  - unfold Tensor.fill2. rewrite length_imap. exact Hw.
  - rewrite length_imap. exact Hb.
Qed.

(** The constructor builds well-formed projection layers whose output
    sizes are the sizes of the two label vocabularies. *)
Lemma init_Model_wf (package_root : string) (vocab : Vocabulary)
    (bert : BertArg) (p : R) (initializer : string -> nat -> nat -> R -> R)
    (label_smoothing : option R) (ignore : bool) (srl_eval_path : option string)
    (kwargs : ModelKwargs) (w w' : World) (m : Model) :
  __init__ package_root vocab bert p initializer label_smoothing ignore
    srl_eval_path kwargs w = (Ok m, w') ->
  Model_wf m.
Proof.
  unfold __init__. intros Hrun.
  apply SE_bind_Ok in Hrun as (u & w0 & _ & Hrun).
  apply SE_bind_Ok in Hrun as (d & w1 & _ & Hrun).
  apply SE_bind_Ok in Hrun as (e & w2 & _ & Hrun).
  apply SE_bind_Ok in Hrun as (p' & w3 & _ & Hrun).
  injection Hrun as <- _.
  repeat split; simpl; try reflexivity;
    try (symmetry; apply initialize_encoder_hidden_size);
    try (unfold Tensor.fill2; rewrite length_imap); apply tabulate_length.
Qed.

Lemma shape3_at_sizes {A B} (b s c c' : nat) (x : list (list (list A)))
    (t : list (list (list B))) :
  Tensor.shape3 b s c x -> Tensor.shape3 b s c' t ->
  Tensor.shape3 (length x) (Tensor.size1 x) c' t.
Proof.
  intros Hx Ht. destruct x as [|row x].
  - destruct Hx as [<- _]. destruct Ht as [Hlen _].
    destruct t; [|discriminate]. split; [reflexivity | constructor].
  - rewrite (shape3_size1 _ _ _ _ Hx) by discriminate.
    destruct Hx as [-> _]. exact Ht.
Qed.

(** C6: the dictionary [forward] returns holds both heads. "logits" has
    the shape (batch size, number of tokens, size of the tag vocabulary),
    "class_probabilities" is the softmax of every token's logits,
    "frame_logits" comes with its row-wise softmax
    "frame_probabilities", and "mask", "words", "lemmas", "verb" and
    "wordpiece_offsets" are present. The model is one the constructor
    built (well-formed layers) over an encoder that yields one
    hidden vector per token. *)
Theorem forward_heads (tokens : TextFieldTensors)
    (verb_indicator frame_indicator : list (list Z)) (metadata : list Metadata)
    (tags frame_tags : option (list (list Z)))
    (h h' : Heap) (od : gmap string (value R)) :
  Model_wf (self h) ->
  Tokens_contract tokens ->
  Encoder_contract (bert_model (self h)) ->
  forward tokens verb_indicator frame_indicator metadata tags frame_tags h
  = (Ok od, h') ->
  ∃ input_ids mask logits frame_logits,
    get_token_ids_from_text_field_tensors tokens = Ok input_ids ∧
    get_text_field_mask tokens = Ok mask ∧
    od !! "logits" = Some (VTensor3 logits) ∧
    Tensor.shape3 (length input_ids) (Tensor.size1 input_ids)
      (get_vocab_size (vocab (self h)) "labels") logits ∧
    od !! "class_probabilities"
    = Some (VTensor3 (map (map Tensor.softmax) logits)) ∧
    od !! "frame_logits" = Some (VTensor2 frame_logits) ∧
    Forall (fun v => length v = get_vocab_size (vocab (self h)) "frames_labels")
      frame_logits ∧
    od !! "frame_probabilities"
    = Some (VTensor2 (map Tensor.softmax frame_logits)) ∧
    od !! "mask" = Some (VMask mask) ∧
    is_Some (od !! "words") ∧ is_Some (od !! "lemmas") ∧
    is_Some (od !! "verb") ∧ is_Some (od !! "wordpiece_offsets").
Proof.
  intros (Htag & Hframe & Htag_out & Hframe_out & Hnc & Hfnc & _ & _)
    Htokens Hencoder Hrun.
  pose proof (forward_keeps_base _ _ _ _ _ _ _ _ _ Hrun) as Hbase.
  apply forward_Ok in Hrun
    as (mask & ids & emb & pooled & fe & logits & fl & rows & cp
        & Hmask & Hids & Hemb & Hrest).
  cbn zeta in Hrest.
  destruct Hrest as (Hfe & Hlogits & Hfl & Hrows & Hcp & _ & Hod).
  (* shapes *)
  pose proof (Hencoder _ _ _ _ _ (Htokens _ Hids) Hemb) as Hshape.
  apply (dropout3_shape (training (self h))
           (dropout_factor (embedding_dropout (self h)))) in Hshape.
  pose proof (linear3_shape _ _ _ _ _ _ Htag Hshape Hlogits) as Hlshape.
  rewrite Htag_out in Hlshape.
  pose proof (view_rows_shape3 _ _ _ _ _ Hlshape Hrows) as ->.
  rewrite concat_map in Hcp.
  assert (cp = map (map Tensor.softmax) logits) as ->.
  { eapply view3_concat; [|exact Hcp].
    eapply shape3_at_sizes; [exact Hshape|].
    eapply shape3_map; [|exact Hlshape].
    intros v Hv. rewrite softmax_length. exact Hv. }
  pose proof (linear2_shape _ _ _ Hframe Hfl) as [_ Hflshape].
  rewrite Hframe_out, Hfnc in Hflshape. rewrite Hnc in Hlshape.
  (* the dictionary *)
  assert (Hlookup : ∀ k, ¬ decoding_key k -> k ≠ "loss" -> k ≠ "role_loss" ->
              k ≠ "frame_loss" ->
              od !! k = base_output mask logits (map (map Tensor.softmax) logits)
                          fl metadata !! k).
  { intros k Hk H1 H2 H3.
    destruct tags as [gold|]; [|subst od; reflexivity].
    destruct Hod as (rl & fl' & gf & ftf & od1 & _ & _ & _ & _ & Hod1 & ->).
    rewrite !lookup_insert_ne by congruence. auto. }
  pose proof (base_output_lookup mask logits (map (map Tensor.softmax) logits)
                fl metadata) as Hb.
  cbn zeta in Hb.
  destruct Hb as (B1 & B2 & B3 & B4 & B5 & B6 & B7 & B8 & B9 & _).
  exists ids, mask, logits, fl.
  repeat split; try assumption; try apply Hlshape;
    try (rewrite Hlookup by (try apply not_decoding_key; discriminate);
         first [assumption | eauto]).
Qed.

(** *** [forward] returns

    Under the contracts of the framework the tensor steps of [forward]
    cannot fail: it returns as soon as the framework's operations do, the
    frame indicator has the shape of the token ids, the tag vocabulary is
    not empty and the batch is not empty. *)

Lemma select_row_total {A} (row : list A) (ind : list Z) :
  length ind = length row -> ∃ out, Tensor.select_row row ind = Ok out ∧
                                    Forall (fun x => x ∈ row) out.
Proof.
  revert ind. induction row as [|x row IH]; intros [|i ind] Hlen;
    try discriminate Hlen; simpl.
  - exists []. split; [reflexivity | constructor].
  - injection Hlen as Hlen. destruct (IH ind Hlen) as (out & -> & Hout). simpl.
    assert (Hout' : Forall (fun y => y ∈ x :: row) out).
    { eapply Forall_impl; [exact Hout|]. intros y Hy. right. exact Hy. }
    destruct (Z.eqb i 1); eexists; (split; [reflexivity|]); [|exact Hout'].
    constructor; [left | exact Hout'].
Qed.

Lemma mask_select_total {A} (rows : list (list A)) (ind : list (list Z)) :
  Forall2 (fun row i => length i = length row) rows ind ->
  ∃ out, Tensor.mask_select rows ind = Ok out ∧
         Forall (fun x => ∃ row, row ∈ rows ∧ x ∈ row) out.
Proof.
  induction 1 as [|row i rows ind Hlen _ (rest & IH & Hrest)]; simpl.
  - exists []. split; [reflexivity | constructor].
  - destruct (select_row_total row i Hlen) as (here & -> & Hhere). simpl.
    rewrite IH. simpl. eexists. split; [reflexivity|].
    apply Forall_app. split.
    + eapply Forall_impl; [exact Hhere|]. intros x Hx. exists row. split; [left | exact Hx].
    + eapply Forall_impl; [exact Hrest|]. intros x (r & Hr & Hx).
      exists r. split; [right; exact Hr | exact Hx].
Qed.

Lemma linear_vec_total (L : Tensor.Linear R) (v : list R) :
  length v = Tensor.in_features L -> ∃ y, Tensor.linear_vec L v = Ok y.
Proof.
  intros Hv. unfold Tensor.linear_vec. rewrite Hv, Nat.eqb_refl. eauto.
Qed.

Lemma linear2_total (L : Tensor.Linear R) (t : list (list R)) :
  Forall (fun v => length v = Tensor.in_features L) t ->
  ∃ t', Tensor.linear2 L t = Ok t'.
Proof.
  unfold Tensor.linear2.
  induction 1 as [|v t Hv _ [t' IH]]; cbn [for_each]; [eauto|].
  destruct (linear_vec_total L v Hv) as [y ->]. rewrite IH. simpl. eauto.
Qed.

Lemma linear3_total (L : Tensor.Linear R) (b s : nat) (t : list (list (list R))) :
  Tensor.shape3 b s (Tensor.in_features L) t ->
  ∃ t', Tensor.linear3 L t = Ok t'.
Proof.
  unfold Tensor.linear3. intros [_ Hrows].
  induction Hrows as [|row t [_ Hrow] _ [t' IH]]; cbn [for_each]; [eauto|].
  destruct (linear2_total L row Hrow) as [row' ->]. rewrite IH. simpl. eauto.
Qed.

Lemma view_rows_total (b s c : nat) (t : list (list (list R))) :
  c ≠ 0 -> Tensor.shape3 b s c t -> Tensor.view_rows c t = Ok (concat t).
Proof.
  intros Hc Ht. destruct (shape3_rows _ _ _ _ Ht) as [_ Hrows].
  unfold Tensor.view_rows.
  destruct (Nat.eqb_spec c 0) as [->|_]; [contradiction|].
  rewrite (length_concat_uniform c _ Hrows).
  rewrite Nat.Div0.mod_mul, Nat.div_mul by exact Hc. simpl.
  rewrite chunks_concat by exact Hrows. reflexivity.
Qed.

Lemma view3_total (b s c : nat) (t : list (list (list R))) :
  Tensor.shape3 b s c t -> Tensor.view3 b s c (concat t) = Ok t.
Proof.
  intros Ht.
  destruct (Tensor.view3 b s c (concat t)) as [cp|e] eqn:Hview.
  - f_equal. exact (view3_concat _ _ _ _ _ Ht Hview).
  - unfold Tensor.view3 in Hview.
    destruct (shape3_rows _ _ _ _ Ht) as [Hlen Hrows].
    rewrite (length_concat_uniform c _ Hrows), Hlen, Nat.eqb_refl in Hview.
    discriminate Hview.
Qed.

Lemma rectangular_shape {A} (t : list (list A)) :
  rectangular t -> Tensor.shape2 (length t) (Tensor.size1 t) t.
Proof. intros Ht. split; [reflexivity | exact Ht]. Qed.

Lemma indicator_rows {A B} (s c : nat) (ids : list (list A))
    (x : list (list (list B))) (ind : list (list Z)) :
  Forall (fun row => length row = s) ids ->
  length x = length ids ->
  Forall (Tensor.shape2 s c) x ->
  Forall2 (fun row i => length i = length row) ids ind ->
  Forall2 (fun row i => length i = length row) x ind.
Proof.
  intros Hids Hlen Hx Hind. revert x Hlen Hx Hids.
  induction Hind as [|row i ids ind Hi _ IH]; intros x Hlen Hx Hids.
  - destruct x; [constructor | discriminate].
  - destruct x as [|r x]; [discriminate|].
    inversion Hx as [|? ? [Hr _] Hx']; subst.
    inversion Hids as [|? ? Hrow Hids']; subst.
    constructor; [congruence|].
    apply IH; [simpl in Hlen; congruence | exact Hx' | exact Hids'].
Qed.

(** The steps of [forward] up to the dictionary built before the gold
    tags are looked at all succeed. *)
Lemma forward_tensor_steps (tokens : TextFieldTensors)
    (verb_indicator frame_indicator : list (list Z)) (metadata : list Metadata)
    (frame_tags : option (list (list Z))) (h : Heap) mask input_ids embeddings pooled :
  Model_wf (self h) ->
  num_classes (self h) ≠ 0 ->
  Encoder_contract (bert_model (self h)) ->
  get_text_field_mask tokens = Ok mask ->
  get_token_ids_from_text_field_tensors tokens = Ok input_ids ->
  rectangular input_ids ->
  encoder_forward (bert_model (self h)) input_ids verb_indicator mask
  = Ok (embeddings, pooled) ->
  indicator_for input_ids frame_indicator ->
  metadata ≠ [] ->
  ∃ logits frame_logits,
    let output_dict :=
      base_output mask logits (map (map Tensor.softmax) logits) frame_logits metadata in
    ∀ tags,
      forward tokens verb_indicator frame_indicator metadata tags frame_tags h =
      match tags with
      | None => (Ok output_dict, h)
      | Some tags =>
          (role_loss ←
             lift (sequence_cross_entropy_with_logits logits tags mask
                     (_label_smoothing (self h)));
           frame_tags_filtered ←
             lift (match frame_tags with
                   | Some frame_tags => Tensor.mask_select frame_tags frame_indicator
                   | None => Raise TypeError
                   end);
           frame_loss ← lift (CrossEntropyLoss frame_logits frame_tags_filtered);
           output_dict ←
             (if negb (ignore_span_metric (self h))
                 && bool_decide (is_Some (span_metric (self h)))
                 && negb (training (self h))
              then update_span_metric metadata output_dict
              else mret output_dict);
           self ← get_self;
           f1 ← lift (fbeta_call frame_logits frame_tags_filtered (f1_frame_metric self));
           set_self (set_f1_frame_metric f1);;
           mret (<["loss" := VScalar (s_div (s_add role_loss frame_loss) (s_of_Z 2))]>
                   (<["role_loss" := VScalar role_loss]>
                      (<["frame_loss" := VScalar frame_loss]> output_dict)))) h
      end.
Proof.
  intros (Htag & Hframe & Htag_out & Hframe_out & Hnc & Hfnc & Htag_in & Hframe_in)
    Hclasses Hencoder Hmask Hids Hrect Hemb Hind Hmetadata.
  pose proof (Hencoder _ _ _ _ _ Hrect Hemb) as Hshape.
  apply (dropout3_shape (training (self h))
           (dropout_factor (embedding_dropout (self h)))) in Hshape.
  set (x := Tensor.dropout3 (training (self h))
              (dropout_factor (embedding_dropout (self h))) embeddings) in *.
  assert (Hsel : Forall2 (fun row i => length i = length row) x frame_indicator).
  { destruct Hshape as [Hlen Hrows].
    exact (indicator_rows _ _ _ _ _ Hrect Hlen Hrows Hind). }
  destruct (mask_select_total x frame_indicator Hsel) as (fe & Hfe & Hfe_in).
  rewrite <- Htag_in in Hshape.
  destruct (linear3_total _ _ _ _ Hshape) as [logits Hlogits].
  assert (Hfe_len : Forall (fun v => length v
                                     = Tensor.in_features (frame_projection_layer (self h))) fe).
  { eapply Forall_impl; [exact Hfe_in|]. intros v (row & Hrow & Hv).
    destruct Hshape as [_ Hrows]. rewrite Forall_forall in Hrows.
    destruct (Hrows row Hrow) as [_ Hvs]. rewrite Forall_forall in Hvs.
    rewrite Hframe_in, <- Htag_in. exact (Hvs v Hv). }
  destruct (linear2_total _ _ Hfe_len) as [fl Hfl].
  pose proof (linear3_shape _ _ _ _ _ _ Htag Hshape Hlogits) as Hlshape.
  rewrite Htag_out in Hlshape.
  pose proof (view_rows_total _ _ _ _ Hclasses Hlshape) as Hrows.
  assert (Hcp : Tensor.view3 (length x) (Tensor.size1 x) (num_classes (self h))
                  (map Tensor.softmax (concat logits))
                = Ok (map (map Tensor.softmax) logits)).
  { rewrite concat_map. apply view3_total.
    eapply shape3_at_sizes; [exact Hshape|].
    eapply shape3_map; [|exact Hlshape].
    intros v Hv. rewrite softmax_length. exact Hv. }
  exists logits, fl. intros output_dict tags.
  unfold forward. rewrite get_self_step.
  rewrite (lift_step _ _ _ _ Hmask), (lift_step _ _ _ _ Hids).
  rewrite (lift_step _ _ _ _ Hemb). cbn zeta. fold x.
  rewrite (lift_step _ _ _ _ Hfe), (lift_step _ _ _ _ Hlogits).
  rewrite (lift_step _ _ _ _ Hfl), (lift_step _ _ _ _ Hrows).
  rewrite (lift_step _ _ _ _ Hcp).
  assert (Hcols : metadata_columns metadata
                  = Ok (map words metadata, map verb metadata, map offsets metadata)).
  { unfold metadata_columns. destruct metadata; [contradiction | reflexivity]. }
  rewrite (lift_step _ _ _ _ Hcols).
  destruct tags; reflexivity.
Qed.

(** X14: without gold tags [forward] returns, and leaves the heap as it
    was: a well-formed model with at least one tag class, an encoder giving
    one hidden vector per token, a rectangular batch with one frame
    indicator per token and a nonempty metadata list are enough, once the
    mask, the token ids and the encoder returned. *)
Lemma forward_returns (tokens : TextFieldTensors)
    (verb_indicator frame_indicator : list (list Z)) (metadata : list Metadata)
    (frame_tags : option (list (list Z))) (h : Heap) mask input_ids embeddings pooled :
  Model_wf (self h) ->
  num_classes (self h) ≠ 0 ->
  Encoder_contract (bert_model (self h)) ->
  get_text_field_mask tokens = Ok mask ->
  get_token_ids_from_text_field_tensors tokens = Ok input_ids ->
  rectangular input_ids ->
  encoder_forward (bert_model (self h)) input_ids verb_indicator mask
  = Ok (embeddings, pooled) ->
  indicator_for input_ids frame_indicator ->
  metadata ≠ [] ->
  ∃ logits frame_logits,
    forward tokens verb_indicator frame_indicator metadata None frame_tags h
    = (Ok (base_output mask logits (map (map Tensor.softmax) logits)
             frame_logits metadata), h).
Proof.
  intros Hwf Hclasses Hencoder Hmask Hids Hrect Hemb Hind Hmetadata.
  destruct (forward_tensor_steps tokens verb_indicator frame_indicator metadata
              frame_tags h _ _ _ _ Hwf Hclasses Hencoder Hmask Hids Hrect Hemb
              Hind Hmetadata) as (logits & fl & Hrun).
  exists logits, fl. exact (Hrun None).
Qed.

(** X15: with gold tags and gold frames, and the span metric out of the
    way (in training, for one), [forward] returns as soon as the two losses
    and the frame metric do. The call without gold tags has returned a
    dictionary; when the role loss on its "logits" and "mask", the
    selection of the gold frames, the frame loss on its "frame_logits" and
    the update of the frame metric return, the call with gold tags
    returns that dictionary with the three losses added, and the updated
    frame metric is the only change to the model. *)
Lemma forward_returns_with_tags (tokens : TextFieldTensors)
    (verb_indicator frame_indicator : list (list Z)) (metadata : list Metadata)
    (gold gold_frames : list (list Z)) (h h0 : Heap) (od0 : gmap string (value R))
    mask logits frame_logits filtered role_loss frame_loss f1 :
  forward tokens verb_indicator frame_indicator metadata None None h = (Ok od0, h0) ->
  od0 !! "mask" = Some (VMask mask) ->
  od0 !! "logits" = Some (VTensor3 logits) ->
  od0 !! "frame_logits" = Some (VTensor2 frame_logits) ->
  sequence_cross_entropy_with_logits logits gold mask (_label_smoothing (self h))
  = Ok role_loss ->
  Tensor.mask_select gold_frames frame_indicator = Ok filtered ->
  CrossEntropyLoss frame_logits filtered = Ok frame_loss ->
  negb (ignore_span_metric (self h)) && bool_decide (is_Some (span_metric (self h)))
  && negb (training (self h)) = false ->
  fbeta_call frame_logits filtered (f1_frame_metric (self h)) = Ok f1 ->
  forward tokens verb_indicator frame_indicator metadata (Some gold)
    (Some gold_frames) h
  = (Ok (<["loss" := VScalar (s_div (s_add role_loss frame_loss) (s_of_Z 2))]>
           (<["role_loss" := VScalar role_loss]>
              (<["frame_loss" := VScalar frame_loss]> od0))),
     {| self := set_f1_frame_metric f1 (self h); world := world h |}).
Proof.
  intros Hbase Hmask Hlogits Hframe_logits Hrole Hfiltered Hframe Hspan Hf1.
  apply forward_with_tags_run in Hbase as (mask' & logits' & cp & fl & -> & -> & Hrun).
  pose proof (base_output_lookup mask' logits' cp fl metadata) as Hb.
  cbn zeta in Hb. destruct Hb as (B1 & B2 & _ & _ & B5 & _).
  rewrite B5 in Hmask. injection Hmask as ->.
  rewrite B1 in Hlogits. injection Hlogits as ->.
  rewrite B2 in Hframe_logits. injection Hframe_logits as ->.
  rewrite Hrun.
  rewrite (lift_step _ _ _ _ Hrole), (lift_step _ _ _ _ Hfiltered).
  rewrite (lift_step _ _ _ _ Hframe), Hspan.
  unfold mbind at 1, SE_bind at 1, mret at 1, SE_ret at 1.
  rewrite get_self_step, (lift_step _ _ _ _ Hf1), set_self_step.
  reflexivity.
Qed.

End Heads.

(** ** The resource is read once *)

Section Resource.
Context {R : Type} {SR : Scalar R} {FW : Framework R}.

(** C7: the lemma-to-frames mapping is loaded once, at construction: the
    constructor opens the resource file exactly once and keeps what
    [read_dictionary] returned; whatever calls of [forward],
    [decode_frames], [make_output_human_readable] and [get_metrics]
    follow, returning or raising, no file is opened again and
    [lemm_frame_dict] stays the dictionary that was read. *)
Theorem lemm_frame_dict_loaded_once (package_root : string) (vocab : Vocabulary)
    (bert : BertArg) (p : R) (initializer : string -> nat -> nat -> R -> R)
    (label_smoothing : option R) (ignore : bool) (srl_eval_path : option string)
    (kwargs : ModelKwargs) (w w' : World) (m : Model) (cs : list call) :
  __init__ package_root vocab bert p initializer label_smoothing ignore
    srl_eval_path kwargs w = (Ok m, w') ->
  let h := run_calls cs {| self := m; world := w' |} in
  opened (world h) = opened w ++ [LEMMA_FRAME_PATH package_root] ∧
  files (world h) = files w ∧
  lemm_frame_dict (self h) = lemm_frame_dict m ∧
  fst (read_dictionary (LEMMA_FRAME_PATH package_root) w) = Ok (lemm_frame_dict m).
Proof.
  intros Hinit h.
  destruct (init_opens_once _ _ _ _ _ _ _ _ _ _ _ _ Hinit)
    as (Hfiles & Hopened & Hdict).
  destruct (run_calls_same_resource cs {| self := m; world := w' |})
    as [Hworld Hsame].
  fold h in Hworld, Hsame. simpl in Hworld, Hsame.
  rewrite Hworld, Hsame. auto.
Qed.

End Resource.

(** ** Exceptions pass through *)

Section Propagation.
Context {R : Type} {SR : Scalar R} {FW : Framework R}.

Lemma for_each_raises {A B} (f : A -> result B) (xs : list A) (e : exn) (x : A) :
  (∀ y e', f y = Raise e' -> e' = e) ->
  x ∈ xs -> f x = Raise e -> for_each f xs = Raise e.
Proof.
  intros Honly Hin Hx. induction xs as [|y xs IH]; [inversion Hin|].
  cbn [for_each]. destruct (f y) as [b|e'] eqn:Hy.
  - apply elem_of_cons in Hin as [->|Hin]; [congruence|].
    simpl. rewrite (IH Hin). reflexivity.
  - apply Honly in Hy as ->. reflexivity.
Qed.

Lemma get_token_index_raises (v : Vocabulary) (tok namespace : string) (e : exn) :
  get_token_index v tok namespace = Raise e -> e = KeyError.
Proof. unfold get_token_index. destruct (index_of _ _); congruence. Qed.

Lemma index_of_None (tok : string) (l : list string) :
  tok ∉ l -> index_of tok l = None.
Proof.
  induction l as [|t l IH]; simpl; [reflexivity|]. intros Hnot.
  destruct (String.eqb_spec t tok) as [->|_].
  - exfalso. apply Hnot. constructor.
  - rewrite IH; [reflexivity|]. intros Hin. apply Hnot. constructor. exact Hin.
Qed.

Lemma get_token_index_missing (v : Vocabulary) (tok namespace : string) :
  tok ∉ index_to_token v namespace ->
  get_token_index v tok namespace = Raise KeyError.
Proof. intros Hnot. unfold get_token_index. rewrite index_of_None; auto. Qed.

Lemma for_each_first_raise {A B} (f : A -> result B) (done rest : list A)
    (x : A) (ys : list B) (e : exn) :
  for_each f done = Ok ys -> f x = Raise e ->
  for_each f (done ++ x :: rest) = Raise e.
Proof.
  revert ys. induction done as [|y done IH]; intros ys Hdone Hx; cbn [app for_each].
  - rewrite Hx. reflexivity.
  - cbn [for_each] in Hdone.
    apply rbind_Ok in Hdone as (b & Hb & Hdone).
    apply rbind_Ok in Hdone as (bs & Hbs & _).
    rewrite Hb. simpl. rewrite (IH _ Hbs Hx). reflexivity.
Qed.

(** One rung of a propagation proof: a step that raised ends the run with
    its exception; a step that returned hands its value on. *)
Ltac rung :=
  split;
  [ let H := fresh "Hraise" in
    intros H; rewrite (lift_raise _ _ _ _ H); reflexivity
  | let v := fresh "v" in
    let H := fresh "Hstep" in
    intros v H; rewrite (lift_step _ _ _ _ H) ].

(** C5: the module catches nothing and translates nothing: at every call
    of a lower layer, an exception ends the method with that very
    exception. Each method is followed call by call, every call reached
    with the earlier ones having returned.
    - The constructor: the base constructor; [open] on the resource file,
      whose exception is what [read_dictionary] and the constructor raise
      (and so is any exception of [read_dictionary]); the loading of the
      encoder; the dropout constructor.
    - [forward]: the mask, the token ids, the encoder, the selection of
      the frame positions (a shape mismatch), the two projection layers,
      the two [view]s, the unpacking of the metadata, the role loss, the
      selection of the gold frames (and the [TypeError] of absent gold
      frames), the frame loss, the whole evaluation branch, and the update
      of the frame metric.
    - The evaluation branch: [make_output_human_readable], the [pop], the
      two conversions (a list comprehension raises the exception of its
      first failing element), the absent scorer and the scorer's call.
    - [make_output_human_readable]: the inherited decoding, and
      [decode_frames].
    - [decode_frames]: the two dictionary lookups, a candidate frame that
      is not in the vocabulary (the vocabulary's [KeyError]), a candidate
      id outside a row of probabilities (the array's exception), and the
      [TypeError] of [argmax]. *)
Theorem errors_propagate :
  (∀ package_root vocab bert p initializer label_smoothing ignore srl_eval_path
     kwargs (w : World) (e : exn),
      let path := LEMMA_FRAME_PATH package_root in
      let run := __init__ package_root vocab bert p initializer label_smoothing
                   ignore srl_eval_path kwargs w in
      (Model_init vocab kwargs = Raise e -> run = (Raise e, w)) ∧
      (Model_init vocab kwargs = Ok tt ->
       (files w path = Raise e ->
        fst (read_dictionary path w) = Raise e ∧ fst run = Raise e) ∧
       (∀ w1, read_dictionary path w = (Raise e, w1) -> run = (Raise e, w1)) ∧
       (∀ d w1, read_dictionary path w = (Ok d, w1) ->
          (∀ name, bert = BertName name -> from_pretrained name = Raise e ->
                   run = (Raise e, w1)) ∧
          (∀ enc, match bert with
                  | BertName name => from_pretrained name
                  | BertObject given => Ok given
                  end = Ok enc ->
                  Dropout p = Raise e -> run = (Raise e, w1))))) ∧
  (∀ tokens verb_indicator frame_indicator metadata tags frame_tags
     (h : Heap) (e : exn),
      let run := forward tokens verb_indicator frame_indicator metadata tags
                   frame_tags h in
      (get_text_field_mask tokens = Raise e -> run = (Raise e, h)) ∧
      ∀ mask, get_text_field_mask tokens = Ok mask ->
      (get_token_ids_from_text_field_tensors tokens = Raise e ->
       run = (Raise e, h)) ∧
      ∀ input_ids, get_token_ids_from_text_field_tensors tokens = Ok input_ids ->
      (encoder_forward (bert_model (self h)) input_ids verb_indicator mask = Raise e ->
       run = (Raise e, h)) ∧
      ∀ embeddings pooled,
        encoder_forward (bert_model (self h)) input_ids verb_indicator mask
        = Ok (embeddings, pooled) ->
      let x := Tensor.dropout3 (training (self h))
                 (dropout_factor (embedding_dropout (self h))) embeddings in
      (Tensor.mask_select x frame_indicator = Raise e -> run = (Raise e, h)) ∧
      ∀ frame_embeddings, Tensor.mask_select x frame_indicator = Ok frame_embeddings ->
      (Tensor.linear3 (tag_projection_layer (self h)) x = Raise e ->
       run = (Raise e, h)) ∧
      ∀ logits, Tensor.linear3 (tag_projection_layer (self h)) x = Ok logits ->
      (Tensor.linear2 (frame_projection_layer (self h)) frame_embeddings = Raise e ->
       run = (Raise e, h)) ∧
      ∀ frame_logits,
        Tensor.linear2 (frame_projection_layer (self h)) frame_embeddings
        = Ok frame_logits ->
      (Tensor.view_rows (num_classes (self h)) logits = Raise e ->
       run = (Raise e, h)) ∧
      ∀ rows, Tensor.view_rows (num_classes (self h)) logits = Ok rows ->
      (Tensor.view3 (length x) (Tensor.size1 x) (num_classes (self h))
         (map Tensor.softmax rows) = Raise e ->
       run = (Raise e, h)) ∧
      ∀ class_probabilities,
        Tensor.view3 (length x) (Tensor.size1 x) (num_classes (self h))
          (map Tensor.softmax rows) = Ok class_probabilities ->
      (metadata = [] -> run = (Raise ValueError, h)) ∧
      (metadata ≠ [] ->
       ∀ gold, tags = Some gold ->
       let output_dict :=
         base_output mask logits class_probabilities frame_logits metadata in
       (sequence_cross_entropy_with_logits logits gold mask
          (_label_smoothing (self h)) = Raise e ->
        run = (Raise e, h)) ∧
       ∀ role_loss,
         sequence_cross_entropy_with_logits logits gold mask
           (_label_smoothing (self h)) = Ok role_loss ->
       (frame_tags = None -> run = (Raise TypeError, h)) ∧
       ∀ gold_frames, frame_tags = Some gold_frames ->
       (Tensor.mask_select gold_frames frame_indicator = Raise e ->
        run = (Raise e, h)) ∧
       ∀ filtered, Tensor.mask_select gold_frames frame_indicator = Ok filtered ->
       (CrossEntropyLoss frame_logits filtered = Raise e -> run = (Raise e, h)) ∧
       ∀ frame_loss, CrossEntropyLoss frame_logits filtered = Ok frame_loss ->
       let evaluating :=
         negb (ignore_span_metric (self h))
         && bool_decide (is_Some (span_metric (self h)))
         && negb (training (self h)) in
       (evaluating = false ->
        fbeta_call frame_logits filtered (f1_frame_metric (self h)) = Raise e ->
        run = (Raise e, h)) ∧
       (evaluating = true ->
        (∀ h1, update_span_metric metadata output_dict h = (Raise e, h1) ->
               run = (Raise e, h1)) ∧
        (∀ od1 h1, update_span_metric metadata output_dict h = (Ok od1, h1) ->
                   fbeta_call frame_logits filtered (f1_frame_metric (self h1))
                   = Raise e ->
                   run = (Raise e, h1))))) ∧
  (∀ metadata (od : gmap string (value R)) (h : Heap) (e : exn),
      let run := update_span_metric metadata od h in
      (∀ h1, make_output_human_readable od h = (Raise e, h1) ->
             run = (Raise e, h1)) ∧
      ∀ od1 h1, make_output_human_readable od h = (Ok od1, h1) ->
      (pop_lists "tags" od1 = Raise e -> run = (Raise e, h1)) ∧
      ∀ predicted_bio od2, pop_lists "tags" od1 = Ok (predicted_bio, od2) ->
      (for_each convert_bio_tags_to_conll_format predicted_bio = Raise e ->
       run = (Raise e, h1)) ∧
      ∀ predicted,
        for_each convert_bio_tags_to_conll_format predicted_bio = Ok predicted ->
      (for_each convert_bio_tags_to_conll_format (map gold_tags metadata) = Raise e ->
       run = (Raise e, h1)) ∧
      ∀ gold_conll,
        for_each convert_bio_tags_to_conll_format (map gold_tags metadata)
        = Ok gold_conll ->
      (span_metric (self h1) = None -> run = (Raise AttributeError, h1)) ∧
      ∀ scorer, span_metric (self h1) = Some scorer ->
      (span_call (map verb_index metadata) (map words metadata) predicted
         gold_conll scorer = Raise e ->
       run = (Raise e, h1))) ∧
  (∀ (done rest : list (list string)) (t : list string) converted (e : exn),
      for_each convert_bio_tags_to_conll_format done = Ok converted ->
      convert_bio_tags_to_conll_format t = Raise e ->
      for_each convert_bio_tags_to_conll_format (done ++ t :: rest) = Raise e) ∧
  (∀ (od : gmap string (value R)) (h : Heap) (e : exn),
      let run := make_output_human_readable od h in
      (srl_bert_decode (vocab (self h)) od = Raise e -> run = (Raise e, h)) ∧
      ∀ wordpiece_tags word_tags,
        srl_bert_decode (vocab (self h)) od = Ok (wordpiece_tags, word_tags) ->
        ∀ h1,
          decode_frames (<["tags" := VLists word_tags]>
                           (<["wordpiece_tags" := VLists wordpiece_tags]> od)) h
          = (Raise e, h1) ->
          run = (Raise e, h1)) ∧
  (∀ (od : gmap string (value R)) (h : Heap) (e : exn),
      let run := decode_frames od h in
      (get_tensor2 "frame_probabilities" od = Raise e -> run = (Raise e, h)) ∧
      ∀ frame_probabilities,
        get_tensor2 "frame_probabilities" od = Ok frame_probabilities ->
      (get_strings "lemmas" od = Raise e -> run = (Raise e, h)) ∧
      ∀ lemmas, get_strings "lemmas" od = Ok lemmas ->
      (∀ lemma label,
          lemma ∈ lemmas ->
          label ∈ dict_get (lemm_frame_dict (self h)) lemma ->
          label ∉ index_to_token (vocab (self h)) "frames_labels" ->
          run = (Raise KeyError, h)) ∧
      ∀ cl ids row rows,
        for_each (fun l => get_token_index (vocab (self h)) l "frames_labels")
          (concat (map (dict_get (lemm_frame_dict (self h))) lemmas))
        = Ok (cl :: ids) ->
        frame_probabilities = row :: rows ->
      (Np.take row cl = Raise e -> run = (Raise e, h)) ∧
      (∀ candidates, Np.take row cl = Ok candidates ->
                     run = (Raise TypeError, h))).
Proof.
  repeat apply conj.
  - (* the constructor *)
    intros package_root vocab bert p initializer label_smoothing ignore
      srl_eval_path kwargs w e path run.
    subst run. unfold __init__. split.
    { intros Hbase. rewrite (lift_raise _ _ _ _ Hbase). reflexivity. }
    intros Hbase. rewrite (lift_step _ _ _ _ Hbase).
    split; [|split].
    + intros Hopen.
      assert (Hread : read_dictionary path w
                      = (Raise e, {| files := files w;
                                     opened := opened w ++ [path] |})).
      { rewrite read_dictionary_unfold, Hopen. reflexivity. }
      split; [rewrite Hread; reflexivity|].
      fold path. rewrite (SE_bind_raise _ _ _ _ _ Hread). reflexivity.
    + intros w1 Hread. fold path.
      rewrite (SE_bind_raise _ _ _ _ _ Hread). reflexivity.
    + intros d w1 Hread. fold path.
      rewrite (SE_bind_step _ _ _ _ _ Hread). split.
      * intros name -> Hload. rewrite (lift_raise _ _ _ _ Hload). reflexivity.
      * intros enc Hload Hdropout. rewrite (lift_step _ _ _ _ Hload).
        cbn zeta. rewrite (lift_raise _ _ _ _ Hdropout). reflexivity.
  - (* forward *)
    intros tokens vi fi metadata tags frame_tags h e run.
    subst run. unfold forward. rewrite get_self_step.
    rung. rung. split.
    { intros Hraise. rewrite (lift_raise _ _ _ _ Hraise). reflexivity. }
    intros emb pooled Hemb. rewrite (lift_step _ _ _ _ Hemb). cbn zeta.
    rung. rung. rung. rung. rung.
    split.
    { intros ->. reflexivity. }
    intros Hmetadata gold ->.
    assert (Hcols : metadata_columns metadata
                    = Ok (map words metadata, map verb metadata, map offsets metadata)).
    { unfold metadata_columns. destruct metadata; [contradiction | reflexivity]. }
    rewrite (lift_step _ _ _ _ Hcols). cbn zeta.
    rung. split.
    { intros ->. reflexivity. }
    intros gold_frames ->.
    rung. rung. unfold base_output. split.
    + intros Heval Hf1. rewrite Heval.
      unfold mbind at 1, SE_bind at 1, mret at 1, SE_ret at 1.
      rewrite get_self_step, (lift_raise _ _ _ _ Hf1). reflexivity.
    + intros Heval. rewrite Heval. split.
      * intros h1 Hspan. rewrite (SE_bind_raise _ _ _ _ _ Hspan). reflexivity.
      * intros od1 h1 Hspan Hf1. rewrite (SE_bind_step _ _ _ _ _ Hspan).
        rewrite get_self_step, (lift_raise _ _ _ _ Hf1). reflexivity.
  - (* the evaluation branch *)
    intros metadata od h e run. subst run. unfold update_span_metric. split.
    { intros h1 Hreadable. rewrite (SE_bind_raise _ _ _ _ _ Hreadable). reflexivity. }
    intros od1 h1 Hreadable. rewrite (SE_bind_step _ _ _ _ _ Hreadable).
    split.
    { intros Hraise. rewrite (lift_raise _ _ _ _ Hraise). reflexivity. }
    intros predicted_bio od2 Hpop. rewrite (lift_step _ _ _ _ Hpop).
    rung. rung. rewrite get_self_step. split.
    { intros ->. reflexivity. }
    intros scorer -> Hcall.
    rewrite (lift_step _ _ _ scorer eq_refl).
    rewrite (lift_raise _ _ _ _ Hcall). reflexivity.
  - (* a list comprehension *)
    intros done rest t converted e. apply for_each_first_raise.
  - (* make_output_human_readable *)
    intros od h e run. subst run.
    unfold make_output_human_readable, super_make_output_human_readable. split.
    + intros Hdecode. apply SE_bind_raise. rewrite get_self_step.
      apply lift_raise. exact Hdecode.
    + intros wp wt Hdecode h1 Hframes.
      erewrite SE_bind_step; [exact Hframes|].
      rewrite get_self_step, (lift_step _ _ _ _ Hdecode). reflexivity.
  - (* decode_frames *)
    intros od h e run. subst run.
    unfold decode_frames, decode_frames_with. rewrite get_self_step.
    rung. rung. split.
    + intros lemma label Hlemma Hlabel Hmissing.
      apply lift_raise.
      apply (for_each_raises _ _ _ label).
      * intros y e'. apply get_token_index_raises.
      * apply list_elem_of_In, in_concat.
        exists (dict_get (lemm_frame_dict (self h)) lemma).
        split; [|apply list_elem_of_In; exact Hlabel].
        apply in_map, list_elem_of_In. exact Hlemma.
      * apply get_token_index_missing. exact Hmissing.
    + intros cl ids row rows Hids ->.
      rewrite (lift_step _ _ _ _ Hids). split.
      * intros Htake. apply lift_raise.
        cbn [zip zip_with for_each]. rewrite Htake. reflexivity.
      * intros candidates Htake. apply lift_raise.
        cbn [zip zip_with for_each]. rewrite Htake. simpl.
        destruct (Nat.ltb 0 (length candidates)); reflexivity.
Qed.

End Propagation.

(** ** The metrics dictionary *)

Section Metrics.
Context {R : Type} {SR : Scalar R} {FW : Framework R}.

Lemma dict_of_items_snoc (items : list (string * R)) (k : string) (v : R) :
  dict_of_items (items ++ [(k, v)]) = <[k := v]> (dict_of_items items).
Proof. unfold dict_of_items. rewrite fold_left_app. reflexivity. Qed.

Lemma dict_of_items_Some (items : list (string * R)) (k : string) (v : R) :
  dict_of_items items !! k = Some v -> (k, v) ∈ items.
Proof.
  induction items as [|[k' v'] items IH] using rev_ind.
  - unfold dict_of_items. simpl. rewrite lookup_empty. discriminate.
  - rewrite dict_of_items_snoc. rewrite elem_of_app.
    destruct (decide (k' = k)) as [->|Hne].
    + rewrite lookup_insert_eq. intros [= ->]. right. constructor.
    + rewrite lookup_insert_ne by exact Hne. auto.
Qed.

Lemma dict_of_items_key (items : list (string * R)) (e : string * R) :
  e ∈ items -> is_Some (dict_of_items items !! fst e).
Proof.
  induction items as [|[k' v'] items IH] using rev_ind; [inversion 1|].
  rewrite dict_of_items_snoc, elem_of_app. intros Hin.
  destruct (decide (k' = fst e)) as [->|Hne].
  - rewrite lookup_insert_eq. eauto.
  - rewrite lookup_insert_ne by exact Hne.
    destruct Hin as [Hin|Hin]; [auto|].
    apply list_elem_of_singleton in Hin. subst e. contradiction.
Qed.

Lemma dict_of_items_NoDup (items : list (string * R)) (e : string * R) :
  NoDup (map fst items) -> e ∈ items ->
  dict_of_items items !! fst e = Some (snd e).
Proof.
  induction items as [|[k' v'] items IH] using rev_ind; [inversion 2|].
  rewrite map_app, dict_of_items_snoc, elem_of_app. simpl.
  intros Hnodup Hin. apply NoDup_app in Hnodup as (Hitems & Hfresh & _).
  destruct Hin as [Hin|Hin].
  - rewrite lookup_insert_ne; [auto|].
    intros ->. apply (Hfresh (fst e)); [|constructor].
    apply list_elem_of_In, in_map, list_elem_of_In. exact Hin.
  - apply list_elem_of_singleton in Hin. subst e. apply lookup_insert_eq.
Qed.

Lemma append_nil_l (s : string) : "" +:+ s = s.
Proof. reflexivity. Qed.

Lemma append_cons_l (c : ascii) (x s : string) :
  String c x +:+ s = String c (x +:+ s).
Proof. reflexivity. Qed.

Lemma string_length_append (x y : string) :
  String.length (x +:+ y) = String.length x + String.length y.
Proof.
  induction x as [|c x IH]; [reflexivity|].
  rewrite append_cons_l. cbn [String.length]. rewrite IH. reflexivity.
Qed.

Lemma append_inj_r (s x y : string) : x +:+ s = y +:+ s -> x = y.
Proof.
  revert y. induction x as [|c x IH]; intros [|d y];
    rewrite ?append_nil_l, ?append_cons_l; intros Heq.
  - reflexivity.
  - exfalso. apply (f_equal String.length) in Heq.
    cbn [String.length] in Heq. rewrite string_length_append in Heq. lia.
  - exfalso. apply (f_equal String.length) in Heq.
    cbn [String.length] in Heq. rewrite string_length_append in Heq. lia.
  - injection Heq as -> Heq. f_equal. auto.
Qed.

Lemma role_frame_distinct (p q : string) : p +:+ "_role" ≠ q +:+ "_frame".
Proof.
  revert q. induction p as [|c p IH]; intros q Heq.
  - apply (f_equal String.length) in Heq.
    rewrite !string_length_append in Heq. simpl in Heq. lia.
  - destruct q as [|d q]; rewrite ?append_nil_l, ?append_cons_l in Heq.
    + injection Heq as -> Heq.
      destruct p as [|c' p]; [discriminate Heq|].
      apply (f_equal String.length) in Heq.
      rewrite append_cons_l in Heq. cbn [String.length] in Heq.
      rewrite string_length_append in Heq. simpl in Heq. lia.
    + injection Heq as _ Heq. exact (IH q Heq).
Qed.

Lemma frame_keys_NoDup (items : list (string * R)) :
  NoDup (map fst items) -> NoDup (map fst (map frame_entry items)).
Proof.
  rewrite map_map. simpl. induction items as [|[k v] items IH]; simpl.
  - constructor.
  - intros Hnodup. apply NoDup_cons in Hnodup as [Hk Hnodup].
    apply NoDup_cons. split; [|auto].
    intros Hin. apply Hk.
    apply list_elem_of_In, in_map_iff in Hin as ([k' v'] & Heq & Hin).
    simpl in Heq. apply append_inj_r in Heq as ->.
    apply list_elem_of_In, in_map_iff. exists (k, v'). split; [reflexivity | exact Hin].
Qed.

Lemma frame_dict_no_role (items : list (string * R)) (p : string) :
  dict_of_items (map frame_entry items) !! (p +:+ "_role") = None.
Proof.
  destruct (dict_of_items _ !! _) as [v|] eqn:Hv; [|reflexivity].
  apply dict_of_items_Some, list_elem_of_In, in_map_iff in Hv as ([k v'] & Heq & _).
  injection Heq as Heq _. symmetry in Heq. destruct (role_frame_distinct _ _ Heq).
Qed.

Lemma get_metrics_ignored (reset : bool) (h : Heap) :
  ignore_span_metric (self h) = true -> get_metrics reset h = (Ok ∅, h).
Proof.
  intros Hignore. unfold get_metrics. rewrite get_self_step, Hignore. reflexivity.
Qed.

Lemma get_metrics_run (reset : bool) (h : Heap) scorer span_items scorer'
    frame_items f1' :
  ignore_span_metric (self h) = false ->
  span_metric (self h) = Some scorer ->
  span_get_metric reset scorer = Ok (span_items, scorer') ->
  fbeta_get_metric reset (f1_frame_metric (self h)) = Ok (frame_items, f1') ->
  fst (get_metrics reset h) =
  Ok (dict_of_items (map frame_entry frame_items)
      ∪ dict_of_items (map role_entry (List.filter is_overall span_items))).
Proof.
  intros Hignore Hscorer Hspan Hframe.
  unfold get_metrics. rewrite get_self_step, Hignore, Hscorer.
  rewrite (lift_step _ _ _ scorer eq_refl).
  rewrite (lift_step _ _ _ _ Hspan).
  rewrite set_self_step, get_self_step.
  cbn [self set_span_metric f1_frame_metric].
  rewrite (lift_step _ _ _ _ Hframe). reflexivity.
Qed.

(** C4 as amended: with [ignore_span_metric] set, [get_metrics] returns
    the empty dictionary and touches nothing. Otherwise, when both metric
    objects give their entries, it returns a dictionary that holds, for
    every span-metric entry whose name contains "overall", an entry under
    the text before the first "-" followed by "_role", and for every
    frame-metric entry an entry under its name followed by "_frame"; the
    values are those of the metrics (names being distinct), and the
    dictionary holds nothing else. *)
Theorem get_metrics_contract (reset : bool) (h : Heap) :
  (ignore_span_metric (self h) = true -> get_metrics reset h = (Ok ∅, h)) ∧
  (ignore_span_metric (self h) = false ->
   ∀ scorer span_items scorer' frame_items f1',
     span_metric (self h) = Some scorer ->
     span_get_metric reset scorer = Ok (span_items, scorer') ->
     fbeta_get_metric reset (f1_frame_metric (self h)) = Ok (frame_items, f1') ->
     ∃ d, fst (get_metrics reset h) = Ok d ∧
       (∀ e, e ∈ span_items -> is_overall e = true ->
             is_Some (d !! fst (role_entry e))) ∧
       (∀ e, e ∈ frame_items -> is_Some (d !! fst (frame_entry e))) ∧
       (NoDup (map fst frame_items) ->
        ∀ e, e ∈ frame_items -> d !! (fst e +:+ "_frame") = Some (snd e)) ∧
       (NoDup (map fst (map role_entry (List.filter is_overall span_items))) ->
        ∀ e, e ∈ span_items -> is_overall e = true ->
             d !! (PyStr.before_first "-" (fst e) +:+ "_role") = Some (snd e)) ∧
       (∀ k v, d !! k = Some v ->
               (∃ e, e ∈ frame_items ∧ frame_entry e = (k, v)) ∨
               (∃ e, e ∈ span_items ∧ is_overall e = true ∧ role_entry e = (k, v)))).
Proof.
  split; [apply get_metrics_ignored|].
  intros Hignore scorer span_items scorer' frame_items f1' Hscorer Hspan Hframe.
  eexists. split; [exact (get_metrics_run _ _ _ _ _ _ _ Hignore Hscorer Hspan Hframe)|].
  assert (Hrole_in : ∀ e, e ∈ span_items -> is_overall e = true ->
            role_entry e ∈ map role_entry (List.filter is_overall span_items)).
  { intros e He Ho. apply list_elem_of_In, in_map, filter_In.
    split; [apply list_elem_of_In; exact He | exact Ho]. }
  assert (Hframe_in : ∀ e, e ∈ frame_items ->
            frame_entry e ∈ map frame_entry frame_items).
  { intros e He. apply list_elem_of_In, in_map, list_elem_of_In. exact He. }
  repeat apply conj.
  - intros e He Ho.
    destruct (dict_of_items_key _ _ (Hrole_in e He Ho)) as [v Hv].
    destruct (dict_of_items (map frame_entry frame_items) !! fst (role_entry e))
      as [v'|] eqn:Hf.
    + exists v'. apply lookup_union_Some_l. exact Hf.
    + exists v. rewrite lookup_union_r by exact Hf. exact Hv.
  - intros e He.
    destruct (dict_of_items_key _ _ (Hframe_in e He)) as [v Hv].
    exists v. apply lookup_union_Some_l. exact Hv.
  - intros Hnodup e He. apply lookup_union_Some_l.
    exact (dict_of_items_NoDup _ _ (frame_keys_NoDup _ Hnodup) (Hframe_in e He)).
  - intros Hnodup e He Ho.
    rewrite lookup_union_r by apply frame_dict_no_role.
    exact (dict_of_items_NoDup _ _ Hnodup (Hrole_in e He Ho)).
  - intros k v Hkv. apply lookup_union_Some_raw in Hkv as [Hkv|[_ Hkv]].
    + left. apply dict_of_items_Some, list_elem_of_In, in_map_iff in Hkv
        as (e & Heq & He).
      exists e. split; [apply list_elem_of_In; exact He | exact Heq].
    + right. apply dict_of_items_Some, list_elem_of_In, in_map_iff in Hkv
        as (e & Heq & He).
      apply filter_In in He as [He Ho].
      exists e. split; [apply list_elem_of_In; exact He | auto].
Qed.

End Metrics.

(** ** Frame decoding *)

Section Decoding.
Context {R : Type} {SR : Scalar R} {FW : Framework R}.

Lemma argmax_dim_raises (a : list R) : Np.argmax "dim" a = Raise TypeError.
Proof. reflexivity. Qed.

Lemma for_each_never {A B} (f : A -> result B) (xs : list A) (ys : list B) :
  (∀ x y, f x ≠ Ok y) -> for_each f xs = Ok ys -> xs = [] ∧ ys = [].
Proof.
  intros Hf. destruct xs as [|x xs]; simpl.
  - intros [= <-]. auto.
  - destruct (f x) as [y|e] eqn:Hx; [destruct (Hf x y Hx) | discriminate].
Qed.

(** With the arrays of the source, a prediction is never produced: when
    [decode_frames] returns, no candidate id met a row of probabilities
    and "frame_tags" is empty. *)
Lemma decode_frames_Ok_empty (od od' : gmap string (value R)) (h h' : Heap) :
  decode_frames od h = (Ok od', h') ->
  od' = <["frame_tags" := VStrings []]> od.
Proof.
  unfold decode_frames, decode_frames_with. intros Hrun.
  apply SE_bind_Ok in Hrun as (self0 & s0 & Hself & Hrun).
  injection Hself as <- <-.
  apply SE_bind_Ok in Hrun as (fp & s1 & Hfp & Hrun).
  apply lift_Ok in Hfp as [Hfp ->].
  apply SE_bind_Ok in Hrun as (lemmas & s2 & Hlemmas & Hrun).
  apply lift_Ok in Hlemmas as [Hlemmas ->].
  apply SE_bind_Ok in Hrun as (ids & s3 & Hids & Hrun).
  apply lift_Ok in Hids as [Hids ->].
  apply SE_bind_Ok in Hrun as (predictions & s4 & Hpredictions & Hrun).
  apply lift_Ok in Hpredictions as [Hpredictions ->].
  apply for_each_never in Hpredictions as [_ ->].
  - simpl in Hrun. injection Hrun as <- <-. reflexivity.
  - intros [cl row] y. destruct (Np.take row cl) as [c|e]; simpl; [|discriminate].
    destruct (Nat.ltb 0 (length c)); discriminate.
Qed.

End Decoding.

(** ** The properties at work *)

Import Toy.

Lemma Toy_encoder_contract (e : nat) : Encoder_contract (FW := Toy.framework) e.
Proof.
  intros ids tt mask emb pooled Hrect [= <- _]. split; [apply length_map|].
  apply Forall_map. eapply Forall_impl; [exact Hrect|].
  intros row Hrow. split; [rewrite length_map; exact Hrow|].
  apply Forall_map, Forall_forall. intros i _. apply repeat_length.
Qed.

Lemma Toy_tokens_contract (tokens : list (list Z)) :
  Forall (fun row => length row = Tensor.size1 tokens) tokens ->
  Tokens_contract (FW := Toy.framework) tokens.
Proof. intros Hrect ids [= <-]. exact Hrect. Qed.

Lemma Toy_model_wf (ignore training : bool) : Model_wf (Toy.model ignore training).
Proof. repeat split. Qed.

(** C1 (frame prediction restricted to the lemma's candidates) is not met
    by the code. One example, lemma "run", candidate frames F1
    (probability 0.1) and F2 (0.2), F0 at 0.7: the specification's decoder
    answers F2. [decode_frames] pairs the first
    candidate id of the flattened list with the row, takes one probability
    and calls [argmax] with the keyword [dim], which NumPy rejects; were the
    keyword accepted, the argmax of that single value would be position 0 and
    the answer F0, which is not a candidate. *)
Theorem decode_frames_failing_input :
  decode_frames_spec (lemm_frame_dict (Toy.model false false)) Toy.vocabulary
    ["run"] [[7 # 10; 1 # 10; 2 # 10; 0 # 1]] = Ok ["F2"] ∧
  fst (decode_frames Toy.decoder_input (Toy.heap false false)) = Raise TypeError ∧
  frame_tags_of (decode_frames_with (Np.argmax "axis") Toy.decoder_input
                   (Toy.heap false false))
  = Ok (Some (VStrings ["F0"])).
Proof. repeat split; vm_compute; reflexivity. Qed.

(** C4 does not hold for every call: with [ignore_span_metric] set, both
    metric objects have entries to give and [get_metrics] returns the empty
    dictionary. *)
Lemma get_metrics_ignored_counterexample :
  ¬ returns_both_metrics false (Toy.evaluated true).
Proof.
  intros Hclaim.
  destruct (Hclaim 1%nat Toy.span_items 1%nat Toy.frame_items 1%nat
              eq_refl eq_refl eq_refl) as (d & Hd & _ & Hframe).
  rewrite get_metrics_ignored in Hd by reflexivity. injection Hd as <-.
  destruct (Hframe ("fscore", 3 # 4)) as [v Hv].
  - apply list_elem_of_In. simpl. auto.
  - rewrite lookup_empty in Hv. discriminate.
Qed.

Lemma Toy_frame_names_NoDup : NoDup (map fst Toy.frame_items).
Proof. apply (bool_decide_unpack _). vm_compute. reflexivity. Qed.

Lemma Toy_role_names_NoDup :
  NoDup (map fst (map role_entry (List.filter is_overall Toy.span_items))).
Proof. apply (bool_decide_unpack _). vm_compute. reflexivity. Qed.

Lemma get_metrics_contract_witness :
  get_metrics false (Toy.evaluated true) = (Ok ∅, Toy.evaluated true) ∧
  ∃ d, fst (get_metrics false (Toy.evaluated false)) = Ok d ∧
       d !! "f1_role" = Some (1 # 3) ∧ d !! "fscore_frame" = Some (3 # 4).
Proof.
  split.
  - apply (proj1 (get_metrics_contract false (Toy.evaluated true))). reflexivity.
  - destruct (proj2 (get_metrics_contract false (Toy.evaluated false)) eq_refl
                1%nat Toy.span_items 1%nat Toy.frame_items 1%nat
                eq_refl eq_refl eq_refl)
      as (d & Hd & _ & _ & Hframe & Hrole & _).
    exists d. split; [exact Hd|]. split.
    + apply (Hrole Toy_role_names_NoDup ("f1-measure-overall", 1 # 3)); [|reflexivity].
      apply list_elem_of_In. simpl. auto.
    + apply (Hframe Toy_frame_names_NoDup ("fscore", 3 # 4)).
      apply list_elem_of_In. simpl. auto.
Defined.

Lemma run_returned {A S} (run : result A * S) :
  returns run = true -> ∃ a, run = (Ok a, snd run).
Proof. destruct run as [[a|e] s]; [eauto | discriminate]. Qed.

Lemma forward_joint_loss_witness :
  ∃ od h',
    forward Toy.tokens Toy.verb_indicator Toy.frame_indicator Toy.metadata
      (Some Toy.tags) (Some Toy.frame_tags) (Toy.heap false true) = (Ok od, h') ∧
    ∃ role_loss frame_loss,
      od !! "role_loss" = Some (VScalar role_loss) ∧
      od !! "frame_loss" = Some (VScalar frame_loss) ∧
      od !! "loss" = Some (VScalar (s_div (s_add role_loss frame_loss) (s_of_Z 2))).
Proof.
  assert (returns (forward Toy.tokens Toy.verb_indicator Toy.frame_indicator
                       Toy.metadata (Some Toy.tags) (Some Toy.frame_tags)
                       (Toy.heap false true)) = true) as Hod
    by (vm_compute; reflexivity).
  apply run_returned in Hod as [od Hod].
  exists od, (snd (forward Toy.tokens Toy.verb_indicator Toy.frame_indicator
                     Toy.metadata (Some Toy.tags) (Some Toy.frame_tags)
                     (Toy.heap false true))).
  split; [exact Hod|].
  destruct (forward_joint_loss _ _ _ _ _ _ _ _ _ Hod)
    as (role_loss & frame_loss & _ & _ & _ & _ & _ & H1 & H2 & H3 & _).
  exists role_loss, frame_loss. auto.
Defined.

Lemma forward_without_tags_witness :
  ∃ od h',
    forward Toy.tokens Toy.verb_indicator Toy.frame_indicator Toy.metadata
      None None (Toy.heap false false) = (Ok od, h') ∧
    h' = Toy.heap false false ∧
    od !! "loss" = None ∧ od !! "role_loss" = None ∧ od !! "frame_loss" = None.
Proof.
  assert (returns (forward Toy.tokens Toy.verb_indicator Toy.frame_indicator
                       Toy.metadata None None (Toy.heap false false)) = true) as Hod
    by (vm_compute; reflexivity).
  apply run_returned in Hod as [od Hod].
  exists od, (snd (forward Toy.tokens Toy.verb_indicator Toy.frame_indicator
                     Toy.metadata None None (Toy.heap false false))).
  split; [exact Hod|].
  destruct (forward_without_tags _ _ _ _ _ _ _ _ Hod) as (Hh & _ & _ & Hloss).
  split; [exact Hh|]. exact (Hloss od eq_refl).
Defined.

Lemma forward_metadata_entries_witness :
  ∃ od h',
    forward Toy.pair_tokens Toy.pair_indicator Toy.pair_indicator Toy.pair_metadata
      None None (Toy.heap false false) = (Ok od, h') ∧
    ∃ ws vs os ls,
      od !! "words" = Some (VLists ws) ∧ length ws = 2 ∧
      od !! "verb" = Some (VStrings vs) ∧ length vs = 2 ∧
      od !! "wordpiece_offsets" = Some (VOffsets os) ∧ length os = 2 ∧
      od !! "lemmas" = Some (VStrings ls) ∧ ls = ["run"; "eat"; "go"] ∧ length ls = 3.
Proof.
  assert (returns (forward Toy.pair_tokens Toy.pair_indicator Toy.pair_indicator
                       Toy.pair_metadata None None (Toy.heap false false)) = true) as Hod
    by (vm_compute; reflexivity).
  apply run_returned in Hod as [od Hod].
  exists od, (snd (forward Toy.pair_tokens Toy.pair_indicator Toy.pair_indicator
                     Toy.pair_metadata None None (Toy.heap false false))).
  split; [exact Hod|].
  destruct (forward_metadata_entries _ _ _ _ _ _ _ _ _ Hod)
    as (ws & vs & os & ls & H1 & -> & H2 & -> & H3 & -> & H4 & -> & _).
  eexists _, _, _, _. repeat split; try eassumption; reflexivity.
Defined.

Lemma forward_heads_witness :
  ∃ od h',
    forward Toy.pair_tokens Toy.pair_indicator Toy.pair_indicator Toy.pair_metadata
      None None (Toy.heap false false) = (Ok od, h') ∧
    ∃ logits frame_logits,
      od !! "logits" = Some (VTensor3 logits) ∧
      Tensor.shape3 2 2 3 logits ∧
      od !! "class_probabilities" = Some (VTensor3 (map (map Tensor.softmax) logits)) ∧
      od !! "frame_logits" = Some (VTensor2 frame_logits) ∧
      od !! "frame_probabilities" = Some (VTensor2 (map Tensor.softmax frame_logits)).
Proof.
  assert (returns (forward Toy.pair_tokens Toy.pair_indicator Toy.pair_indicator
                       Toy.pair_metadata None None (Toy.heap false false)) = true) as Hod
    by (vm_compute; reflexivity).
  apply run_returned in Hod as [od Hod].
  exists od, (snd (forward Toy.pair_tokens Toy.pair_indicator Toy.pair_indicator
                     Toy.pair_metadata None None (Toy.heap false false))).
  split; [exact Hod|].
  destruct (forward_heads Toy.pair_tokens _ _ _ _ _ (Toy.heap false false) _ _
              (Toy_model_wf false false)
              (Toy_tokens_contract Toy.pair_tokens ltac:(repeat constructor))
              (Toy_encoder_contract _) Hod)
    as (ids & mask & logits & fl & Hids & _ & H1 & H2 & H3 & H4 & _ & H5 & _).
  injection Hids as <-.
  exists logits, fl. auto.
Defined.

Lemma lemm_frame_dict_loaded_once_witness :
  let h := run_calls
             [CallForward Toy.tokens Toy.verb_indicator Toy.frame_indicator
                Toy.metadata (Some Toy.tags) (Some Toy.frame_tags);
              CallGetMetrics true;
              CallDecodeFrames Toy.decoder_input;
              CallMakeOutputHumanReadable Toy.decoder_input]
             {| self := Toy.model false true;
                world := world (Toy.heap false true) |} in
  opened (world h) = [] ++ [LEMMA_FRAME_PATH Toy.root] ∧
  files (world h) = Toy.disk ∧
  lemm_frame_dict (self h) = lemm_frame_dict (Toy.model false true) ∧
  fst (read_dictionary (LEMMA_FRAME_PATH Toy.root) (Toy.fresh Toy.disk))
  = Ok (lemm_frame_dict (Toy.model false true)).
Proof.
  exact (lemm_frame_dict_loaded_once Toy.root Toy.vocabulary
           (BertName "bert-base-cased") 0%Q (fun _ _ _ x => x) None false
           (Some "srl-eval.pl") tt (Toy.fresh Toy.disk) _ (Toy.model false true) _
           construct_ex).
Defined.

Lemma errors_propagate_witness :
  fst (Toy.construct false (Toy.fresh Toy.empty_disk)) = Raise FileNotFoundError ∧
  forward Toy.tokens Toy.verb_indicator [[0; 1; 0]%Z] Toy.metadata None None
    (Toy.heap false false)
  = (Raise IndexError, Toy.heap false false) ∧
  make_output_human_readable ∅ (Toy.heap false false)
  = (Raise KeyError, Toy.heap false false) ∧
  decode_frames Toy.decoder_input (Toy.heap false false)
  = (Raise TypeError, Toy.heap false false).
Proof.
  destruct (@errors_propagate Q Toy.Q_Scalar Toy.framework)
    as (Hinit & Hforward & _ & _ & Hreadable & Hdecode).
  split; [|split; [|split]].
  - pose proof (Hinit Toy.root Toy.vocabulary (BertName "bert-base-cased") 0%Q
                  (fun _ _ _ x => x) None false (Some "srl-eval.pl") tt
                  (Toy.fresh Toy.empty_disk) FileNotFoundError) as H.
    cbv zeta in H. destruct H as [_ H].
    destruct (H eq_refl) as [Hopen _]. exact (proj2 (Hopen eq_refl)).
  - pose proof (Hforward Toy.tokens Toy.verb_indicator [[0; 1; 0]%Z] Toy.metadata
                  None None (Toy.heap false false) IndexError) as H.
    cbv zeta in H. destruct H as [_ H].
    destruct (H [[true; true]] eq_refl) as [_ H1].
    destruct (H1 Toy.tokens eq_refl) as [_ H2].
    destruct (H2 (map (map (fun i => repeat (inject_Z i) 2)) Toy.tokens) []
                eq_refl) as [Hselect _].
    exact (Hselect eq_refl).
  - pose proof (Hreadable ∅ (Toy.heap false false) KeyError) as H.
    cbv zeta in H. destruct H as [H _]. exact (H eq_refl).
  - pose proof (Hdecode Toy.decoder_input (Toy.heap false false) TypeError) as H.
    cbv zeta in H. destruct H as [_ H].
    destruct (H [[7 # 10; 1 # 10; 2 # 10; 0 # 1]]%Q eq_refl) as [_ H1].
    destruct (H1 ["run"] eq_refl) as [_ H2].
    destruct (H2 1%Z [2%Z] [7 # 10; 1 # 10; 2 # 10; 0 # 1]%Q [] eq_refl eq_refl)
      as [_ Hargmax].
    exact (Hargmax [1 # 10]%Q eq_refl).
Defined.

(** * Further properties of the code *)

(** ** The resource reader: errors and round trip *)

Lemma read_lines_raise_inv (ls : list string) (d0 : gmap string (list string))
    (e : exn) :
  for_fold read_line ls d0 = Raise e ->
  e = ValueError ∧ ∃ l, l ∈ ls ∧ whitespace_only l = true.
Proof.
  revert d0. induction ls as [|l ls IH]; cbn [for_fold]; intros d0 Hrun;
    [discriminate|].
  destruct (read_line d0 l) as [d1|e'] eqn:Hl; simpl in Hrun.
  - destruct (IH d1 Hrun) as (-> & l' & Hin & Hw).
    split; [reflexivity|]. exists l'. split; [right; exact Hin | exact Hw].
  - injection Hrun as <-. split; [exact (read_line_raises _ _ _ Hl)|].
    exists l. split; [left|].
    unfold read_line in Hl. destruct (PyStr.split l) eqn:Hs; [|discriminate].
    apply split_nil_iff. exact Hs.
Qed.

(** X1: [read_dictionary] raises exactly in two cases: [open] raised, and
    then it raises the same exception; or the file was read and holds a
    whitespace-only line, and then it raises [ValueError]. *)
Theorem read_dictionary_raises (w : World) (filename : string) (e : exn) :
  fst (read_dictionary filename w) = Raise e ↔
  files w filename = Raise e ∨
  (e = ValueError ∧
   ∃ text l, files w filename = Ok text ∧ l ∈ PyStr.file_lines text ∧
             whitespace_only l = true).
Proof.
  rewrite read_dictionary_unfold. cbn [fst]. split.
  - destruct (files w filename) as [text|e'] eqn:Hfile; simpl.
    + intros Hrun. right.
      destruct (read_lines_raise_inv _ _ _ Hrun) as (-> & l & Hin & Hw).
      split; [reflexivity|]. exists text, l. auto.
    + intros [= <-]. left. reflexivity.
  - intros [->|(-> & text & l & -> & Hin & Hw)]; simpl; [reflexivity|].
    exact (read_lines_blank _ _ l Hin Hw).
Qed.

Lemma read_dictionary_raises_witness :
  fst (read_dictionary "absent.csv" (Toy.fresh Toy.empty_disk))
  = Raise FileNotFoundError ∧
  fst (read_dictionary "blank.csv" (Toy.fresh (fun _ => Ok "run F1
   
eat F3
"))) = Raise ValueError.
Proof.
  split.
  - apply (proj2 (read_dictionary_raises _ _ _)). left. reflexivity.
  - apply (proj2 (read_dictionary_raises _ _ _)). right.
    split; [reflexivity|].
    eexists _, ("   " +:+ String PyStr.LF EmptyString).
    split; [reflexivity|]. split; [|reflexivity].
    vm_compute. apply list_elem_of_In. simpl. auto.
Defined.

Lemma not_space_not_newline (c : ascii) :
  PyStr.is_space c = false ->
  Ascii.eqb c PyStr.LF = false ∧ Ascii.eqb c PyStr.CR = false.
Proof.
  intros Hc. split.
  - destruct (Ascii.eqb_spec c PyStr.LF) as [->|_]; [discriminate Hc | reflexivity].
  - destruct (Ascii.eqb_spec c PyStr.CR) as [->|_]; [discriminate Hc | reflexivity].
Qed.

Lemma token_like_cons (c : ascii) (t : string) :
  token_like (String c t) = true ->
  PyStr.is_space c = false ∧ (t = EmptyString ∨ token_like t = true).
Proof.
  simpl. destruct t as [|c' t'].
  - intros Hc. apply negb_true_iff in Hc. auto.
  - intros Hc. apply andb_true_iff in Hc as [Hc Ht].
    apply negb_true_iff in Hc. auto.
Qed.

Lemma string_append_assoc (x y z : string) : (x +:+ y) +:+ z = x +:+ (y +:+ z).
Proof.
  induction x as [|c x IH]; [reflexivity|].
  change (String c ((x +:+ y) +:+ z) = String c (x +:+ (y +:+ z))).
  rewrite IH. reflexivity.
Qed.

Lemma split_token_app (t s : string) :
  token_like t = true -> PyStr.starts_token s = false ->
  PyStr.split (t +:+ s) = t :: PyStr.split s.
Proof.
  induction t as [|c t IH]; [discriminate|]. intros Ht Hs.
  apply token_like_cons in Ht as [Hc [->|Ht]].
  - change (PyStr.split (String c s) = String c EmptyString :: PyStr.split s).
    cbn [PyStr.split]. rewrite Hc, Hs. reflexivity.
  - change (PyStr.split (String c (t +:+ s)) = String c t :: PyStr.split s).
    cbn [PyStr.split]. rewrite Hc, (IH Ht Hs).
    destruct t as [|c' t']; [discriminate Ht|].
    apply token_like_cons in Ht as [Hc' _].
    change (String c' t' +:+ s) with (String c' (t' +:+ s)).
    cbn [PyStr.starts_token]. rewrite Hc'. reflexivity.
Qed.

Lemma split_render_tokens (ts : list string) :
  Forall (fun t => token_like t = true) ts ->
  PyStr.split (render_tokens ts) = ts.
Proof.
  induction 1 as [|t ts Ht Hts IH]; [reflexivity|].
  cbn [render_tokens]. destruct ts as [|t' ts'].
  - rewrite (split_token_app t (String PyStr.LF EmptyString) Ht eq_refl).
    reflexivity.
  - rewrite (split_token_app t (String " " (render_tokens (t' :: ts'))) Ht eq_refl).
    change (PyStr.split (String " " (render_tokens (t' :: ts'))))
      with (PyStr.split (render_tokens (t' :: ts'))).
    rewrite IH. reflexivity.
Qed.

Lemma file_lines_cons (c : ascii) (s l : string) (ls : list string) :
  Ascii.eqb c PyStr.LF = false -> Ascii.eqb c PyStr.CR = false ->
  PyStr.file_lines s = l :: ls ->
  PyStr.file_lines (String c s) = String c l :: ls.
Proof.
  intros HLF HCR Hs. cbn [PyStr.file_lines]. rewrite HLF, HCR.
  destruct s as [|d s']; [discriminate Hs|]. rewrite Hs. reflexivity.
Qed.

Lemma file_lines_token_app (t s l : string) (ls : list string) :
  token_like t = true ->
  PyStr.file_lines s = l :: ls ->
  PyStr.file_lines (t +:+ s) = (t +:+ l) :: ls.
Proof.
  induction t as [|c t IH]; [discriminate|]. intros Ht Hs.
  apply token_like_cons in Ht as [Hc Ht].
  destruct (not_space_not_newline c Hc) as [HLF HCR].
  change (PyStr.file_lines (String c (t +:+ s)) = String c (t +:+ l) :: ls).
  apply file_lines_cons; [exact HLF | exact HCR |].
  destruct Ht as [->|Ht]; [exact Hs | exact (IH Ht Hs)].
Qed.

Lemma file_lines_render_tokens (ts : list string) (rest : string) :
  Forall (fun t => token_like t = true) ts ->
  PyStr.file_lines (render_tokens ts +:+ rest)
  = render_tokens ts :: PyStr.file_lines rest.
Proof.
  induction 1 as [|t ts Ht Hts IH]; [reflexivity|].
  cbn [render_tokens]. destruct ts as [|t' ts'].
  - rewrite string_append_assoc. apply file_lines_token_app; [exact Ht | reflexivity].
  - rewrite string_append_assoc. apply file_lines_token_app; [exact Ht|].
    change (String " " (render_tokens (t' :: ts')) +:+ rest)
      with (String " " (render_tokens (t' :: ts') +:+ rest)).
    apply file_lines_cons; [reflexivity | reflexivity | exact IH].
Qed.

Lemma entry_tokens_Forall (e : string * list string) :
  entry_tokens e = true ->
  Forall (fun t => token_like t = true) (fst e :: snd e).
Proof.
  unfold entry_tokens. intros He. apply andb_true_iff in He as [Hk Hv].
  constructor; [exact Hk|]. apply Forall_forall. intros t Ht.
  rewrite forallb_forall in Hv. apply Hv, list_elem_of_In. exact Ht.
Qed.

Lemma file_lines_render_resource (entries : list (string * list string)) :
  Forall (fun e => entry_tokens e = true) entries ->
  PyStr.file_lines (render_resource entries) = map render_entry entries.
Proof.
  induction 1 as [|e entries He _ IH]; [reflexivity|].
  cbn [render_resource fold_right map]. unfold render_entry at 1.
  rewrite (file_lines_render_tokens _ _ (entry_tokens_Forall e He)).
  fold (render_resource entries). rewrite IH. reflexivity.
Qed.

Lemma frames_listed_render (k : string) (entries : list (string * list string)) :
  Forall (fun e => entry_tokens e = true) entries ->
  frames_listed k (map render_entry entries) = entry_frames k entries.
Proof.
  induction 1 as [|e entries He _ IH]; [reflexivity|].
  cbn [map]. rewrite frames_listed_cons, IH.
  unfold frames_listed, entry_frames. cbn [flat_map]. rewrite app_nil_r.
  unfold render_entry. rewrite (split_render_tokens _ (entry_tokens_Forall e He)).
  reflexivity.
Qed.

Lemma entry_frames_NoDup (entries : list (string * list string))
    (e : string * list string) :
  NoDup (map fst entries) -> e ∈ entries -> entry_frames (fst e) entries = snd e.
Proof.
  unfold entry_frames.
  induction entries as [|e' entries IH]; [inversion 2|].
  cbn [map flat_map]. intros Hnodup Hin.
  apply NoDup_cons in Hnodup as [Hfresh Hnodup].
  apply elem_of_cons in Hin as [->|Hin].
  - rewrite String.eqb_refl.
    assert (Hrest : flat_map (fun x => if String.eqb (fst x) (fst e') then snd x else [])
                      entries = []).
    { clear IH Hnodup. induction entries as [|x xs IHxs]; [reflexivity|].
      cbn [flat_map]. destruct (String.eqb_spec (fst x) (fst e')) as [Heq|_].
      - exfalso. apply Hfresh. rewrite <- Heq. cbn [map]. left.
      - apply IHxs. intros Hx. apply Hfresh. cbn [map]. right. exact Hx. }
    rewrite Hrest, app_nil_r. reflexivity.
  - destruct (String.eqb_spec (fst e') (fst e)) as [Heq|_]; [|exact (IH Hnodup Hin)].
    exfalso. apply Hfresh. rewrite Heq.
    apply list_elem_of_In, in_map, list_elem_of_In. exact Hin.
Qed.

(** X2: a resource written in the documented format reads back. For
    entries whose lemma and frames are tokens (non-empty, without
    whitespace), the file holding one line "lemma frame1 frame2 ..." per
    entry is read to a dictionary whose keys are the entries' lemmas and
    in which a lemma's frames are those of its entries, in order; with
    distinct lemmas every entry is found as it was written. *)
Theorem read_dictionary_round_trip (w : World) (filename : string)
    (entries : list (string * list string)) :
  files w filename = Ok (render_resource entries) ->
  Forall (fun e => entry_tokens e = true) entries ->
  ∃ d, fst (read_dictionary filename w) = Ok d ∧
    (∀ k, dict_get d k = entry_frames k entries) ∧
    (∀ k, is_Some (d !! k) ↔ k ∈ map fst entries) ∧
    (NoDup (map fst entries) -> ∀ e, e ∈ entries -> d !! fst e = Some (snd e)).
Proof.
  intros Hfile Hentries.
  rewrite read_dictionary_unfold, Hfile. cbn [fst mbind result_bind].
  rewrite (file_lines_render_resource _ Hentries).
  assert (Hsplit : ∀ e, e ∈ entries -> PyStr.split (render_entry e) = fst e :: snd e).
  { intros e He. rewrite Forall_forall in Hentries.
    exact (split_render_tokens _ (entry_tokens_Forall e (Hentries e He))). }
  assert (Hlines : Forall (fun l => whitespace_only l = false) (map render_entry entries)).
  { apply Forall_map, Forall_forall. intros e He.
    exact (split_cons_not_blank _ _ _ (Hsplit e He)). }
  destruct (read_lines_total _ ∅ Hlines) as [d Hd].
  exists d. split; [exact Hd|].
  assert (Hget : ∀ k, dict_get d k = entry_frames k entries).
  { intros k. rewrite (read_lines_get _ _ _ k Hd).
    rewrite (frames_listed_render k _ Hentries). reflexivity. }
  assert (Hdom : ∀ k, is_Some (d !! k) ↔ k ∈ map fst entries).
  { intros k. rewrite (read_lines_dom _ _ _ k Hd), lookup_empty. split.
    - intros [[? [=]]|(l & v & Hl & Hv)].
      apply list_elem_of_In, in_map_iff in Hl as (e & <- & He).
      apply list_elem_of_In in He. rewrite (Hsplit e He) in Hv.
      injection Hv as <- _. apply list_elem_of_In, in_map, list_elem_of_In. exact He.
    - intros Hk. right.
      apply list_elem_of_In, in_map_iff in Hk as (e & <- & He).
      apply list_elem_of_In in He. exists (render_entry e), (snd e).
      split; [|exact (Hsplit e He)].
      apply list_elem_of_In, in_map, list_elem_of_In. exact He. }
  split; [exact Hget|]. split; [exact Hdom|].
  intros Hnodup e He.
  assert (Hk : is_Some (d !! fst e)).
  { apply Hdom, list_elem_of_In, in_map, list_elem_of_In. exact He. }
  destruct Hk as [vs Hvs]. rewrite Hvs. f_equal.
  rewrite <- (entry_frames_NoDup _ _ Hnodup He), <- Hget.
  unfold dict_get. rewrite Hvs. reflexivity.
Qed.

Lemma read_dictionary_round_trip_witness :
  ∃ d, fst (read_dictionary "lemma2frame.csv"
              (Toy.fresh (fun _ => Ok (render_resource
                 [("run", ["F1"; "F2"]); ("be", []); ("eat", ["F3"])]))))
       = Ok d ∧
    d !! "run" = Some ["F1"; "F2"] ∧ d !! "be" = Some [] ∧ d !! "go" = None.
Proof.
  destruct (read_dictionary_round_trip
              (Toy.fresh (fun _ => Ok (render_resource
                 [("run", ["F1"; "F2"]); ("be", []); ("eat", ["F3"])])))
              "lemma2frame.csv"
              [("run", ["F1"; "F2"]); ("be", []); ("eat", ["F3"])]
              eq_refl ltac:(repeat constructor))
    as (d & Hd & _ & Hdom & Hentry).
  exists d. split; [exact Hd|].
  assert (Hnodup : NoDup (map fst [("run", ["F1"; "F2"]); ("be", @nil string);
                                   ("eat", ["F3"])]))
    by (apply (bool_decide_unpack _); vm_compute; reflexivity).
  split; [|split].
  - apply (Hentry Hnodup ("run", ["F1"; "F2"])). apply list_elem_of_In. simpl. auto.
  - apply (Hentry Hnodup ("be", [])). apply list_elem_of_In. simpl. auto.
  - destruct (d !! "go") as [v|] eqn:Hgo; [|reflexivity].
    exfalso. assert (Hin : "go" ∈ map fst [("run", ["F1"; "F2"]); ("be", @nil string);
                                           ("eat", ["F3"])])
      by (apply Hdom; rewrite Hgo; eauto).
    apply list_elem_of_In in Hin. simpl in Hin.
    destruct Hin as [H|[H|[H|[]]]]; discriminate H.
Defined.

(** ** Decoding: what it returns *)

Section MoreDecoding.
Context {R : Type} {SR : Scalar R} {FW : Framework R}.

(** Inverting one bind of a run that returned. *)
Tactic Notation "step_inv" hyp(Hrun) "as" simple_intropattern(a) ident(Ha) :=
  let s := fresh "s" in
  apply SE_bind_Ok in Hrun as (a & s & Ha & Hrun);
  lazymatch type of Ha with
  | get_self _ = _ => unfold get_self in Ha; injection Ha as <- <-
  | set_self _ _ = _ => unfold set_self in Ha; injection Ha as <- <-
  | lift _ _ = _ => apply lift_Ok in Ha as [Ha ->]
  | _ => idtac
  end.

Lemma zip_nil_iff {A B} (xs : list A) (ys : list B) :
  zip xs ys = [] ↔ xs = [] ∨ ys = [].
Proof.
  destruct xs, ys; simpl; split; auto; try discriminate;
    intros [H|H]; discriminate H.
Qed.

Lemma decode_step_raises (cl : Z) (row : list R) (y : nat) :
  (fp_candidates ← Np.take row cl;
   if Nat.ltb 0 (length fp_candidates)
   then Np.argmax "dim" fp_candidates
   else Np.argmax "dim" row) ≠ Ok y.
Proof.
  destruct (Np.take row cl) as [c|e]; simpl; [|discriminate].
  destruct (Nat.ltb 0 (length c)); discriminate.
Qed.

Lemma decode_frames_inv (od od' : gmap string (value R)) (h h' : Heap)
    (fps : list (list R)) (lemmas : list string) :
  od !! "frame_probabilities" = Some (VTensor2 fps) ->
  od !! "lemmas" = Some (VStrings lemmas) ->
  decode_frames od h = (Ok od', h') ->
  (∃ ids,
     for_each (fun l => get_token_index (vocab (self h)) l "frames_labels")
       (concat (map (dict_get (lemm_frame_dict (self h))) lemmas)) = Ok ids ∧
     (ids = [] ∨ fps = [])) ∧
  od' = <["frame_tags" := VStrings []]> od ∧ h' = h.
Proof.
  intros Hfps Hlemmas Hrun. unfold decode_frames, decode_frames_with in Hrun.
  step_inv Hrun as self0 Hself.
  step_inv Hrun as fp Hfp.
  unfold get_tensor2 in Hfp. rewrite Hfps in Hfp. injection Hfp as <-.
  step_inv Hrun as ls Hls.
  unfold get_strings in Hls. rewrite Hlemmas in Hls. injection Hls as <-.
  step_inv Hrun as ids Hids.
  step_inv Hrun as predictions Hpredictions.
  apply for_each_never in Hpredictions as [Hzip ->];
    [|intros [cl row] y; apply decode_step_raises].
  step_inv Hrun as frame_tags Hframe_tags.
  injection Hframe_tags as <-. injection Hrun as <- <-.
  split; [|auto]. exists ids. split; [exact Hids|].
  apply zip_nil_iff. exact Hzip.
Qed.

(** X3: with its two inputs in the dictionary, [decode_frames] returns
    exactly when every candidate frame of the batch's lemmas is in the
    vocabulary and no candidate id meets a row of probabilities (no lemma
    has a candidate, or there is no row); it then stores an empty
    "frame_tags" and leaves the model alone. In particular a lemma without
    candidates gets no prediction from the argmax over all labels. *)
Theorem decode_frames_returns (od od' : gmap string (value R)) (h h' : Heap)
    (fps : list (list R)) (lemmas : list string) :
  od !! "frame_probabilities" = Some (VTensor2 fps) ->
  od !! "lemmas" = Some (VStrings lemmas) ->
  (decode_frames od h = (Ok od', h') ↔
   (∃ ids,
      for_each (fun l => get_token_index (vocab (self h)) l "frames_labels")
        (concat (map (dict_get (lemm_frame_dict (self h))) lemmas)) = Ok ids ∧
      (ids = [] ∨ fps = [])) ∧
   od' = <["frame_tags" := VStrings []]> od ∧ h' = h).
Proof.
  intros Hfps Hlemmas. split; [exact (decode_frames_inv _ _ _ _ _ _ Hfps Hlemmas)|].
  intros ((ids & Hids & Hempty) & -> & ->).
  unfold decode_frames, decode_frames_with. rewrite get_self_step.
  assert (H1 : get_tensor2 "frame_probabilities" od = Ok fps)
    by (unfold get_tensor2; rewrite Hfps; reflexivity).
  assert (H2 : get_strings "lemmas" od = Ok lemmas)
    by (unfold get_strings; rewrite Hlemmas; reflexivity).
  rewrite (lift_step _ _ _ _ H1), (lift_step _ _ _ _ H2), (lift_step _ _ _ _ Hids).
  apply zip_nil_iff in Hempty. rewrite Hempty. reflexivity.
Qed.

Lemma make_output_human_readable_inv (od od' : gmap string (value R)) (h h' : Heap) :
  make_output_human_readable od h = (Ok od', h') ->
  h' = h ∧
  ∃ wordpiece_tags word_tags,
    srl_bert_decode (vocab (self h)) od = Ok (wordpiece_tags, word_tags) ∧
    od' = <["frame_tags" := VStrings []]>
            (<["tags" := VLists word_tags]>
               (<["wordpiece_tags" := VLists wordpiece_tags]> od)).
Proof.
  intros Hrun.
  assert (h' = h) as ->.
  { pose proof (make_output_human_readable_keeps eq od h) as Hkeep.
    rewrite Hrun in Hkeep. symmetry. exact Hkeep. }
  split; [reflexivity|].
  unfold make_output_human_readable, super_make_output_human_readable in Hrun.
  step_inv Hrun as od1 Hsuper.
  step_inv Hsuper as self0 Hself.
  step_inv Hsuper as [wordpiece_tags word_tags] Hdecode.
  injection Hsuper as <- <-.
  apply decode_frames_Ok_empty in Hrun as ->. eauto.
Qed.

(** X4: when [make_output_human_readable] returns, the dictionary is the
    one it was given with the inherited decoder's "wordpiece_tags" and
    "tags" and an empty "frame_tags" added, every other entry as it was,
    and the model is untouched. *)
Theorem make_output_human_readable_result (od od' : gmap string (value R))
    (h h' : Heap) :
  make_output_human_readable od h = (Ok od', h') ->
  h' = h ∧
  (∃ wordpiece_tags word_tags,
     srl_bert_decode (vocab (self h)) od = Ok (wordpiece_tags, word_tags) ∧
     od' !! "wordpiece_tags" = Some (VLists wordpiece_tags) ∧
     od' !! "tags" = Some (VLists word_tags)) ∧
  od' !! "frame_tags" = Some (VStrings []) ∧
  ∀ k, ¬ decoding_key k -> od' !! k = od !! k.
Proof.
  intros Hrun.
  apply make_output_human_readable_inv in Hrun as (-> & wp & wt & Hdecode & ->).
  split; [reflexivity|]. split; [|split].
  - exists wp, wt. split; [exact Hdecode|]. split.
    + rewrite !lookup_insert_ne by discriminate. apply lookup_insert_eq.
    + rewrite lookup_insert_ne by discriminate. apply lookup_insert_eq.
  - apply lookup_insert_eq.
  - intros k Hk. unfold decoding_key in Hk.
    rewrite !lookup_insert_ne; [reflexivity|..]; intros <-; apply Hk; auto.
Qed.

End MoreDecoding.

Lemma decode_frames_returns_witness :
  decode_frames quiet_decoder_input (Toy.heap false false)
  = (Ok (<["frame_tags" := VStrings []]> quiet_decoder_input), Toy.heap false false).
Proof.
  apply (proj2 (decode_frames_returns quiet_decoder_input _ (Toy.heap false false) _
                  [[7 # 10; 1 # 10; 2 # 10; 0 # 1]] ["go"] eq_refl eq_refl)).
  split; [|auto]. exists []. split; [reflexivity | left; reflexivity].
Defined.

Lemma make_output_human_readable_result_witness :
  ∃ od' h',
    make_output_human_readable
      (<["words" := VLists [["dogs"; "go"]]]> quiet_decoder_input)
      (Toy.heap false false) = (Ok od', h') ∧
    h' = Toy.heap false false ∧
    od' !! "frame_tags" = Some (VStrings []) ∧
    od' !! "lemmas" = Some (VStrings ["go"]).
Proof.
  assert (returns (make_output_human_readable
                     (<["words" := VLists [["dogs"; "go"]]]> quiet_decoder_input)
                     (Toy.heap false false)) = true) as Hrun
    by (vm_compute; reflexivity).
  apply run_returned in Hrun as [od' Hrun].
  exists od', (snd (make_output_human_readable
                      (<["words" := VLists [["dogs"; "go"]]]> quiet_decoder_input)
                      (Toy.heap false false))).
  split; [exact Hrun|].
  destruct (make_output_human_readable_result _ _ _ _ Hrun)
    as (Hh & _ & Hframe & Hother).
  split; [exact Hh|]. split; [exact Hframe|].
  rewrite Hother by (apply not_decoding_key; discriminate).
  reflexivity.
Defined.

(** ** [forward]: rows, failures and effects *)

Section MoreForward.
Context {R : Type} {SR : Scalar R} {FW : Framework R}.

Tactic Notation "step_inv" hyp(Hrun) "as" simple_intropattern(a) ident(Ha) :=
  let s := fresh "s" in
  apply SE_bind_Ok in Hrun as (a & s & Ha & Hrun);
  lazymatch type of Ha with
  | get_self _ = _ => unfold get_self in Ha; injection Ha as <- <-
  | set_self _ _ = _ => unfold set_self in Ha; injection Ha as <- <-
  | lift _ _ = _ => apply lift_Ok in Ha as [Ha ->]
  | _ => idtac
  end.

Lemma select_row_length {A} (row out : list A) (ind : list Z) :
  Tensor.select_row row ind = Ok out ->
  length out = length (List.filter (fun i => Z.eqb i 1) ind).
Proof.
  revert ind out. induction row as [|x row IH]; intros [|i ind] out Hrun;
    try discriminate Hrun.
  - injection Hrun as <-. reflexivity.
  - cbn [Tensor.select_row] in Hrun.
    apply rbind_Ok in Hrun as (rest & Hrest & [= <-]).
    cbn [List.filter]. destruct (Z.eqb i 1); simpl; rewrite (IH _ _ Hrest); reflexivity.
Qed.

Lemma mask_select_length {A} (rows : list (list A)) (out : list A)
    (ind : list (list Z)) :
  Tensor.mask_select rows ind = Ok out -> length out = frame_positions ind.
Proof.
  unfold frame_positions.
  revert ind out. induction rows as [|row rows IH]; intros [|i ind] out Hrun;
    try discriminate Hrun.
  - injection Hrun as <-. reflexivity.
  - cbn [Tensor.mask_select] in Hrun.
    apply rbind_Ok in Hrun as (here & Hhere & Hrun).
    apply rbind_Ok in Hrun as (rest & Hrest & [= <-]).
    cbn [concat]. rewrite List.filter_app, !length_app.
    rewrite (select_row_length _ _ _ Hhere), (IH _ _ Hrest). reflexivity.
Qed.

(** X5: in the dictionary [forward] returns, "frame_logits" and
    "frame_probabilities" have one row for every position at which
    [frame_indicator] is 1, whatever the batch size. *)
Theorem forward_frame_rows (tokens : TextFieldTensors)
    (verb_indicator frame_indicator : list (list Z)) (metadata : list Metadata)
    (tags frame_tags : option (list (list Z)))
    (h h' : Heap) (od : gmap string (value R)) :
  forward tokens verb_indicator frame_indicator metadata tags frame_tags h
  = (Ok od, h') ->
  ∃ frame_logits frame_probabilities,
    od !! "frame_logits" = Some (VTensor2 frame_logits) ∧
    od !! "frame_probabilities" = Some (VTensor2 frame_probabilities) ∧
    length frame_logits = frame_positions frame_indicator ∧
    length frame_probabilities = frame_positions frame_indicator.
Proof.
  intros Hrun.
  apply forward_Ok in Hrun
    as (mask & ids & emb & pooled & fe & logits & fl & rows & cp & _ & _ & _ & Hrest).
  cbn zeta in Hrest. destruct Hrest as (Hfe & _ & Hfl & _ & _ & _ & Hod).
  assert (Hlookup : ∀ k, ¬ decoding_key k -> k ≠ "loss" -> k ≠ "role_loss" ->
              k ≠ "frame_loss" ->
              od !! k = base_output mask logits cp fl metadata !! k).
  { intros k Hk H1 H2 H3.
    destruct tags as [gold|]; [|subst od; reflexivity].
    destruct Hod as (rl & fl' & gf & ftf & od1 & _ & _ & _ & _ & Hod1 & ->).
    rewrite !lookup_insert_ne by congruence. auto. }
  pose proof (base_output_lookup mask logits cp fl metadata) as Hb.
  cbn zeta in Hb. destruct Hb as (_ & B2 & _ & B4 & _).
  assert (Hlen : length fl = frame_positions frame_indicator).
  { rewrite (for_each_length _ _ _ Hfl). exact (mask_select_length _ _ _ Hfe). }
  exists fl, (map Tensor.softmax fl).
  split; [rewrite Hlookup by (try apply not_decoding_key; discriminate); exact B2|].
  split; [rewrite Hlookup by (try apply not_decoding_key; discriminate); exact B4|].
  split; [exact Hlen|]. rewrite length_map. exact Hlen.
Qed.

(** X6: gold tags without gold frames. [forward] called with [tags] and
    without [frame_tags] never returns; when the call without gold tags
    returns a dictionary and the role loss on its "logits" and "mask"
    returns, it raises [TypeError] (the missing frames are indexed), and
    the model, both metrics included, is as it was. *)
Theorem forward_tags_without_frame_tags (tokens : TextFieldTensors)
    (verb_indicator frame_indicator : list (list Z)) (metadata : list Metadata)
    (gold : list (list Z)) (h : Heap) :
  (∀ od h',
      forward tokens verb_indicator frame_indicator metadata (Some gold) None h
      ≠ (Ok od, h')) ∧
  (∀ (od0 : gmap string (value R)) h0 mask logits role_loss,
      forward tokens verb_indicator frame_indicator metadata None None h
      = (Ok od0, h0) ->
      od0 !! "mask" = Some (VMask mask) ->
      od0 !! "logits" = Some (VTensor3 logits) ->
      sequence_cross_entropy_with_logits logits gold mask (_label_smoothing (self h))
      = Ok role_loss ->
      forward tokens verb_indicator frame_indicator metadata (Some gold) None h
      = (Raise TypeError, h)).
Proof.
  split.
  - intros od h' Hrun.
    apply forward_Ok in Hrun
      as (mask & ids & emb & pooled & fe & logits & fl & rows & cp & _ & _ & _ & Hrest).
    cbn zeta in Hrest. destruct Hrest as (_ & _ & _ & _ & _ & _ & Hod).
    destruct Hod as (rl & frl & gf & ftf & od1 & _ & Hnone & _). discriminate Hnone.
  - intros od0 h0 mask logits role_loss Hbase Hmask Hlogits Hrole.
    apply forward_with_tags_run in Hbase as (mask' & logits' & cp & fl & -> & -> & Hrun).
    pose proof (base_output_lookup mask' logits' cp fl metadata) as Hb.
    cbn zeta in Hb. destruct Hb as (B1 & _ & _ & _ & B5 & _).
    rewrite B5 in Hmask. injection Hmask as ->.
    rewrite B1 in Hlogits. injection Hlogits as ->.
    rewrite Hrun, (lift_step _ _ _ _ Hrole). reflexivity.
Qed.

(** X7: an empty batch. [forward] called with an empty [metadata] never
    returns; when the tensor steps succeed it raises the [ValueError] of
    the failed unpacking and leaves the model alone. *)
Theorem forward_empty_batch (tokens : TextFieldTensors)
    (verb_indicator frame_indicator : list (list Z))
    (tags frame_tags : option (list (list Z))) (h : Heap) :
  (∃ e, fst (forward tokens verb_indicator frame_indicator [] tags frame_tags h)
        = Raise e) ∧
  (∀ mask input_ids embeddings pooled frame_embeddings logits frame_logits rows
     class_probabilities,
      get_text_field_mask tokens = Ok mask ->
      get_token_ids_from_text_field_tensors tokens = Ok input_ids ->
      encoder_forward (bert_model (self h)) input_ids verb_indicator mask
      = Ok (embeddings, pooled) ->
      let x := Tensor.dropout3 (training (self h))
                 (dropout_factor (embedding_dropout (self h))) embeddings in
      Tensor.mask_select x frame_indicator = Ok frame_embeddings ->
      Tensor.linear3 (tag_projection_layer (self h)) x = Ok logits ->
      Tensor.linear2 (frame_projection_layer (self h)) frame_embeddings
      = Ok frame_logits ->
      Tensor.view_rows (num_classes (self h)) logits = Ok rows ->
      Tensor.view3 (length x) (Tensor.size1 x) (num_classes (self h))
        (map Tensor.softmax rows) = Ok class_probabilities ->
      forward tokens verb_indicator frame_indicator [] tags frame_tags h
      = (Raise ValueError, h)).
Proof.
  split.
  - destruct (forward tokens verb_indicator frame_indicator [] tags frame_tags h)
      as [[od|e] h'] eqn:Hrun; [|eauto].
    apply forward_Ok in Hrun
      as (mask & ids & emb & pooled & fe & logits & fl & rows & cp & _ & _ & _ & Hrest).
    cbn zeta in Hrest. destruct Hrest as (_ & _ & _ & _ & _ & Hne & _).
    contradiction.
  - intros mask ids emb pooled fe logits fl rows cp Hmask Hids Hemb x Hfe Hlogits
      Hfl Hrows Hcp.
    unfold forward. rewrite get_self_step.
    rewrite (lift_step _ _ _ _ Hmask), (lift_step _ _ _ _ Hids).
    rewrite (lift_step _ _ _ _ Hemb). cbn zeta. fold x.
    rewrite (lift_step _ _ _ _ Hfe), (lift_step _ _ _ _ Hlogits).
    rewrite (lift_step _ _ _ _ Hfl), (lift_step _ _ _ _ Hrows).
    rewrite (lift_step _ _ _ _ Hcp). reflexivity.
Qed.

Lemma update_span_metric_inv (metadata : list Metadata)
    (od od' : gmap string (value R)) (h h' : Heap) :
  update_span_metric metadata od h = (Ok od', h') ->
  ∃ wordpiece_tags word_tags predicted gold scorer scorer',
    srl_bert_decode (vocab (self h)) od = Ok (wordpiece_tags, word_tags) ∧
    od' = delete "tags"
            (<["frame_tags" := VStrings []]>
               (<["tags" := VLists word_tags]>
                  (<["wordpiece_tags" := VLists wordpiece_tags]> od))) ∧
    for_each convert_bio_tags_to_conll_format word_tags = Ok predicted ∧
    for_each convert_bio_tags_to_conll_format (map gold_tags metadata) = Ok gold ∧
    span_metric (self h) = Some scorer ∧
    span_call (map verb_index metadata) (map words metadata) predicted gold scorer
    = Ok scorer' ∧
    h' = {| self := set_span_metric (Some scorer') (self h); world := world h |}.
Proof.
  unfold update_span_metric. intros Hrun.
  step_inv Hrun as od1 Hreadable.
  apply make_output_human_readable_inv in Hreadable as (-> & wp & wt & Hdecode & ->).
  step_inv Hrun as [popped od2] Hpop.
  unfold pop_lists in Hpop.
  rewrite lookup_insert_ne, lookup_insert_eq in Hpop by discriminate.
  injection Hpop as <- <-.
  step_inv Hrun as predicted Hpredicted.
  step_inv Hrun as gold Hgold.
  step_inv Hrun as self0 Hself.
  step_inv Hrun as scorer Hscorer.
  step_inv Hrun as scorer' Hcall.
  step_inv Hrun as u Hset.
  injection Hrun as <- <-.
  exists wp, wt, predicted, gold, scorer, scorer'.
  repeat split; try assumption.
  destruct (span_metric (self h)); [injection Hscorer as ->; reflexivity | discriminate].
Qed.

(** Everything a [forward] that returned with gold tags went through after
    the dictionary of the two heads was built. *)
Lemma forward_with_tags_inv (tokens : TextFieldTensors)
    (verb_indicator frame_indicator : list (list Z)) (metadata : list Metadata)
    (gold : list (list Z)) (frame_tags : option (list (list Z)))
    (h h' : Heap) (od : gmap string (value R)) :
  forward tokens verb_indicator frame_indicator metadata (Some gold) frame_tags h
  = (Ok od, h') ->
  ∃ mask logits class_probabilities frame_logits filtered role_loss frame_loss
    od1 h1 f1,
    let base := base_output mask logits class_probabilities frame_logits metadata in
    (if negb (ignore_span_metric (self h))
        && bool_decide (is_Some (span_metric (self h)))
        && negb (training (self h))
     then update_span_metric metadata base h = (Ok od1, h1)
     else od1 = base ∧ h1 = h) ∧
    fbeta_call frame_logits filtered (f1_frame_metric (self h1)) = Ok f1 ∧
    h' = {| self := set_f1_frame_metric f1 (self h1); world := world h1 |} ∧
    od = <["loss" := VScalar (s_div (s_add role_loss frame_loss) (s_of_Z 2))]>
           (<["role_loss" := VScalar role_loss]>
              (<["frame_loss" := VScalar frame_loss]> od1)) ∧
    forward tokens verb_indicator frame_indicator metadata None frame_tags h
    = (Ok base, h) ∧
    sequence_cross_entropy_with_logits logits gold mask (_label_smoothing (self h))
    = Ok role_loss ∧
    (∃ gold_frames,
        frame_tags = Some gold_frames ∧
        Tensor.mask_select gold_frames frame_indicator = Ok filtered) ∧
    CrossEntropyLoss frame_logits filtered = Ok frame_loss.
Proof.
  unfold forward. intros Hrun.
  step_inv Hrun as self0 Hself.
  step_inv Hrun as mask Hmask.
  step_inv Hrun as input_ids Hids.
  step_inv Hrun as [embeddings pooled] Hencoder.
  step_inv Hrun as frame_embeddings Hselect.
  step_inv Hrun as logits Hlogits.
  step_inv Hrun as frame_logits Hframe_logits.
  step_inv Hrun as rows Hrows.
  step_inv Hrun as class_probabilities Hprobabilities.
  step_inv Hrun as [[ws vs] os] Hcolumns.
  pose proof Hcolumns as Hcols.
  apply metadata_columns_Ok in Hcolumns as [Hmetadata [= -> -> ->]].
  step_inv Hrun as role_loss Hrole.
  step_inv Hrun as filtered Hfiltered.
  step_inv Hrun as frame_loss Hframe.
  apply SE_bind_Ok in Hrun as (od1 & h1 & Hspan & Hrun).
  step_inv Hrun as self1 Hself1.
  step_inv Hrun as f1 Hf1.
  step_inv Hrun as u Hset.
  injection Hrun as <- <-.
  exists mask, logits, class_probabilities, frame_logits, filtered, role_loss,
    frame_loss, od1, h1, f1.
  cbn zeta. split.
  { destruct (_ && _); [exact Hspan|]. injection Hspan as <- <-. auto. }
  do 3 (split; [first [assumption | reflexivity]|]).
  split.
  { rewrite get_self_step.
    rewrite (lift_step _ _ _ _ Hmask), (lift_step _ _ _ _ Hids).
    rewrite (lift_step _ _ _ _ Hencoder). cbn zeta.
    rewrite (lift_step _ _ _ _ Hselect), (lift_step _ _ _ _ Hlogits).
    rewrite (lift_step _ _ _ _ Hframe_logits), (lift_step _ _ _ _ Hrows).
    rewrite (lift_step _ _ _ _ Hprobabilities), (lift_step _ _ _ _ Hcols).
    reflexivity. }
  split; [exact Hrole|]. split; [|exact Hframe].
  destruct frame_tags as [gold_frames|]; [eauto | discriminate Hfiltered].
Qed.

(** X8: the effects of a training step. When [forward] returns with gold
    tags and the span metric is out of the way (in training, when it is
    ignored, or when there is none), the only change to the model is the
    frame F1 metric, called once on the stored frame logits; the span
    metric is as it was, and the dictionary has none of "tags",
    "wordpiece_tags" and "frame_tags". *)
Theorem forward_training_effects (tokens : TextFieldTensors)
    (verb_indicator frame_indicator : list (list Z)) (metadata : list Metadata)
    (gold : list (list Z)) (frame_tags : option (list (list Z)))
    (h h' : Heap) (od : gmap string (value R)) :
  negb (ignore_span_metric (self h)) && bool_decide (is_Some (span_metric (self h)))
  && negb (training (self h)) = false ->
  forward tokens verb_indicator frame_indicator metadata (Some gold) frame_tags h
  = (Ok od, h') ->
  (∃ frame_logits filtered f1,
     od !! "frame_logits" = Some (VTensor2 frame_logits) ∧
     fbeta_call frame_logits filtered (f1_frame_metric (self h)) = Ok f1 ∧
     h' = {| self := set_f1_frame_metric f1 (self h); world := world h |}) ∧
  span_metric (self h') = span_metric (self h) ∧
  od !! "tags" = None ∧ od !! "wordpiece_tags" = None ∧ od !! "frame_tags" = None.
Proof.
  intros Hoff Hrun.
  apply forward_with_tags_inv in Hrun
    as (mask & logits & cp & fl & filtered & rl & frl & od1 & h1 & f1
        & Hspan & Hcall & -> & -> & _).
  rewrite Hoff in Hspan. destruct Hspan as [-> ->].
  pose proof (base_output_lookup mask logits cp fl metadata) as Hb.
  cbn zeta in Hb. destruct Hb as (_ & B2 & _).
  split; [|split; [reflexivity|]].
  - exists fl, filtered, f1. split; [|auto].
    rewrite !lookup_insert_ne by discriminate. exact B2.
  - unfold base_output.
    repeat split; rewrite !lookup_insert_ne by discriminate; apply lookup_empty.
Qed.

(** X9: the effects of an evaluation step. When [forward] returns with gold
    tags while the span metric is active (not ignored, present, not in
    training), the span metric was called once, on the verb indices and
    sentences of the batch, on the word tags the inherited decoder gave
    for the dictionary of the call without gold tags, and on the gold tags
    of the metadata, both converted to the CONLL format; then the frame F1
    metric was called on the frame logits of that dictionary and the gold
    frames at the frame positions. The returned dictionary keeps
    "wordpiece_tags" and an empty "frame_tags" and no longer has "tags". *)
Theorem forward_evaluation_effects (tokens : TextFieldTensors)
    (verb_indicator frame_indicator : list (list Z)) (metadata : list Metadata)
    (gold : list (list Z)) (frame_tags : option (list (list Z)))
    (h h' : Heap) (od : gmap string (value R)) :
  negb (ignore_span_metric (self h)) && bool_decide (is_Some (span_metric (self h)))
  && negb (training (self h)) = true ->
  forward tokens verb_indicator frame_indicator metadata (Some gold) frame_tags h
  = (Ok od, h') ->
  ∃ od0 wordpiece_tags word_tags predicted gold_conll scorer scorer' frame_logits
    gold_frames filtered f1,
    forward tokens verb_indicator frame_indicator metadata None frame_tags h
    = (Ok od0, h) ∧
    srl_bert_decode (vocab (self h)) od0 = Ok (wordpiece_tags, word_tags) ∧
    for_each convert_bio_tags_to_conll_format word_tags = Ok predicted ∧
    for_each convert_bio_tags_to_conll_format (map gold_tags metadata)
    = Ok gold_conll ∧
    span_metric (self h) = Some scorer ∧
    span_call (map verb_index metadata) (map words metadata) predicted gold_conll
      scorer = Ok scorer' ∧
    od0 !! "frame_logits" = Some (VTensor2 frame_logits) ∧
    frame_tags = Some gold_frames ∧
    Tensor.mask_select gold_frames frame_indicator = Ok filtered ∧
    fbeta_call frame_logits filtered (f1_frame_metric (self h)) = Ok f1 ∧
    h' = {| self := set_f1_frame_metric f1
                      (set_span_metric (Some scorer') (self h));
            world := world h |} ∧
    od !! "tags" = None ∧
    od !! "wordpiece_tags" = Some (VLists wordpiece_tags) ∧
    od !! "frame_tags" = Some (VStrings []) ∧
    od !! "frame_logits" = Some (VTensor2 frame_logits).
Proof.
  intros Hon Hrun.
  apply forward_with_tags_inv in Hrun
    as (mask & logits & cp & fl & filtered & rl & frl & od1 & h1 & f1
        & Hspan & Hcall & -> & -> & Hbase & _ & (gold_frames & -> & Hfiltered) & _).
  rewrite Hon in Hspan.
  apply update_span_metric_inv in Hspan
    as (wp & wt & predicted & gold_conll & scorer & scorer' & Hdecode & -> & Hpredicted
        & Hgold & Hscorer & Hspan_call & ->).
  pose proof (base_output_lookup mask logits cp fl metadata) as Hb.
  cbn zeta in Hb. destruct Hb as (_ & B2 & _).
  exists (base_output mask logits cp fl metadata), wp, wt, predicted, gold_conll,
    scorer, scorer', fl, gold_frames, filtered, f1.
  split; [exact Hbase|]. split; [exact Hdecode|].
  split; [exact Hpredicted|]. split; [exact Hgold|]. split; [exact Hscorer|].
  split; [exact Hspan_call|]. split; [exact B2|]. split; [reflexivity|].
  split; [exact Hfiltered|]. split; [exact Hcall|]. split; [reflexivity|].
  split; [rewrite !lookup_insert_ne by discriminate; apply lookup_delete_eq|].
  split.
  { rewrite !lookup_insert_ne by discriminate.
    rewrite lookup_delete_ne by discriminate.
    rewrite !lookup_insert_ne by discriminate. apply lookup_insert_eq. }
  split.
  { rewrite !lookup_insert_ne by discriminate.
    rewrite lookup_delete_ne by discriminate. apply lookup_insert_eq. }
  rewrite !lookup_insert_ne by discriminate.
  rewrite lookup_delete_ne by discriminate.
  rewrite !lookup_insert_ne by discriminate. exact B2.
Qed.

End MoreForward.

Lemma Toy_indicator (ids ind : list (list Z)) :
  Forall2 (fun row i => length i = length row) ids ind ->
  indicator_for ids ind.
Proof. intros Hind. exact Hind. Qed.

Lemma forward_frame_rows_witness :
  ∃ od h' frame_logits,
    forward Toy.pair_tokens Toy.pair_indicator Toy.pair_indicator Toy.pair_metadata
      None None (Toy.heap false false) = (Ok od, h') ∧
    od !! "frame_logits" = Some (VTensor2 frame_logits) ∧
    length frame_logits = 2.
Proof.
  assert (returns (forward Toy.pair_tokens Toy.pair_indicator Toy.pair_indicator
                     Toy.pair_metadata None None (Toy.heap false false)) = true)
    as Hrun by (vm_compute; reflexivity).
  apply run_returned in Hrun as [od Hrun].
  destruct (forward_frame_rows _ _ _ _ _ _ _ _ _ Hrun) as (fl & fp & Hfl & _ & Hlen & _).
  exists od, (snd (forward Toy.pair_tokens Toy.pair_indicator Toy.pair_indicator
                     Toy.pair_metadata None None (Toy.heap false false))), fl.
  split; [exact Hrun|]. split; [exact Hfl | exact Hlen].
Defined.

Lemma forward_tags_without_frame_tags_witness :
  forward Toy.tokens Toy.verb_indicator Toy.frame_indicator Toy.metadata
    (Some Toy.tags) None (Toy.heap false true)
  = (Raise TypeError, Toy.heap false true).
Proof.
  destruct (forward_tensor_steps Toy.tokens Toy.verb_indicator Toy.frame_indicator
              Toy.metadata None (Toy.heap false true) [[true; true]] Toy.tokens
              (map (map (fun i => repeat (inject_Z i) 2)) Toy.tokens) []
              (Toy_model_wf false true) ltac:(discriminate)
              (Toy_encoder_contract _) eq_refl eq_refl ltac:(repeat constructor)
              eq_refl
              (Toy_indicator Toy.tokens Toy.frame_indicator ltac:(repeat constructor))
              ltac:(discriminate))
    as (logits & fl & Hrun).
  pose proof (Hrun None) as Hbase. cbv beta iota in Hbase.
  pose proof (base_output_lookup [[true; true]] logits
                (map (map Tensor.softmax) logits) fl Toy.metadata) as Hb.
  cbv zeta in Hb. destruct Hb as (B1 & _ & _ & _ & B5 & _).
  exact (proj2 (forward_tags_without_frame_tags Toy.tokens Toy.verb_indicator
                  Toy.frame_indicator Toy.metadata Toy.tags (Toy.heap false true))
           _ _ _ _ (3 # 4)%Q Hbase B5 B1 eq_refl).
Defined.

Lemma forward_empty_batch_witness :
  ∃ e, fst (forward Toy.tokens Toy.verb_indicator Toy.frame_indicator []
              (Some Toy.tags) (Some Toy.frame_tags) (Toy.heap false true))
       = Raise e.
Proof.
  exact (proj1 (forward_empty_batch Toy.tokens Toy.verb_indicator
                  Toy.frame_indicator (Some Toy.tags) (Some Toy.frame_tags)
                  (Toy.heap false true))).
Defined.

Lemma forward_training_effects_witness :
  ∃ od h',
    forward Toy.tokens Toy.verb_indicator Toy.frame_indicator Toy.metadata
      (Some Toy.tags) (Some Toy.frame_tags) (Toy.heap false true) = (Ok od, h') ∧
    f1_frame_metric (self h') = 1%nat ∧
    span_metric (self h') = Some 0%nat ∧
    od !! "frame_tags" = None.
Proof.
  assert (returns (forward Toy.tokens Toy.verb_indicator Toy.frame_indicator
                     Toy.metadata (Some Toy.tags) (Some Toy.frame_tags)
                     (Toy.heap false true)) = true)
    as Hrun by (vm_compute; reflexivity).
  apply run_returned in Hrun as [od Hrun].
  destruct (forward_training_effects _ _ _ _ _ _ (Toy.heap false true) _ _ eq_refl Hrun)
    as ((fl & filtered & f1 & _ & Hcall & Hh) & Hspan & _ & _ & Hframe).
  exists od, (snd (forward Toy.tokens Toy.verb_indicator Toy.frame_indicator
                     Toy.metadata (Some Toy.tags) (Some Toy.frame_tags)
                     (Toy.heap false true))).
  split; [exact Hrun|]. split; [|split; [exact Hspan | exact Hframe]].
  rewrite Hh. injection Hcall as <-. reflexivity.
Defined.

Lemma forward_evaluation_effects_witness :
  ∃ od h',
    forward Toy.tokens Toy.verb_indicator Toy.frame_indicator quiet_metadata
      (Some Toy.tags) (Some Toy.frame_tags) (Toy.heap false false) = (Ok od, h') ∧
    span_metric (self h') = Some 1%nat ∧
    f1_frame_metric (self h') = 1%nat ∧
    od !! "tags" = None ∧ od !! "frame_tags" = Some (VStrings []).
Proof.
  assert (returns (forward Toy.tokens Toy.verb_indicator Toy.frame_indicator
                     quiet_metadata (Some Toy.tags) (Some Toy.frame_tags)
                     (Toy.heap false false)) = true)
    as Hrun by (vm_compute; reflexivity).
  apply run_returned in Hrun as [od Hrun].
  destruct (forward_evaluation_effects _ _ _ _ _ _ (Toy.heap false false) _ _ eq_refl Hrun)
    as (od0 & wp & wt & predicted & gold_conll & scorer & scorer' & fl & gold_frames
        & filtered & f1 & _ & _ & _ & _ & Hscorer & Hspan & _ & _ & _ & Hcall & Hh
        & Htags & _ & Hframe & _).
  exists od, (snd (forward Toy.tokens Toy.verb_indicator Toy.frame_indicator
                     quiet_metadata (Some Toy.tags) (Some Toy.frame_tags)
                     (Toy.heap false false))).
  split; [exact Hrun|]. rewrite Hh.
  injection Hscorer as <-. injection Hspan as <-. injection Hcall as <-.
  repeat split; assumption.
Defined.

(** ** The constructor and the metrics *)

Section MoreMetrics.
Context {R : Type} {SR : Scalar R} {FW : Framework R}.

(** X10: what the constructor establishes. In a model it returns, the
    initializer has visited every parameter: the encoder is the one given,
    or the one loaded by name, with its parameters refilled under the
    prefix "bert_model.", and the two projection layers are fresh layers
    from that encoder's hidden size to the sizes of the "labels" and
    "frames_labels" vocabularies, refilled under their names; their input
    size is still the hidden size of the stored encoder. The model is in
    training mode, has a fresh micro-averaged frame metric, and has a span
    metric exactly when a scorer path was given (ignoring the class "V");
    the base constructor, the encoder loading and the dropout constructor
    all returned. *)
Theorem init_attributes (package_root : string) (v : Vocabulary)
    (bert : BertArg) (p : R) (initializer : string -> nat -> nat -> R -> R)
    (label_smoothing : option R) (ignore : bool) (srl_eval_path : option string)
    (kwargs : ModelKwargs) (w w' : World) (m : Model) :
  __init__ package_root v bert p initializer label_smoothing ignore
    srl_eval_path kwargs w = (Ok m, w') ->
  Model_wf m ∧
  vocab m = v ∧ training m = true ∧ ignore_span_metric m = ignore ∧
  _label_smoothing m = label_smoothing ∧
  f1_frame_metric m = FBetaMeasure "micro" ∧
  span_metric m = (fun path => SrlEvalScorer path ["V"]) <$> srl_eval_path ∧
  (∃ e,
     match bert with
     | BertName name => from_pretrained name = Ok e
     | BertObject given => given = e
     end ∧
     bert_model m
     = initialize_encoder (fun name => initializer ("bert_model." +:+ name)) e ∧
     tag_projection_layer m
     = initialize_linear initializer "tag_projection_layer"
         (Linear (hidden_size e) (get_vocab_size v "labels")) ∧
     frame_projection_layer m
     = initialize_linear initializer "frame_projection_layer"
         (Linear (hidden_size e) (get_vocab_size v "frames_labels"))) ∧
  Dropout p = Ok (embedding_dropout m) ∧
  Model_init v kwargs = Ok tt.
Proof.
  intros Hinit. split; [exact (init_Model_wf _ _ _ _ _ _ _ _ _ _ _ _ Hinit)|].
  unfold __init__ in Hinit.
  apply SE_bind_Ok in Hinit as (u & w0 & Hbase & Hinit).
  apply lift_Ok in Hbase as [Hbase ->]. destruct u.
  apply SE_bind_Ok in Hinit as (d & w1 & Hread & Hinit).
  apply SE_bind_Ok in Hinit as (e & w2 & Hbert & Hinit).
  apply lift_Ok in Hbert as [Hbert ->].
  apply SE_bind_Ok in Hinit as (p' & w3 & Hdropout & Hinit).
  apply lift_Ok in Hdropout as [Hdropout ->].
  injection Hinit as <- <-. cbn.
  do 5 (split; [reflexivity|]).
  split; [destruct srl_eval_path; reflexivity|].
  split; [|split; assumption].
  exists e. split; [|repeat split].
  destruct bert as [name|enc]; [exact Hbert | congruence].
Qed.

(** X11: a model built without a scorer path cannot report metrics unless
    the span metric is ignored: [get_metrics] raises [AttributeError] (the
    absent scorer is asked for its metric) and changes nothing; with
    [ignore_span_metric] it returns the empty dictionary. *)
Theorem init_without_scorer (package_root : string) (v : Vocabulary)
    (bert : BertArg) (p : R) (initializer : string -> nat -> nat -> R -> R)
    (label_smoothing : option R) (ignore : bool)
    (kwargs : ModelKwargs) (w w' : World) (m : Model) (reset : bool) :
  __init__ package_root v bert p initializer label_smoothing ignore
    None kwargs w = (Ok m, w') ->
  get_metrics reset {| self := m; world := w' |}
  = (if ignore then Ok ∅ else Raise AttributeError, {| self := m; world := w' |}).
Proof.
  intros Hinit. unfold __init__ in Hinit.
  apply SE_bind_Ok in Hinit as (u & w0 & _ & Hinit).
  apply SE_bind_Ok in Hinit as (d & w1 & _ & Hinit).
  apply SE_bind_Ok in Hinit as (e & w2 & _ & Hinit).
  apply SE_bind_Ok in Hinit as (p' & w3 & _ & Hinit).
  injection Hinit as <- <-.
  unfold get_metrics. rewrite get_self_step. cbn [self ignore_span_metric span_metric].
  destruct ignore; reflexivity.
Qed.

(** X12: the effects and failures of [get_metrics] when the span metric is
    not ignored. Without a scorer it raises [AttributeError] and changes
    nothing; the scorer's exception is raised with nothing changed; the
    frame metric's exception is raised after the scorer's state was
    replaced by the one its [get_metric] returned (with [reset], the span
    metric is then already reset); otherwise both metrics hold the states
    their [get_metric] returned, and nothing else in the model changes. *)
Theorem get_metrics_effects (reset : bool) (h : Heap) :
  ignore_span_metric (self h) = false ->
  (span_metric (self h) = None ->
   get_metrics reset h = (Raise AttributeError, h)) ∧
  (∀ scorer e,
      span_metric (self h) = Some scorer ->
      span_get_metric reset scorer = Raise e ->
      get_metrics reset h = (Raise e, h)) ∧
  (∀ scorer span_items scorer' e,
      span_metric (self h) = Some scorer ->
      span_get_metric reset scorer = Ok (span_items, scorer') ->
      fbeta_get_metric reset (f1_frame_metric (self h)) = Raise e ->
      get_metrics reset h
      = (Raise e, {| self := set_span_metric (Some scorer') (self h);
                     world := world h |})) ∧
  (∀ scorer span_items scorer' frame_items f1',
      span_metric (self h) = Some scorer ->
      span_get_metric reset scorer = Ok (span_items, scorer') ->
      fbeta_get_metric reset (f1_frame_metric (self h)) = Ok (frame_items, f1') ->
      snd (get_metrics reset h)
      = {| self := set_f1_frame_metric f1' (set_span_metric (Some scorer') (self h));
           world := world h |}).
Proof.
  intros Hignore. repeat apply conj.
  - intros Hnone. unfold get_metrics. rewrite get_self_step, Hignore, Hnone.
    reflexivity.
  - intros scorer e Hscorer Hspan.
    unfold get_metrics. rewrite get_self_step, Hignore, Hscorer.
    rewrite (lift_step _ _ _ scorer eq_refl).
    rewrite (lift_raise _ _ _ _ Hspan). reflexivity.
  - intros scorer span_items scorer' e Hscorer Hspan Hframe.
    unfold get_metrics. rewrite get_self_step, Hignore, Hscorer.
    rewrite (lift_step _ _ _ scorer eq_refl).
    rewrite (lift_step _ _ _ _ Hspan).
    rewrite set_self_step, get_self_step.
    cbn [self set_span_metric f1_frame_metric].
    rewrite (lift_raise _ _ _ _ Hframe). reflexivity.
  - intros scorer span_items scorer' frame_items f1' Hscorer Hspan Hframe.
    unfold get_metrics. rewrite get_self_step, Hignore, Hscorer.
    rewrite (lift_step _ _ _ scorer eq_refl).
    rewrite (lift_step _ _ _ _ Hspan).
    rewrite set_self_step, get_self_step.
    cbn [self set_span_metric f1_frame_metric].
    rewrite (lift_step _ _ _ _ Hframe). reflexivity.
Qed.

Lemma dict_of_items_last (before after : list (string * R)) (k : string) (x : R) :
  k ∉ map fst after ->
  dict_of_items (before ++ (k, x) :: after) !! k = Some x.
Proof.
  induction after as [|[k' x'] after IH] using rev_ind; intros Hfresh.
  - rewrite dict_of_items_snoc. apply lookup_insert_eq.
  - rewrite app_comm_cons, app_assoc, dict_of_items_snoc.
    rewrite map_app in Hfresh. cbn [map fst] in Hfresh.
    rewrite lookup_insert_ne.
    + apply IH. intros Hin. apply Hfresh, elem_of_app. left. exact Hin.
    + intros ->. apply Hfresh, elem_of_app. right. left.
Qed.

(** X13: two overall span-metric entries whose names share the text before
    the first "-" land on the same "_role" key, and the later one is
    reported: an overall entry is found under its key with its own value as
    soon as no overall entry after it has the same prefix. *)
Theorem get_metrics_last_wins (reset : bool) (h : Heap) scorer scorer' f1'
    (before after frame_items : list (string * R)) (e : string * R) :
  ignore_span_metric (self h) = false ->
  span_metric (self h) = Some scorer ->
  span_get_metric reset scorer = Ok (before ++ e :: after, scorer') ->
  fbeta_get_metric reset (f1_frame_metric (self h)) = Ok (frame_items, f1') ->
  is_overall e = true ->
  (∀ e', e' ∈ after -> is_overall e' = true ->
         PyStr.before_first "-" (fst e') ≠ PyStr.before_first "-" (fst e)) ->
  ∃ d, fst (get_metrics reset h) = Ok d ∧
       d !! (PyStr.before_first "-" (fst e) +:+ "_role") = Some (snd e).
Proof.
  intros Hignore Hscorer Hspan Hframe He Hafter.
  eexists. split; [exact (get_metrics_run _ _ _ _ _ _ _ Hignore Hscorer Hspan Hframe)|].
  rewrite lookup_union_r by apply frame_dict_no_role.
  rewrite List.filter_app. cbn [List.filter]. rewrite He.
  rewrite map_app. cbn [map]. unfold role_entry at 2.
  apply dict_of_items_last.
  intros Hin. apply list_elem_of_In, in_map_iff in Hin as (k' & Hk' & Hin).
  apply in_map_iff in Hin as (e' & <- & Hin).
  apply filter_In in Hin as [Hin Ho].
  cbn [role_entry fst] in Hk'. apply append_inj_r in Hk'.
  exact (Hafter e' (proj2 (list_elem_of_In _ _) Hin) Ho Hk').
Qed.

End MoreMetrics.

Lemma init_attributes_witness :
  ∃ m w',
    __init__ Toy.root Toy.vocabulary (BertName "bert-base-cased") 0%Q
      (fun _ _ _ _ => 0%Q) None false (Some "srl-eval.pl") tt
      (Toy.fresh Toy.disk) = (Ok m, w') ∧
    Model_wf m ∧ training m = true ∧ span_metric m = Some 0%nat ∧
    bert_model m = 2%nat ∧
    Tensor.weight (tag_projection_layer m) = [[0; 0]; [0; 0]; [0; 0]]%Q.
Proof.
  assert (returns (__init__ Toy.root Toy.vocabulary (BertName "bert-base-cased") 0%Q
                     (fun _ _ _ _ => 0%Q) None false (Some "srl-eval.pl") tt
                     (Toy.fresh Toy.disk)) = true) as Hrun
    by (vm_compute; reflexivity).
  apply run_returned in Hrun as [m Hrun].
  exists m. eexists. split; [exact Hrun|].
  destruct (init_attributes (FW := Toy.framework) _ _ _ _ _ _ _ _ _ _ _ _ Hrun)
    as (Hwf & _ & Htraining & _ & _ & _ & Hspan & (e & Hload & Hbert & Htag & _) & _).
  injection Hload as <-.
  split; [exact Hwf|]. split; [exact Htraining|]. split; [exact Hspan|].
  split; [exact Hbert|]. rewrite Htag. reflexivity.
Defined.

Lemma init_without_scorer_witness :
  ∃ m w',
    __init__ Toy.root Toy.vocabulary (BertName "bert-base-cased") 0%Q
      (fun _ _ _ x => x) None false None tt (Toy.fresh Toy.disk) = (Ok m, w') ∧
    get_metrics true {| self := m; world := w' |}
    = (Raise AttributeError, {| self := m; world := w' |}).
Proof.
  assert (returns (__init__ Toy.root Toy.vocabulary (BertName "bert-base-cased") 0%Q
                     (fun _ _ _ x => x) None false None tt (Toy.fresh Toy.disk))
          = true) as Hrun by (vm_compute; reflexivity).
  apply run_returned in Hrun as [m Hrun].
  exists m. eexists. split; [exact Hrun|].
  exact (init_without_scorer (FW := Toy.framework) _ _ _ _ _ _ _ _ _ _ _ true Hrun).
Defined.

Lemma get_metrics_effects_witness :
  get_metrics true (Toy.heap false true)
  = (Raise RuntimeError,
     {| self := set_span_metric (Some 0%nat) (Toy.model false true);
        world := world (Toy.heap false true) |}) ∧
  snd (get_metrics true (Toy.evaluated false))
  = {| self := set_f1_frame_metric 0%nat
                 (set_span_metric (Some 0%nat) (self (Toy.evaluated false)));
       world := world (Toy.evaluated false) |}.
Proof.
  split.
  - apply (proj1 (proj2 (proj2 (get_metrics_effects true (Toy.heap false true) eq_refl)))
             0%nat Toy.span_items 0%nat RuntimeError); reflexivity.
  - apply (proj2 (proj2 (proj2 (get_metrics_effects true (Toy.evaluated false) eq_refl)))
             1%nat Toy.span_items 0%nat Toy.frame_items 0%nat); reflexivity.
Defined.

Lemma get_metrics_last_wins_witness :
  ∃ d, fst (get_metrics false (Toy.evaluated false)) = Ok d ∧
       d !! "precision_role" = Some (1 # 2)%Q.
Proof.
  apply (get_metrics_last_wins false (Toy.evaluated false) 1%nat 1%nat 1%nat []
           [("recall-overall", 1 # 4); ("f1-measure-overall", 1 # 3);
            ("precision-ARG0", 1 # 5)]%Q
           Toy.frame_items ("precision-overall", 1 # 2)%Q);
    try reflexivity.
  intros e' Hin Ho.
  repeat (apply elem_of_cons in Hin as [-> | Hin]);
    [vm_compute; discriminate | vm_compute; discriminate
     | vm_compute in Ho; discriminate Ho | apply elem_of_nil in Hin; contradiction].
Defined.

Lemma forward_returns_witness :
  ∃ logits frame_logits,
    forward Toy.tokens Toy.verb_indicator Toy.frame_indicator Toy.metadata
      None None (Toy.heap false false)
    = (Ok (base_output [[true; true]] logits (map (map Tensor.softmax) logits)
             frame_logits Toy.metadata), Toy.heap false false).
Proof.
  apply (forward_returns Toy.tokens Toy.verb_indicator Toy.frame_indicator
           Toy.metadata None (Toy.heap false false) [[true; true]] Toy.tokens
           (map (map (fun i => repeat (inject_Z i) 2)) Toy.tokens) []).
  - apply Toy_model_wf.
  - discriminate.
  - apply Toy_encoder_contract.
  - reflexivity.
  - reflexivity.
  - repeat constructor.
  - reflexivity.
  - apply Toy_indicator. repeat constructor.
  - discriminate.
Defined.

Lemma forward_returns_with_tags_witness :
  ∃ od0 : gmap string (value Q),
    forward Toy.tokens Toy.verb_indicator Toy.frame_indicator Toy.metadata
      (Some Toy.tags) (Some Toy.frame_tags) (Toy.heap false true)
    = (Ok (<["loss" := VScalar (s_div (s_add (3 # 4) (1 # 4)) (s_of_Z 2))]>
             (<["role_loss" := VScalar (3 # 4)%Q]>
                (<["frame_loss" := VScalar (1 # 4)%Q]> od0))),
       {| self := set_f1_frame_metric 1%nat (Toy.model false true);
          world := world (Toy.heap false true) |}).
Proof.
  destruct (forward_tensor_steps Toy.tokens Toy.verb_indicator Toy.frame_indicator
              Toy.metadata None (Toy.heap false true) [[true; true]] Toy.tokens
              (map (map (fun i => repeat (inject_Z i) 2)) Toy.tokens) []
              (Toy_model_wf false true) ltac:(discriminate)
              (Toy_encoder_contract _) eq_refl eq_refl ltac:(repeat constructor)
              eq_refl
              (Toy_indicator Toy.tokens Toy.frame_indicator ltac:(repeat constructor))
              ltac:(discriminate))
    as (logits & fl & Hrun).
  pose proof (Hrun None) as Hbase. cbv beta iota in Hbase.
  pose proof (base_output_lookup [[true; true]] logits
                (map (map Tensor.softmax) logits) fl Toy.metadata) as Hb.
  cbv zeta in Hb. destruct Hb as (B1 & B2 & _ & _ & B5 & _).
  eexists.
  exact (forward_returns_with_tags Toy.tokens Toy.verb_indicator Toy.frame_indicator
           Toy.metadata Toy.tags Toy.frame_tags (Toy.heap false true) _ _
           [[true; true]] logits fl [2%Z] (3 # 4)%Q (1 # 4)%Q 1%nat
           Hbase B5 B1 B2 eq_refl eq_refl eq_refl eq_refl eq_refl).
Defined.
